(** * Godwallet: lease tokens, listings and sessions

    A shallow embedding of the parts of the Godwallet repository that carry
    state-machine content, and the properties its specification states about
    them:

    - [Lease]: the Solidity contract [DomainLeaseNFT], together with the
      OpenZeppelin 4.x [ERC721], [ERC721URIStorage], [Ownable] and [Counters]
      code it inherits and calls;
    - [Js]: the fragment of JavaScript values and coercions the route handlers
      apply to request bodies ([||], [===], [*]), and [Js.Platform], what the
      model leaves to the JavaScript engine and to PostgreSQL: the theorems
      hold for every platform;
    - [Domains]: the listing routes of [routes/domains.js] over the [Listing]
      and [Domain] tables of [models/index.js];
    - [Auth]: token issuance and the routes of [routes/auth.js];
    - [Leases]: the lease lifecycle manager.  [server.js] mounts
      [routes/leases], but the repository has no such file, so this module
      follows the specification.

    The definitions come first; the lemmas and the theorems about them follow
    under "Properties". *)

From Stdlib Require Import ZArith Ascii String List Lia Bool.
From stdpp Require Import base option gmap strings list.

Set Warnings "-register-all".

Local Open Scope string_scope.
Local Open Scope Z_scope.

(** ** Solidity preliminaries *)

(** [uint256] and [address] values are integers; unchecked arithmetic wraps. *)
Abbreviation uint256 := Z (only parsing).
Abbreviation address := Z (only parsing).

Definition wrap256 (z : Z) : uint256 := z mod 2 ^ 256.

(** The outcome of a call: a value, or a revert with its reason string.  A
    revert carries no state: every write of the call is discarded. *)
Inductive result (A : Type) : Type :=
| Ok (a : A)
| Revert (reason : string).
Arguments Ok {A} a.
Arguments Revert {A} reason.

Definition rbind {A B : Type} (r : result A) (k : A -> result B) : result B :=
  match r with
  | Ok a => k a
  | Revert m => Revert m
  end.

Definition require (c : bool) (reason : string) : result unit :=
  if c then Ok tt else Revert reason.

Notation "x <~ r ;; k" := (rbind r (fun x => k))
  (at level 100, r at next level, k at level 200, right associativity).
Notation "'require!' c , m ;; k" := (rbind (require c m) (fun _ => k))
  (at level 100, c at next level, m at next level, k at level 200,
   right associativity).

(** A Solidity mapping is total: a key never written reads as the zero value
    of the value type.  [mread zero m k] is the read [m[k]]; an assignment is
    [<[k:=v]> m] and [delete m[k]] is [delete k m]. *)
Definition mread {K V : Type} `{Countable K} (zero : V) (m : gmap K V) (k : K) : V :=
  default zero (m !! k).

Module Lease.

(** *** Storage *)

Record LeaseInfo : Type := mkLeaseInfo {
  domainName : string;
  lessor : address;
  lessee : address;
  startDate : uint256;
  endDate : uint256;
  priceAmount : uint256;
  restrictions : string;
  agreementIpfsHash : string;
  active : bool
}.

(** The value a [LeaseInfo] slot holds before it is written and after
    [delete]. *)
Definition noLease : LeaseInfo :=
  mkLeaseInfo "" 0 0 0 0 0 "" "" false.

Definition set_lessee (v : address) (l : LeaseInfo) : LeaseInfo :=
  mkLeaseInfo (domainName l) (lessor l) v (startDate l) (endDate l)
    (priceAmount l) (restrictions l) (agreementIpfsHash l) (active l).
Definition set_active (v : bool) (l : LeaseInfo) : LeaseInfo :=
  mkLeaseInfo (domainName l) (lessor l) (lessee l) (startDate l) (endDate l)
    (priceAmount l) (restrictions l) (agreementIpfsHash l) v.

Record State : Type := mkState {
  (* ERC721 *)
  _owners : gmap uint256 address;
  _balances : gmap address uint256;
  _tokenApprovals : gmap uint256 address;
  _operatorApprovals : gmap (address * address) bool;
  (* ERC721URIStorage *)
  _tokenURIs : gmap uint256 string;
  (* Ownable *)
  _owner : address;
  (* DomainLeaseNFT *)
  _tokenIds : uint256;
  leases : gmap uint256 LeaseInfo;
  domainToToken : gmap string uint256;
  platformFee : uint256;
  treasury : address
}.

Definition set_owners (v : gmap uint256 address) (s : State) : State :=
  mkState v (_balances s) (_tokenApprovals s) (_operatorApprovals s)
    (_tokenURIs s) (_owner s) (_tokenIds s) (leases s) (domainToToken s)
    (platformFee s) (treasury s).
Definition set_balances (v : gmap address uint256) (s : State) : State :=
  mkState (_owners s) v (_tokenApprovals s) (_operatorApprovals s)
    (_tokenURIs s) (_owner s) (_tokenIds s) (leases s) (domainToToken s)
    (platformFee s) (treasury s).
Definition set_tokenApprovals (v : gmap uint256 address) (s : State) : State :=
  mkState (_owners s) (_balances s) v (_operatorApprovals s)
    (_tokenURIs s) (_owner s) (_tokenIds s) (leases s) (domainToToken s)
    (platformFee s) (treasury s).
Definition set_operatorApprovals (v : gmap (address * address) bool) (s : State) : State :=
  mkState (_owners s) (_balances s) (_tokenApprovals s) v
    (_tokenURIs s) (_owner s) (_tokenIds s) (leases s) (domainToToken s)
    (platformFee s) (treasury s).
Definition set_tokenURIs (v : gmap uint256 string) (s : State) : State :=
  mkState (_owners s) (_balances s) (_tokenApprovals s) (_operatorApprovals s)
    v (_owner s) (_tokenIds s) (leases s) (domainToToken s)
    (platformFee s) (treasury s).
Definition set_owner (v : address) (s : State) : State :=
  mkState (_owners s) (_balances s) (_tokenApprovals s) (_operatorApprovals s)
    (_tokenURIs s) v (_tokenIds s) (leases s) (domainToToken s)
    (platformFee s) (treasury s).
Definition set_tokenIds (v : uint256) (s : State) : State :=
  mkState (_owners s) (_balances s) (_tokenApprovals s) (_operatorApprovals s)
    (_tokenURIs s) (_owner s) v (leases s) (domainToToken s)
    (platformFee s) (treasury s).
Definition set_leases (v : gmap uint256 LeaseInfo) (s : State) : State :=
  mkState (_owners s) (_balances s) (_tokenApprovals s) (_operatorApprovals s)
    (_tokenURIs s) (_owner s) (_tokenIds s) v (domainToToken s)
    (platformFee s) (treasury s).
Definition set_domainToToken (v : gmap string uint256) (s : State) : State :=
  mkState (_owners s) (_balances s) (_tokenApprovals s) (_operatorApprovals s)
    (_tokenURIs s) (_owner s) (_tokenIds s) (leases s) v
    (platformFee s) (treasury s).
Definition set_platformFee (v : uint256) (s : State) : State :=
  mkState (_owners s) (_balances s) (_tokenApprovals s) (_operatorApprovals s)
    (_tokenURIs s) (_owner s) (_tokenIds s) (leases s) (domainToToken s)
    v (treasury s).
Definition set_treasury (v : address) (s : State) : State :=
  mkState (_owners s) (_balances s) (_tokenApprovals s) (_operatorApprovals s)
    (_tokenURIs s) (_owner s) (_tokenIds s) (leases s) (domainToToken s)
    (platformFee s) v.

(** What a call sees of the outside world: the caller, and the answers of the
    other accounts the contract calls into.  [onERC721Received operator from
    to tokenId data] is OpenZeppelin's [_checkOnERC721Received]: [true] when
    [to] is not a contract or returns the ERC721 receiver selector.  These are
    the answers in the end; the calls an account makes back into this
    contract before it answers are written beside the transaction, see [Tx]
    below, and a transaction written without any is one whose receiver makes
    none. *)
Record Env : Type := mkEnv {
  msg_sender : address;
  onERC721Received : address -> address -> address -> uint256 -> string -> bool;
  self_balance : uint256;
  treasury_call : address -> uint256 -> bool
}.

(** *** Views *)

(* ERC721._ownerOf and ERC721._exists *)
Definition _ownerOf (s : State) (tokenId : uint256) : address :=
  mread 0 (_owners s) tokenId.
Definition _exists (s : State) (tokenId : uint256) : bool :=
  negb (_ownerOf s tokenId =? 0).

(* ERC721.ownerOf *)
Definition ownerOf (s : State) (tokenId : uint256) : result address :=
  let owner := _ownerOf s tokenId in
  require! negb (owner =? 0), "ERC721: invalid token ID";;
  Ok owner.

Definition isApprovedForAll (s : State) (owner operator : address) : bool :=
  mread false (_operatorApprovals s) (owner, operator).

(* ERC721.getApproved *)
Definition getApproved (s : State) (tokenId : uint256) : result address :=
  require! _exists s tokenId, "ERC721: invalid token ID";;
  Ok (mread 0 (_tokenApprovals s) tokenId).

(* the public getter leases(tokenId) *)
Definition lease (s : State) (tokenId : uint256) : LeaseInfo :=
  mread noLease (leases s) tokenId.

(* the public getter domainToToken(domainName) *)
Definition tokenOfDomain (s : State) (domain : string) : uint256 :=
  mread 0 (domainToToken s) domain.

Definition getLeaseInfo (s : State) (tokenId : uint256) : result LeaseInfo :=
  require! _exists s tokenId, "Token does not exist";;
  Ok (lease s tokenId).

Definition isLeaseActive (s : State) (timestamp tokenId : uint256) : result bool :=
  require! _exists s tokenId, "Token does not exist";;
  let l := lease s tokenId in
  Ok (active l && (startDate l <=? timestamp) && (timestamp <=? endDate l)).

Definition totalLeases (s : State) : uint256 := _tokenIds s.

(* Ownable.owner and the onlyOwner modifier *)
Definition owner (s : State) : address := _owner s.
Definition onlyOwner (e : Env) (s : State) : result unit :=
  require (owner s =? msg_sender e) "Ownable: caller is not the owner".

(** *** Internal functions *)

(* ERC721._isApprovedOrOwner *)
Definition _isApprovedOrOwner (s : State) (spender : address) (tokenId : uint256) : result bool :=
  owner <~ ownerOf s tokenId;;
  approved <~ getApproved s tokenId;;
  Ok ((spender =? owner) || isApprovedForAll s owner spender || (approved =? spender)).

(* ERC721._mint *)
Definition _mint (s : State) (to : address) (tokenId : uint256) : result State :=
  require! negb (to =? 0), "ERC721: mint to the zero address";;
  require! negb (_exists s tokenId), "ERC721: token already minted";;
  let s := set_balances (<[to := wrap256 (mread 0 (_balances s) to + 1)]> (_balances s)) s in
  let s := set_owners (<[tokenId := to]> (_owners s)) s in
  Ok s.

(* ERC721._safeMint(to, tokenId), with empty data, when the receiver calls
   nothing back before it answers; [mintLease_calling] below is the function
   with the calls a receiver makes back *)
Definition _safeMint (e : Env) (s : State) (to : address) (tokenId : uint256) : result State :=
  s <~ _mint s to tokenId;;
  require! onERC721Received e (msg_sender e) 0 to tokenId "",
    "ERC721: transfer to non ERC721Receiver implementer";;
  Ok s.

(* ERC721URIStorage._setTokenURI *)
Definition _setTokenURI (s : State) (tokenId : uint256) (uri : string) : result State :=
  require! _exists s tokenId, "ERC721URIStorage: URI set of nonexistent token";;
  Ok (set_tokenURIs (<[tokenId := uri]> (_tokenURIs s)) s).

(* ERC721._transfer *)
Definition ERC721_transfer (s : State) (from to : address) (tokenId : uint256) : result State :=
  owner <~ ownerOf s tokenId;;
  require! owner =? from, "ERC721: transfer from incorrect owner";;
  require! negb (to =? 0), "ERC721: transfer to the zero address";;
  let s := set_tokenApprovals (delete tokenId (_tokenApprovals s)) s in
  let s := set_balances (<[from := wrap256 (mread 0 (_balances s) from - 1)]> (_balances s)) s in
  let s := set_balances (<[to := wrap256 (mread 0 (_balances s) to + 1)]> (_balances s)) s in
  let s := set_owners (<[tokenId := to]> (_owners s)) s in
  Ok s.

(* DomainLeaseNFT._transfer: the override every transfer goes through *)
Definition _transfer (s : State) (from to : address) (tokenId : uint256) : result State :=
  s <~ ERC721_transfer s from to tokenId;;
  (* leases[tokenId].lessee = to *)
  Ok (set_leases (<[tokenId := set_lessee to (lease s tokenId)]> (leases s)) s).

(* ERC721._burn *)
Definition ERC721_burn (s : State) (tokenId : uint256) : result State :=
  owner <~ ownerOf s tokenId;;
  let s := set_tokenApprovals (delete tokenId (_tokenApprovals s)) s in
  let s := set_balances (<[owner := wrap256 (mread 0 (_balances s) owner - 1)]> (_balances s)) s in
  let s := set_owners (delete tokenId (_owners s)) s in
  Ok s.

(* ERC721URIStorage._burn *)
Definition ERC721URIStorage_burn (s : State) (tokenId : uint256) : result State :=
  s <~ ERC721_burn s tokenId;;
  if (0 <? Z.of_nat (String.length (mread "" (_tokenURIs s) tokenId)))
  then Ok (set_tokenURIs (delete tokenId (_tokenURIs s)) s)
  else Ok s.

(* DomainLeaseNFT._burn.  It is internal and no function of the contract
   calls it. *)
Definition _burn (s : State) (tokenId : uint256) : result State :=
  s <~ ERC721URIStorage_burn s tokenId;;
  let domain := domainName (lease s tokenId) in
  let s := set_domainToToken (delete domain (domainToToken s)) s in
  let s := set_leases (delete tokenId (leases s)) s in
  Ok s.

(** *** Public functions *)

Definition constructor (deployer _treasury : address) : State :=
  mkState ∅ ∅ ∅ ∅ ∅ deployer 0 ∅ ∅ 500 _treasury.

Definition mintLease (e : Env) (s : State)
    (lessor lessee : address) (domainName : string)
    (startDate endDate priceAmount : uint256)
    (restrictions agreementIpfsHash tokenURI : string) : result (State * uint256) :=
  _ <~ onlyOwner e s;;
  require! 0 <? Z.of_nat (String.length domainName), "Domain name required";;
  require! negb (lessee =? 0), "Invalid lessee address";;
  require! startDate <? endDate, "End date must be after start date";;
  require! tokenOfDomain s domainName =? 0, "Lease already exists for this domain";;
  (* Counters.increment: unchecked addition *)
  let s := set_tokenIds (wrap256 (_tokenIds s + 1)) s in
  let newTokenId := _tokenIds s in
  let s := set_leases (<[newTokenId :=
             mkLeaseInfo domainName lessor lessee startDate endDate priceAmount
               restrictions agreementIpfsHash true]> (leases s)) s in
  let s := set_domainToToken (<[domainName := newTokenId]> (domainToToken s)) s in
  s <~ _safeMint e s lessee newTokenId;;
  s <~ _setTokenURI s newTokenId tokenURI;;
  Ok (s, newTokenId).

Definition terminateLease (e : Env) (s : State) (tokenId : uint256) : result State :=
  require! _exists s tokenId, "Token does not exist";;
  let l := lease s tokenId in
  require! (msg_sender e =? lessor l) || (msg_sender e =? owner s),
    "Only lessor or owner can terminate";;
  require! active l, "Lease already inactive";;
  (* lease.active = false, through the storage pointer *)
  Ok (set_leases (<[tokenId := set_active false l]> (leases s)) s).

Definition setPlatformFee (e : Env) (s : State) (_fee : uint256) : result State :=
  _ <~ onlyOwner e s;;
  require! _fee <=? 1000, "Fee cannot exceed 10%";;
  Ok (set_platformFee _fee s).

Definition setTreasury (e : Env) (s : State) (_treasury : address) : result State :=
  _ <~ onlyOwner e s;;
  require! negb (_treasury =? 0), "Invalid treasury address";;
  Ok (set_treasury _treasury s).

Definition withdrawFees (e : Env) (s : State) : result State :=
  _ <~ onlyOwner e s;;
  let balance := self_balance e in
  require! 0 <? balance, "No balance to withdraw";;
  require! treasury_call e (treasury s) balance, "Withdrawal failed";;
  Ok s.

(* ERC721.approve *)
Definition approve (e : Env) (s : State) (to : address) (tokenId : uint256) : result State :=
  owner <~ ownerOf s tokenId;;
  require! negb (to =? owner), "ERC721: approval to current owner";;
  require! (msg_sender e =? owner) || isApprovedForAll s owner (msg_sender e),
    "ERC721: approve caller is not token owner or approved for all";;
  Ok (set_tokenApprovals (<[tokenId := to]> (_tokenApprovals s)) s).

(* ERC721.setApprovalForAll *)
Definition setApprovalForAll (e : Env) (s : State) (operator : address) (approved : bool) : result State :=
  require! negb (msg_sender e =? operator), "ERC721: approve to caller";;
  Ok (set_operatorApprovals
        (<[(msg_sender e, operator) := approved]> (_operatorApprovals s)) s).

(* ERC721.transferFrom *)
Definition transferFrom (e : Env) (s : State) (from to : address) (tokenId : uint256) : result State :=
  ok <~ _isApprovedOrOwner s (msg_sender e) tokenId;;
  require! ok, "ERC721: caller is not token owner or approved";;
  _transfer s from to tokenId.

(* ERC721.safeTransferFrom, both overloads (the short one passes empty data),
   when the receiver calls nothing back before it answers;
   [safeTransferFrom_calling] below is the function with the calls a receiver
   makes back *)
Definition safeTransferFrom (e : Env) (s : State) (from to : address) (tokenId : uint256)
    (data : string) : result State :=
  ok <~ _isApprovedOrOwner s (msg_sender e) tokenId;;
  require! ok, "ERC721: caller is not token owner or approved";;
  s <~ _transfer s from to tokenId;;
  require! onERC721Received e (msg_sender e) from to tokenId data,
    "ERC721: transfer to non ERC721Receiver implementer";;
  Ok s.

(* Ownable.transferOwnership and Ownable.renounceOwnership *)
Definition transferOwnership (e : Env) (s : State) (newOwner : address) : result State :=
  _ <~ onlyOwner e s;;
  require! negb (newOwner =? 0), "Ownable: new owner is the zero address";;
  Ok (set_owner newOwner s).

Definition renounceOwnership (e : Env) (s : State) : result State :=
  _ <~ onlyOwner e s;;
  Ok (set_owner 0 s).

(** *** The contract as a transition system *)

(** A transaction sent to the contract: one of its state-changing public
    functions with its arguments. *)
Inductive Msg : Type :=
| MintLease (lessor lessee : address) (domainName : string)
    (startDate endDate priceAmount : uint256)
    (restrictions agreementIpfsHash tokenURI : string)
| TerminateLease (tokenId : uint256)
| SetPlatformFee (_fee : uint256)
| SetTreasury (_treasury : address)
| WithdrawFees
| Approve (to : address) (tokenId : uint256)
| SetApprovalForAll (operator : address) (approved : bool)
| TransferFrom (from to : address) (tokenId : uint256)
| SafeTransferFrom (from to : address) (tokenId : uint256) (data : string)
| TransferOwnership (newOwner : address)
| RenounceOwnership.

Definition receive (e : Env) (s : State) (m : Msg) : result State :=
  match m with
  | MintLease lr le d sd ed p r h u =>
      minted <~ mintLease e s lr le d sd ed p r h u;; Ok (fst minted)
  | TerminateLease t => terminateLease e s t
  | SetPlatformFee f => setPlatformFee e s f
  | SetTreasury t => setTreasury e s t
  | WithdrawFees => withdrawFees e s
  | Approve to t => approve e s to t
  | SetApprovalForAll o a => setApprovalForAll e s o a
  | TransferFrom f to t => transferFrom e s f to t
  | SafeTransferFrom f to t d => safeTransferFrom e s f to t d
  | TransferOwnership o => transferOwnership e s o
  | RenounceOwnership => renounceOwnership e s
  end.

(** *** Calls made back into the contract

    [_safeMint] and [safeTransferFrom] call [onERC721Received] on a receiver
    that is a contract, and [withdrawFees] calls the treasury.  While it
    runs, the account called can call this contract, directly or through
    others.  [Nest e m back] is the transaction [m] together with the calls
    made back into the contract during its external call, in order, each
    with its own.  A call made back that reverts is discarded alone (the
    account called may catch it); when the account called lets a revert
    through, or answers no, the whole transaction reverts. *)
Inductive Tx : Type :=
| Nest (e : Env) (m : Msg) (back : list Tx).

Definition settle (s : State) (r : result State) : State :=
  match r with
  | Ok s' => s'
  | Revert _ => s
  end.

(* mintLease up to [_safeMint]'s call of the lessee: the checks, the writes
   of the lease and of the binding, and ERC721._mint *)
Definition mintLease_head (e : Env) (s : State)
    (lessor lessee : address) (domainName : string)
    (startDate endDate priceAmount : uint256)
    (restrictions agreementIpfsHash : string) : result (State * uint256) :=
  _ <~ onlyOwner e s;;
  require! 0 <? Z.of_nat (String.length domainName), "Domain name required";;
  require! negb (lessee =? 0), "Invalid lessee address";;
  require! startDate <? endDate, "End date must be after start date";;
  require! tokenOfDomain s domainName =? 0, "Lease already exists for this domain";;
  let s := set_tokenIds (wrap256 (_tokenIds s + 1)) s in
  let newTokenId := _tokenIds s in
  let s := set_leases (<[newTokenId :=
             mkLeaseInfo domainName lessor lessee startDate endDate priceAmount
               restrictions agreementIpfsHash true]> (leases s)) s in
  let s := set_domainToToken (<[domainName := newTokenId]> (domainToToken s)) s in
  s <~ _mint s lessee newTokenId;;
  Ok (s, newTokenId).

(* mintLease, the lessee making the calls of [during] when it is called:
   what follows the call is the check of its answer and [_setTokenURI] *)
Definition mintLease_calling (during : State -> State) (e : Env) (s : State)
    (lessor lessee : address) (domainName : string)
    (startDate endDate priceAmount : uint256)
    (restrictions agreementIpfsHash tokenURI : string) : result (State * uint256) :=
  head <~ mintLease_head e s lessor lessee domainName startDate endDate priceAmount
            restrictions agreementIpfsHash;;
  let newTokenId := snd head in
  let s := during (fst head) in
  require! onERC721Received e (msg_sender e) 0 lessee newTokenId "",
    "ERC721: transfer to non ERC721Receiver implementer";;
  s <~ _setTokenURI s newTokenId tokenURI;;
  Ok (s, newTokenId).

(* safeTransferFrom, the receiver making the calls of [during]: the
   transfer is done when it is called *)
Definition safeTransferFrom_calling (during : State -> State) (e : Env) (s : State)
    (from to : address) (tokenId : uint256) (data : string) : result State :=
  ok <~ _isApprovedOrOwner s (msg_sender e) tokenId;;
  require! ok, "ERC721: caller is not token owner or approved";;
  s <~ _transfer s from to tokenId;;
  let s := during s in
  require! onERC721Received e (msg_sender e) from to tokenId data,
    "ERC721: transfer to non ERC721Receiver implementer";;
  Ok s.

(* withdrawFees, the treasury making the calls of [during] *)
Definition withdrawFees_calling (during : State -> State) (e : Env) (s : State)
    : result State :=
  _ <~ onlyOwner e s;;
  let balance := self_balance e in
  require! 0 <? balance, "No balance to withdraw";;
  let s' := during s in
  require! treasury_call e (treasury s) balance, "Withdrawal failed";;
  Ok s'.

Fixpoint exec (s : State) (t : Tx) : result State :=
  match t with
  | Nest e m back =>
      let during := fun s0 => fold_left (fun s1 t' => settle s1 (exec s1 t')) back s0 in
      match m with
      | MintLease lr le d sd ed p r h u =>
          minted <~ mintLease_calling during e s lr le d sd ed p r h u;; Ok (fst minted)
      | SafeTransferFrom f to t d => safeTransferFrom_calling during e s f to t d
      | WithdrawFees => withdrawFees_calling during e s
      | _ => receive e s m
      end
  end.

(** The calls made back, run in order. *)
Definition during (back : list Tx) (s : State) : State :=
  fold_left (fun s1 t => settle s1 (exec s1 t)) back s.

(** What can happen to the storage: a transaction, or a burn of a token.
    The contract as written exposes no burn; [Burn] stands for [_burn] run by
    an extension of the contract, so that what is proved about all actions
    holds with or without one. *)
Inductive Action : Type :=
| Call (e : Env) (m : Msg)
| Burn (tokenId : uint256).

Definition step (s : State) (a : Action) : result State :=
  match a with
  | Call e m => receive e s m
  | Burn t => _burn s t
  end.

(** A reverted action leaves the storage as it was. *)
Definition apply (s : State) (a : Action) : State :=
  match step s a with
  | Ok s' => s'
  | Revert _ => s
  end.

Definition run (s : State) (tr : list Action) : State :=
  fold_left apply tr s.

(** *** Vocabulary of the statements *)

(** What a successful transaction does to the storage the lease records live
    in: nothing, or one of three writes. *)
Inductive call_effect (s s' : State) : Prop :=
| eff_none :
    _owners s' = _owners s -> leases s' = leases s ->
    domainToToken s' = domainToToken s -> _tokenIds s' = _tokenIds s ->
    call_effect s s'
| eff_mint (l : LeaseInfo) :
    let newTokenId := wrap256 (_tokenIds s + 1) in
    lessee l <> 0 -> startDate l < endDate l -> active l = true ->
    tokenOfDomain s (domainName l) = 0 -> _exists s newTokenId = false ->
    _owners s' = <[newTokenId := lessee l]> (_owners s) ->
    leases s' = <[newTokenId := l]> (leases s) ->
    domainToToken s' = <[domainName l := newTokenId]> (domainToToken s) ->
    _tokenIds s' = newTokenId ->
    call_effect s s'
| eff_terminate (t : uint256) :
    _exists s t = true -> active (lease s t) = true ->
    _owners s' = _owners s ->
    leases s' = <[t := set_active false (lease s t)]> (leases s) ->
    domainToToken s' = domainToToken s -> _tokenIds s' = _tokenIds s ->
    call_effect s s'
| eff_transfer (t : uint256) (to : address) :
    _exists s t = true -> to <> 0 ->
    _owners s' = <[t := to]> (_owners s) ->
    leases s' = <[t := set_lessee to (lease s t)]> (leases s) ->
    domainToToken s' = domainToToken s -> _tokenIds s' = _tokenIds s ->
    call_effect s s'.

(** What a burn of [t] does to it. *)
Record burn_effect (s s' : State) (t : uint256) : Prop := mkBurnEffect {
  burn_exists : _exists s t = true;
  burn_owners : _owners s' = delete t (_owners s);
  burn_leases : leases s' = delete t (leases s);
  burn_binding : domainToToken s' = delete (domainName (lease s t)) (domainToToken s);
  burn_counter : _tokenIds s' = _tokenIds s
}.

Inductive effect (s s' : State) : Prop :=
| by_call : call_effect s s' -> effect s s'
| by_burn (t : uint256) : burn_effect s s' t -> effect s s'.

(** The invariant behind the binding of domains to tokens.  [n] bounds the
    number of tokens minted so far. *)
Record Inv (n : Z) (s : State) : Prop := mkInv {
  inv_count : 0 <= _tokenIds s <= n;
  inv_minted : forall t, _exists s t = true -> 1 <= t <= _tokenIds s;
  inv_bound : forall t, _exists s t = true ->
    tokenOfDomain s (domainName (lease s t)) = t;
  inv_token : forall d, tokenOfDomain s d <> 0 ->
    _exists s (tokenOfDomain s d) = true /\
    domainName (lease s (tokenOfDomain s d)) = d
}.

Definition dated (s : State) : Prop :=
  forall t, _exists s t = true -> startDate (lease s t) < endDate (lease s t).

Definition held_by_lessee (s : State) : Prop :=
  forall t, _exists s t = true -> lessee (lease s t) = _ownerOf s t.

(** A lease that was minted and is not active: terminated, or burned. *)
Definition ended (s : State) (t : uint256) : Prop :=
  t <= _tokenIds s /\ active (lease s t) = false.

(** An externally owned account calling, every receiver hook answering yes
    and the contract holding no ether. *)
Definition caller (a : address) : Env :=
  mkEnv a (fun _ _ _ _ _ => true) 0 (fun _ _ => true).

(** One lease minted by the deployer [1] to the lessee [3] for "a.com". *)
Definition one_lease : list Action :=
  [Call (caller 1) (MintLease 2 3 "a.com" 10 20 5 "" "" "ipfs://a")].

(** The deployer mints a lease and terminates it. *)
Definition terminated_once : list Action :=
  one_lease ++ [Call (caller 1) (TerminateLease 1)].

End Lease.

(** ** JavaScript values *)

(** A call into a library or the persistence layer either returns or
    throws. *)
Inductive outcome (A : Type) : Type :=
| Done (a : A)
| Throws.
Arguments Done {A} a.
Arguments Throws {A}.

Module Js.

(** The numbers of the model are the integers, which JavaScript represents
    exactly up to 2^53, and [NaN].  [Other] stands for any other number: a
    fraction, an infinity, or an integer beyond 2^53 that JavaScript has
    rounded; the model keeps none of its digits. *)
Inductive number : Type :=
| Num (z : Z)
| NaN
| Other.

(** A JSON request body holds values of these shapes; [Undefined] is a
    property that is absent. *)
Inductive value : Type :=
| Undefined
| Null
| Bool (b : bool)
| Number (n : number)
| Str (s : string)
| Arr (items : list value)
| Obj (props : list (string * value)).

(** The SQL types of the columns that are given values off a request. *)
Inductive column : Type :=
| DECIMAL_10_2
| TEXT
| STRING (n : nat)
| ARRAY_STRING.

(** What the model does not compute it leaves to the platform underneath,
    the JavaScript engine and PostgreSQL behind Sequelize, and what is proved
    holds whatever the platform answers there:
    - [ToNumber v] is the number JavaScript reads [v] as, asked for the
      strings that spell no integer and for the arrays that are not empty;
    - [multiply a b] is [a * b], asked when an operand is no integer;
    - [stores c v] is whether a column of type [c] takes [v], asked for the
      values the model neither takes nor refuses by itself;
    - [uuid_in s] is PostgreSQL's reading of [s] as a UUID: the text it
      prints for it, or nothing when [s] spells none (the query throws). *)
Class Platform : Type := {
  ToNumber : value -> number;
  multiply : value -> value -> number;
  stores : column -> value -> bool;
  uuid_in : string -> option string
}.

(** ToBoolean: the falsy values are [undefined], [null], [false], [0], [NaN]
    and the empty string.  Every array and every object is truthy, the empty
    ones too. *)
Definition truthy (v : value) : bool :=
  match v with
  | Undefined | Null => false
  | Bool b => b
  | Number (Num z) => negb (z =? 0)
  | Number NaN => false
  | Number Other => true
  | Str s => negb (s =? "")%string
  | Arr _ | Obj _ => true
  end.

(** [a || b] *)
Definition or (a b : value) : value := if truthy a then a else b.

(** [v === s] for a string literal [s] *)
Definition is_string (v : value) (s : string) : bool :=
  match v with
  | Str s' => (s' =? s)%string
  | _ => false
  end.

(** Membership in the ENUM of a column: the engine rejects any other value. *)
Definition in_enum (allowed : list string) (v : value) : bool :=
  existsb (is_string v) allowed.

Definition nullish (v : value) : bool :=
  match v with
  | Undefined | Null => true
  | _ => false
  end.

Definition is_NaN (v : value) : bool :=
  match v with
  | Number NaN => true
  | _ => false
  end.

Definition digit_of (c : Ascii.ascii) : option Z :=
  let n := Z.of_nat (Ascii.nat_of_ascii c) in
  if (48 <=? n) && (n <=? 57) then Some (n - 48) else None.

Fixpoint digits (s : string) (acc : Z) : option Z :=
  match s with
  | EmptyString => Some acc
  | String c rest =>
      match digit_of c with
      | Some d => digits rest (10 * acc + d)
      | None => None
      end
  end.

(** The integer a text spells: decimal digits, at least one, after an
    optional sign. *)
Definition integer_spelling (s : string) : option Z :=
  match s with
  | EmptyString => None
  | String "-"%char (String c r) => Z.opp <$> digits (String c r) 0
  | String "+"%char (String c r) => digits (String c r) 0
  | _ => digits s 0
  end.

(** The white space of ASCII: tab, line feed, vertical tab, form feed,
    carriage return and space. *)
Definition blank (c : Ascii.ascii) : bool :=
  let n := Ascii.nat_of_ascii c in
  ((9 <=? n)%nat && (n <=? 13)%nat) || (n =? 32)%nat.

Fixpoint trim_left (s : string) : string :=
  match s with
  | String c rest => if blank c then trim_left rest else s
  | EmptyString => EmptyString
  end.

Fixpoint trim_right (s : string) : string :=
  match s with
  | EmptyString => EmptyString
  | String c rest =>
      match trim_right rest with
      | EmptyString => if blank c then EmptyString else String c EmptyString
      | kept => String c kept
      end
  end.

Definition trim (s : string) : string := trim_right (trim_left s).

(** StringToNumber: white space around the text is dropped; nothing is 0,
    and the spelling of an integer is that integer, rounded beyond 2^53.
    The other texts (fractions, exponents, hex, [Infinity], and what spells
    no number) are left to the platform. *)
Definition string_to_number `{Platform} (s : string) : number :=
  let t := trim s in
  if (t =? "")%string then Num 0
  else match integer_spelling t with
       | Some z => if Z.abs z <=? 2 ^ 53 then Num z else Other
       | None => ToNumber (Str s)
       end.

(** ToNumber.  An array is coerced through its string form, which is empty
    for the empty array; an object through ["[object Object]"], which spells
    no number (an object whose own [toString] and [valueOf] are no functions
    makes the coercion throw instead, which every handler here answers as it
    answers the [NaN]). *)
Definition to_number `{Platform} (v : value) : number :=
  match v with
  | Undefined => NaN
  | Null => Num 0
  | Bool b => Num (if b then 1 else 0)
  | Number n => n
  | Str s => string_to_number s
  | Arr [] => Num 0
  | Arr _ => ToNumber v
  | Obj _ => NaN
  end.

(** [a * b]: the product of two integers is exact up to 2^53 and rounded
    beyond. *)
Definition times `{Platform} (a b : value) : number :=
  match to_number a, to_number b with
  | NaN, _ | _, NaN => NaN
  | Num x, Num y => if Z.abs (x * y) <=? 2 ^ 53 then Num (x * y) else Other
  | _, _ => multiply a b
  end.

(** Whether a character occurs in a text. *)
Fixpoint occurs (c : Ascii.ascii) (s : string) : bool :=
  match s with
  | EmptyString => false
  | String c' rest => (Ascii.eqb c' c) || occurs c rest
  end.

(** The character PostgreSQL takes in no text. *)
Definition NUL : Ascii.ascii := Ascii.ascii_of_nat 0.

Fixpoint has_digit (s : string) : bool :=
  match s with
  | EmptyString => false
  | String c rest =>
      match digit_of c with
      | Some _ => true
      | None => has_digit rest
      end
  end.

(** *** Sample data *)

(** A platform that refuses whatever it is asked about, and reads no number
    and no UUID in what it is asked to read. *)
Definition strict : Platform :=
  Build_Platform (fun _ => NaN) (fun _ _ => NaN) (fun _ _ => false) (fun _ => None).

End Js.

(** ** Sequelize *)

(** [Model.findByPk(id)] on a table whose primary key is a UUID: the row
    whose key the engine reads [pk] as.  A table is keyed by the texts the
    engine prints for its keys, so a text that is a key as it stands is read
    as itself; any other text is read by [uuid_in], and the query throws when
    it spells no UUID.  (In the sample tables short names stand for the
    keys.) *)
Definition findByPk `{Js.Platform} {Row : Type} (table : gmap string Row) (pk : string)
    : outcome (option Row) :=
  match table !! pk with
  | Some row => Done (Some row)
  | None =>
      match Js.uuid_in pk with
      | Some key => Done (table !! key)
      | None => Throws
      end
  end.

(** ** The listing routes (routes/domains.js) *)

Module Domains.
Import Js.

(** Rows of the [Domains] and [Listings] tables (models/index.js).  An
    attribute holds the JavaScript value the handler assigned to it; the
    timestamps Sequelize maintains by itself are left out. *)
Record Domain : Type := mkDomain {
  Domain_id : string;
  domainName : string;
  tld : string;
  domainType : value;
  ownerId : string;
  verificationStatus : value;
  existingSiteUrl : value
}.

Record Listing : Type := mkListing {
  id : string;
  domainId : string;
  lessorId : string;
  leaseType : value;
  priceAmount : value;
  priceCurrency : value;
  durationDays : value;
  restrictions : value;
  description : value;
  tags : value;
  status : value;
  nftContractAddress : value;
  nftTokenId : value;
  qrCodeUrl : value;
  viewsCount : value;
  featured : value
}.

(** Both tables are keyed by their primary key, in the text PostgreSQL prints
    for a UUID. *)
Record DB : Type := mkDB {
  Domains : gmap string Domain;
  Listings : gmap string Listing
}.

Definition Listing_status_enum : list string :=
  ["active"; "leased"; "expired"; "cancelled"].
Definition Domain_type_enum : list string := ["web2"; "web3"].

(** [Domain.findOne({ where: { domainName } })] *)
Definition Domain_findOne (db : DB) (name : string) : option Domain :=
  snd <$> List.find (fun kv => (domainName (snd kv) =? name)%string)
            (map_to_list (Domains db)).

(** [Listing.findByPk(id)] *)
Definition Listing_findByPk `{Platform} (db : DB) (pk : string) : outcome (option Listing) :=
  findByPk (Listings db) pk.

(** [Domain.findByPk(id)] *)
Definition Domain_findByPk `{Platform} (db : DB) (pk : string) : outcome (option Domain) :=
  findByPk (Domains db) pk.

(** [domainName.split('.').pop()]: what follows the last dot, or the whole
    name when it has none. *)
Fixpoint last_label (s acc : string) : string :=
  match s with
  | EmptyString => acc
  | String "."%char rest => last_label rest EmptyString
  | String c rest => last_label rest (acc ++ String c EmptyString)
  end.

(** *** What the columns take

    Sequelize refuses a null for a column declared [allowNull: false], and
    an array or an object for a STRING or TEXT column, before it builds the
    query; the value that reaches PostgreSQL is read by the input function
    of the column's type.  A text of the model is a sequence of characters,
    so its length is what a length limit counts. *)

(** STRING(n) *)
Definition STRING_takes `{Platform} (n : nat) (v : value) : bool :=
  match v with
  | Undefined | Null => true
  | Str s => negb (occurs NUL s) && (String.length s <=? n)%nat
  | Arr _ | Obj _ => false
  | _ => stores (STRING n) v
  end.

(** TEXT *)
Definition TEXT_takes `{Platform} (v : value) : bool :=
  match v with
  | Undefined | Null => true
  | Str s => negb (occurs NUL s)
  | Arr _ | Obj _ => false
  | _ => stores TEXT v
  end.

(** [priceAmount], DECIMAL(10, 2) with [allowNull: false]: numeric(10,2)
    holds up to 99999999.99 in absolute value, so of the integers those of at
    most eight digits, as numbers or spelled out; the input function reads no
    text without a digit, [NaN] and the infinities apart. *)
Definition priceAmount_takes `{Platform} (v : value) : bool :=
  match v with
  | Undefined | Null => false
  | Number (Num z) => Z.abs z <=? 99999999
  | Str s =>
      match integer_spelling s with
      | Some z => Z.abs z <=? 99999999
      | None =>
          if has_digit s || occurs "n" s || occurs "N" s
          then stores DECIMAL_10_2 v
          else false
      end
  | _ => stores DECIMAL_10_2 v
  end.

(** The range of INTEGER *)
Definition int4 (z : Z) : bool := (-2147483648 <=? z) && (z <=? 2147483647).

(** [durationDays], INTEGER with [allowNull: false].  The handler gives it
    the number [durationMonths * 30]; the input function reads neither [NaN]
    nor a fraction nor an infinity, and an integer beyond 2^53 is out of
    range. *)
Definition durationDays_takes (v : value) : bool :=
  match v with
  | Number (Num z) => int4 z
  | _ => false
  end.

(** [viewsCount], INTEGER: a row holds an integer or null. *)
Definition viewsCount_takes (v : value) : bool :=
  match v with
  | Null => true
  | Number (Num z) => int4 z
  | _ => false
  end.

(** An element of [tags] that is a text of at most 255 characters. *)
Definition plain_tag (v : value) : bool :=
  match v with
  | Str s => negb (occurs NUL s) && (String.length s <=? 255)%nat
  | _ => false
  end.

(** [tags], ARRAY(STRING): the query is built by mapping over the value, so
    whatever is neither null nor an array makes it throw. *)
Definition tags_takes `{Platform} (v : value) : bool :=
  match v with
  | Undefined | Null => true
  | Arr items => if forallb plain_tag items then true else stores ARRAY_STRING v
  | _ => false
  end.

(** What the columns of a Domain take: a [domainName] of at most 255
    characters, a [tld] of at most 50, a [domainType] (allowNull: false) of
    its ENUM, an [existingSiteUrl] that fits STRING(500). *)
Definition Domain_valid `{Platform} (d : Domain) : bool :=
  negb (occurs NUL (domainName d))
  && (String.length (domainName d) <=? 255)%nat
  && (String.length (tld d) <=? 50)%nat
  && in_enum Domain_type_enum (domainType d)
  && STRING_takes 500 (existingSiteUrl d).

(** [Domain.create]: the primary key must be new, the unique [domainName]
    too, and the row one its columns take. *)
Definition Domain_create `{Platform} (db : DB) (d : Domain) : outcome DB :=
  match Domains db !! Domain_id d, Domain_findOne db (domainName d) with
  | None, None =>
      if Domain_valid d
      then Done (mkDB (<[Domain_id d := d]> (Domains db)) (Listings db))
      else Throws
  | _, _ => Throws
  end.

(** What the columns of a Listing take; the ENUM columns only their members
    or null.  The columns no handler writes after the creation
    ([priceCurrency], the NFT fields, [qrCodeUrl], [featured]) are left
    out. *)
Definition Listing_valid `{Platform} (l : Listing) : bool :=
  priceAmount_takes (priceAmount l)
  && durationDays_takes (durationDays l)
  && TEXT_takes (restrictions l)
  && TEXT_takes (description l)
  && tags_takes (tags l)
  && (nullish (status l) || in_enum Listing_status_enum (status l))
  && (nullish (leaseType l) || in_enum ["fixed"; "auction"; "rent_to_own"] (leaseType l))
  && viewsCount_takes (viewsCount l).

(** [Listing.create]: a new primary key and a valid row. *)
Definition Listing_create `{Platform} (db : DB) (l : Listing) : outcome DB :=
  match Listings db !! id l with
  | None =>
      if Listing_valid l
      then Done (mkDB (Domains db) (<[id l := l]> (Listings db)))
      else Throws
  | Some _ => Throws
  end.

(** [listing.update({...})]: the row is written back under its key. *)
Definition Listing_save `{Platform} (db : DB) (l : Listing) : outcome DB :=
  if Listing_valid l
  then Done (mkDB (Domains db) (<[id l := l]> (Listings db)))
  else Throws.

Definition set_status (v : value) (l : Listing) : Listing :=
  mkListing (id l) (domainId l) (lessorId l) (leaseType l) (priceAmount l)
    (priceCurrency l) (durationDays l) (restrictions l) (description l)
    (tags l) v (nftContractAddress l) (nftTokenId l) (qrCodeUrl l)
    (viewsCount l) (featured l).

Definition set_viewsCount (v : value) (l : Listing) : Listing :=
  mkListing (id l) (domainId l) (lessorId l) (leaseType l) (priceAmount l)
    (priceCurrency l) (durationDays l) (restrictions l) (description l)
    (tags l) (status l) (nftContractAddress l) (nftTokenId l) (qrCodeUrl l)
    v (featured l).

(** [listing.increment('viewsCount')]: the engine adds 1 in place, and
    throws when the sum is out of the range of INTEGER; null stays null. *)
Definition increment_viewsCount (l : Listing) : outcome Listing :=
  match viewsCount l with
  | Number (Num n) =>
      if n <? 2147483647 then Done (set_viewsCount (Number (Num (n + 1))) l)
      else Throws
  | Null => Done l
  | _ => Throws
  end.

(** *** Requests and responses *)

(** The fields the handlers read off [req.body].  [domainName] is taken to
    be a string; the other fields are any JSON value, [Undefined] when the
    request does not mention them. *)
Record PostBody : Type := mkPostBody {
  post_domainName : string;
  post_domainType : value;
  post_price : value;
  post_durationMonths : value;
  post_description : value;
  post_restrictions : value;
  post_tags : value;
  post_existingSiteUrl : value;
  post_enableNft : value
}.

Record PatchBody : Type := mkPatchBody {
  patch_price : value;
  patch_description : value;
  patch_restrictions : value;
  patch_tags : value;
  patch_status : value
}.

(** Of a response: the HTTP status, the [error] field of the body when it
    has one, and the listing instance a success body is read from. *)
Record Response : Type := mkResponse {
  code : Z;
  error : option string;
  shown : option Listing
}.

Definition failure (c : Z) (e : string) : Response := mkResponse c (Some e) None.
Definition success (c : Z) (l : Listing) : Response := mkResponse c None (Some l).

(** The object the PATCH handler passes to [listing.update]:
    [{ priceAmount: price || listing.priceAmount, description: description ||
    listing.description, restrictions: ..., tags: ..., status: ... }], laid
    over the row. *)
Definition apply_patch (b : PatchBody) (listing : Listing) : Listing :=
  mkListing (id listing) (domainId listing) (lessorId listing)
    (leaseType listing)
    (or (patch_price b) (priceAmount listing))
    (priceCurrency listing) (durationDays listing)
    (or (patch_restrictions b) (restrictions listing))
    (or (patch_description b) (description listing))
    (or (patch_tags b) (tags listing))
    (or (patch_status b) (status listing))
    (nftContractAddress listing) (nftTokenId listing)
    (qrCodeUrl listing) (viewsCount listing) (featured listing).

(** *** Handlers

    [userId] is [req.userId], set by the [authenticate] middleware to the id
    of an existing user; the two new keys of [post_listings] are the UUIDs
    the models generate for the rows it creates. *)

(** The row [Listing.create] is given by the POST handler. *)
Definition new_listing `{Platform} (userId newListingId : string) (b : PostBody) (domain : Domain)
    : Listing :=
  mkListing newListingId (Domain_id domain) userId (Str "fixed")
    (post_price b) (Str "USD")
    (Number (times (post_durationMonths b) (Number (Num 30))))
    (post_restrictions b) (post_description b)
    (or (post_tags b) (Arr []))
    (Str "active")
    Null Null Null (Number (Num 0)) (Bool false).

(** The row [Domain.create] is given by the POST handler. *)
Definition new_domain (userId newDomainId : string) (b : PostBody) : Domain :=
  mkDomain newDomainId (post_domainName b)
    (last_label (post_domainName b) EmptyString)
    (post_domainType b) userId (Str "pending") (post_existingSiteUrl b).

(** The second half of the POST handler, once [domain] is at hand. *)
Definition create_listing `{Platform} (db : DB) (userId newListingId : string) (b : PostBody)
    (domain : Domain) : DB * Response :=
  let listing := new_listing userId newListingId b domain in
  match Listing_create db listing with
  | Done db' => (db', success 201 listing)
  | Throws => (db, failure 500 "Failed to create listing")
  end.

(* router.post('/listings') *)
Definition post_listings `{Platform} (db : DB) (userId newDomainId newListingId : string)
    (b : PostBody) : DB * Response :=
  match Domain_findOne db (post_domainName b) with
  | Some domain =>
      if negb (ownerId domain =? userId)%string
      then (db, failure 403 "Domain not owned")
      else create_listing db userId newListingId b domain
  | None =>
      let domain := new_domain userId newDomainId b in
      match Domain_create db domain with
      | Done db' => create_listing db' userId newListingId b domain
      | Throws => (db, failure 500 "Failed to create listing")
      end
  end.

(* router.patch('/listings/:id') *)
Definition patch_listings_id `{Platform} (db : DB) (userId pk : string) (b : PatchBody)
    : DB * Response :=
  match Listing_findByPk db pk with
  | Throws => (db, failure 500 "Failed to update listing")
  | Done None => (db, failure 404 "Listing not found")
  | Done (Some listing) =>
      if negb (lessorId listing =? userId)%string
      then (db, failure 403 "Unauthorized")
      else
        let listing' := apply_patch b listing in
        match Listing_save db listing' with
        | Done db' => (db', success 200 listing')
        | Throws => (db, failure 500 "Failed to update listing")
        end
  end.

(* router.delete('/listings/:id') *)
Definition delete_listings_id `{Platform} (db : DB) (userId pk : string) : DB * Response :=
  match Listing_findByPk db pk with
  | Throws => (db, failure 500 "Failed to delete listing")
  | Done None => (db, failure 404 "Listing not found")
  | Done (Some listing) =>
      if negb (lessorId listing =? userId)%string
      then (db, failure 403 "Unauthorized")
      else if is_string (status listing) "leased"
      then (db, failure 400 "Cannot delete active lease")
      else
        let listing' := set_status (Str "cancelled") listing in
        match Listing_save db listing' with
        | Done db' => (db', success 200 listing')
        | Throws => (db, failure 500 "Failed to delete listing")
        end
  end.

(* router.get('/listings/:id'), as far as it writes to the Listings table:
   the view is counted before the response is put together *)
Definition get_listings_id `{Platform} (db : DB) (pk : string) : DB * Response :=
  match Listing_findByPk db pk with
  | Throws => (db, failure 500 "Failed to fetch listing")
  | Done None => (db, failure 404 "Listing not found")
  | Done (Some listing) =>
      match increment_viewsCount listing with
      | Done listing' =>
          (mkDB (Domains db) (<[id listing := listing']> (Listings db)),
           success 200 listing')
      | Throws => (db, failure 500 "Failed to fetch listing")
      end
  end.

(** The requests that write to the two tables. *)
Inductive Request : Type :=
| POST_listings (userId newDomainId newListingId : string) (b : PostBody)
| PATCH_listings_id (userId pk : string) (b : PatchBody)
| DELETE_listings_id (userId pk : string)
| GET_listings_id (pk : string).

Definition handle `{Platform} (db : DB) (r : Request) : DB * Response :=
  match r with
  | POST_listings u nd nl b => post_listings db u nd nl b
  | PATCH_listings_id u pk b => patch_listings_id db u pk b
  | DELETE_listings_id u pk => delete_listings_id db u pk
  | GET_listings_id pk => get_listings_id db pk
  end.

(** A Listings table as the engine keeps it: every row is stored under its
    own primary key and passed the checks of its columns. *)
Definition consistent `{Platform} (db : DB) : Prop :=
  forall pk l, Listings db !! pk = Some l -> id l = pk /\ Listing_valid l = true.

(** *** Sample data *)

(** A listing of alice's domain in a given status, alone in its table. *)
Definition sample (st : string) : Listing :=
  mkListing "L1" "D1" "alice" (Str "fixed") (Number (Num 100)) (Str "USD")
    (Number (Num 30)) Null (Str "a short name") (Arr [Str "premium"]) (Str st)
    Null Null Null (Number (Num 0)) (Bool false).

Definition shop (st : string) : DB :=
  mkDB {[ "D1" := mkDomain "D1" "dreamforge.com" "com" (Str "web2") "alice"
                    (Str "pending") Null ]}
       {[ "L1" := sample st ]}.

(** alice lists her domain for a price of -5 and a duration of 0 months. *)
Definition free_of_charge : PostBody :=
  mkPostBody "dreamforge.com" (Str "web2") (Number (Num (-5))) (Number (Num 0))
    Undefined Undefined Undefined Undefined Undefined.

(** alice's PATCH that supplies only falsy values: a price of 0, an empty
    description, a null status. *)
Definition nothing_new : PatchBody :=
  mkPatchBody (Number (Num 0)) (Str "") Undefined Undefined Null.

End Domains.

(** ** Sessions (routes/auth.js) *)

Module Auth.

Record User : Type := mkUser {
  id : string;
  email : string;
  passwordHash : string;
  name : string;
  accountType : Js.value;
  walletAddress : option string;
  emailVerified : bool;
  isPro : bool;
  lastActive : Z
}.

(** *** jsonwebtoken

    A token is modelled by what it carries: the payload a holder of the key
    reads back, and the key it was signed with.  [iat] is in seconds, and so
    are the two claims a token may carry or not: [nbf], before which it is
    not valid, and [exp], from which it no longer is.  Signatures are ideal:
    a token verifies under a key exactly when it was signed with that key. *)
Record Token : Type := mkToken {
  userId : string;
  iat : Z;
  nbf : option Z;
  exp : option Z;
  signed_with : string
}.

(** What a client presents where a token is expected. *)
Inductive Presented : Type :=
| Malformed
| Jwt (t : Token).

Fixpoint span_digits (s : string) (acc : Z) : Z * string :=
  match s with
  | String c rest =>
      match Js.digit_of c with
      | Some d => span_digits rest (10 * acc + d)
      | None => (acc, s)
      end
  | EmptyString => (acc, s)
  end.

(** The [ms] package on the spellings "<digits><unit>" with a short unit:
    the number of milliseconds. *)
Definition ms (s : string) : option Z :=
  match s with
  | EmptyString => None
  | String c _ =>
      match Js.digit_of c with
      | None => None
      | Some _ =>
          let (n, unit) := span_digits s 0 in
          if (unit =? "ms")%string then Some n
          else if (unit =? "s")%string then Some (n * 1000)
          else if (unit =? "m")%string then Some (n * 60000)
          else if (unit =? "h")%string then Some (n * 3600000)
          else if (unit =? "d")%string then Some (n * 86400000)
          else if (unit =? "w")%string then Some (n * 604800000)
          else if (unit =? "y")%string then Some (n * 31557600000)
          else None
      end
  end.

(** [jwt.sign({ userId }, secret, { expiresIn })] at the clock [now]
    (seconds): it throws without a key or with an unreadable time span. *)
Definition jwt_sign (uid : string) (secret : option string) (expiresIn : string)
    (now : Z) : outcome Token :=
  match secret, ms expiresIn with
  | Some key, Some span =>
      if (key =? "")%string then Throws
      else Done (mkToken uid now None (Some (now + span / 1000)) key)
  | _, _ => Throws
  end.

(** Whether the clock is before the [nbf] of a token, or has reached its
    [exp]. *)
Definition not_yet (t : Token) (now : Z) : bool :=
  match nbf t with
  | Some n => now <? n
  | None => false
  end.
Definition expired (t : Token) (now : Z) : bool :=
  match exp t with
  | Some x => x <=? now
  | None => false
  end.

(** [jwt.verify(token, secret, { ignoreExpiration })]: the key and the
    signature are checked first, then [nbf], then [exp] unless it is
    ignored. *)
Definition jwt_verify (p : Presented) (secret : option string) (ignoreExpiration : bool)
    (now : Z) : outcome Token :=
  match p, secret with
  | Jwt t, Some key =>
      if (key =? "")%string then Throws
      else if negb (signed_with t =? key)%string then Throws
      else if not_yet t now then Throws
      else if negb ignoreExpiration && expired t now then Throws
      else Done t
  | _, _ => Throws
  end.

(** The [name] of the error [jwt.verify] throws, when it throws. *)
Definition verify_error (p : Presented) (secret : option string) (now : Z) : string :=
  match p, secret with
  | Jwt t, Some key =>
      if (key =? "")%string || negb (signed_with t =? key)%string
      then "JsonWebTokenError"
      else if not_yet t now then "NotBeforeError"
      else "TokenExpiredError"
  | _, _ => "JsonWebTokenError"
  end.

(** What a request sees besides the table: [process.env.JWT_SECRET], the
    clock (in seconds), and the libraries: bcrypt, [ethers.verifyMessage],
    the [isEmail] check of the model, whether express-validator found the
    request well formed ([validation_passes]; the body fields are the
    sanitized ones), the random password of a wallet user, and the UUID the
    model generates for a new row. *)
Record Env : Type := mkEnv {
  JWT_SECRET : option string;
  now : Z;
  bcrypt_hash : string -> string;
  bcrypt_compare : string -> string -> bool;
  verifyMessage : string -> string -> outcome string;
  isEmail : string -> bool;
  validation_passes : bool;
  random_password : string;
  newUserId : string
}.

(* generateToken *)
Definition generateToken (e : Env) (uid : string) : outcome Token :=
  jwt_sign uid (JWT_SECRET e) "7d" (now e).

(** *** The Users table *)

(** [User.findByPk(id)] *)
Definition User_findByPk `{Js.Platform} (users : gmap string User) (pk : string)
    : outcome (option User) :=
  findByPk users pk.

Definition User_findOne (users : gmap string User) (p : User -> bool) : option User :=
  snd <$> List.find (fun kv => p (snd kv)) (map_to_list users).

Definition has_email (e : string) (u : User) : bool := (email u =? e)%string.
Definition has_wallet (w : string) (u : User) : bool :=
  match walletAddress u with
  | Some w' => (w' =? w)%string
  | None => false
  end.

(** [User.create]: a new primary key, unique [email] and [walletAddress], a
    well-formed email and an [accountType] of its ENUM. *)
Definition User_create (e : Env) (users : gmap string User) (u : User) : outcome (gmap string User) :=
  match users !! id u, User_findOne users (has_email (email u)) with
  | None, None =>
      if isEmail e (email u)
         && Js.in_enum ["lessor"; "lessee"; "both"] (accountType u)
         && match walletAddress u with
            | Some w => negb (bool_decide (is_Some (User_findOne users (has_wallet w))))
            | None => true
            end
      then Done (<[id u := u]> users)
      else Throws
  | _, _ => Throws
  end.

(** [user.update({ lastActive: new Date() })] *)
Definition touch (e : Env) (users : gmap string User) (u : User) : gmap string User :=
  <[id u := mkUser (id u) (email u) (passwordHash u) (name u) (accountType u)
              (walletAddress u) (emailVerified u) (isPro u) (now e)]> users.

Definition lower (c : ascii) : ascii :=
  let n := nat_of_ascii c in
  if (65 <=? n)%nat && (n <=? 90)%nat then ascii_of_nat (n + 32) else c.

(** [toLowerCase], on the ASCII letters *)
Fixpoint toLowerCase (s : string) : string :=
  match s with
  | EmptyString => EmptyString
  | String c rest => String (lower c) (toLowerCase rest)
  end.

(** *** Handlers *)

Record Response : Type := mkResponse {
  code : Z;
  token : option Token;
  shown : option string   (* user.id in the body *)
}.

Definition failure (c : Z) : Response := mkResponse c None None.

(** The last step of every route that logs a user in. *)
Definition issue (e : Env) (users : gmap string User) (c : Z) (uid : string)
    : gmap string User * Response :=
  match generateToken e uid with
  | Done t => (users, mkResponse c (Some t) (Some uid))
  | Throws => (users, failure 500)
  end.

(* router.post('/register') *)
Definition register (e : Env) (users : gmap string User)
    (b_email b_password b_name : string) (b_accountType : Js.value)
    : gmap string User * Response :=
  if negb (validation_passes e) then (users, failure 400)
  else match User_findOne users (has_email b_email) with
  | Some _ => (users, failure 409)
  | None =>
      let user := mkUser (newUserId e) b_email (bcrypt_hash e b_password) b_name
                    (Js.or b_accountType (Js.Str "lessee")) None false false (now e) in
      match User_create e users user with
      | Throws => (users, failure 500)
      | Done users' => issue e users' 201 (id user)
      end
  end.

(* router.post('/login') *)
Definition login (e : Env) (users : gmap string User) (b_email b_password : string)
    : gmap string User * Response :=
  if negb (validation_passes e) then (users, failure 400)
  else match User_findOne users (has_email b_email) with
  | None => (users, failure 401)
  | Some user =>
      if negb (bcrypt_compare e b_password (passwordHash user))
      then (users, failure 401)
      else issue e (touch e users user) 200 (id user)
  end.

(* router.post('/wallet-login') *)
Definition wallet_login (e : Env) (users : gmap string User)
    (b_walletAddress b_signature b_message : string) : gmap string User * Response :=
  match verifyMessage e b_message b_signature with
  | Throws => (users, failure 500)
  | Done recoveredAddress =>
      if negb (toLowerCase recoveredAddress =? toLowerCase b_walletAddress)%string
      then (users, failure 401)
      else match User_findOne users (has_wallet b_walletAddress) with
      | None =>
          let user :=
            mkUser (newUserId e)
              (String.substring 0 10 b_walletAddress ++ "@wallet.godwallet.com")
              (bcrypt_hash e (random_password e))
              ("Wallet User " ++ String.substring 0 6 b_walletAddress)
              (Js.Str "both") (Some b_walletAddress) false false (now e) in
          match User_create e users user with
          | Throws => (users, failure 500)
          | Done users' => issue e users' 200 (id user)
          end
      | Some user => issue e (touch e users user) 200 (id user)
      end
  end.

(* router.post('/refresh'): [b_token] is [None] when the body has no token *)
Definition refresh `{Js.Platform} (e : Env) (users : gmap string User)
    (b_token : option Presented) : gmap string User * Response :=
  match b_token with
  | None => (users, failure 401)
  | Some p =>
      match jwt_verify p (JWT_SECRET e) true (now e) with
      | Throws => (users, failure 401)
      | Done decoded =>
          match User_findByPk users (userId decoded) with
          | Throws => (users, failure 401)
          | Done None => (users, failure 404)
          | Done (Some user) =>
              match generateToken e (id user) with
              | Done newToken => (users, mkResponse 200 (Some newToken) None)
              | Throws => (users, failure 401)
              end
          end
      end
  end.

(** Rows are stored under their own primary key. *)
Definition keyed (users : gmap string User) : Prop :=
  forall pk u, users !! pk = Some u -> id u = pk.

(** *** Vocabulary of the statements *)

(** The answers of the four routes that hand out a token. *)
Inductive logs_in `{Js.Platform} (e : Env) (users : gmap string User)
    : gmap string User * Response -> Prop :=
| by_register (b_email b_password b_name : string) (b_accountType : Js.value) :
    logs_in e users (register e users b_email b_password b_name b_accountType)
| by_login (b_email b_password : string) :
    logs_in e users (login e users b_email b_password)
| by_wallet_login (b_walletAddress b_signature b_message : string) :
    logs_in e users (wallet_login e users b_walletAddress b_signature b_message)
| by_refresh (b_token : option Presented) :
    logs_in e users (refresh e users b_token).

(** *** Sample data *)

Definition server : Env :=
  mkEnv (Some "s3cret") 1000000 (fun p => "h:" ++ p)
    (fun p h => (h =? "h:" ++ p)%string) (fun _ sg => Done sg) (fun _ => true)
    true "r4nd0m" "u2".

Definition ann : User :=
  mkUser "u1" "ann@example.com" "h:Passw0rd" "Ann" (Js.Str "both") None false false 0.

(** A token of ann's that ran out long before the clock of [server]. *)
Definition stale : Token := mkToken "u1" 0 None (Some 604800) "s3cret".

End Auth.

(** ** The lease lifecycle manager

    [server.js] mounts [routes/leases] under [/api/leases], but the
    repository has no such file.  The definitions of this module follow the
    specification of the lease lifecycle instead (sections 3, 4.1 to 4.3, 6
    and 7). *)

Module Leases.

(** Modelled from the spec: the statuses of a Listing, which the missing
    [routes/leases] moves (section 3): "status in {active, leased, expired,
    cancelled}". *)
Inductive ListingStatus : Type := active | leased | expired | cancelled.


(** Modelled from the spec: the Listing as the missing [routes/leases] sees
    it (section 3): it "references exactly one Domain", has a status and an
    "optional bound NFT contract address + token id". *)
Record Listing : Type := mkListing {
  domain : string;
  status : ListingStatus;
  binding : option (string * Z)
}.










(** *** Sample data *)


End Leases.

(** ** The views of the contract and its callers *)

Module LeaseViews.
Import Lease.

(* isLeaseExpired, at the block timestamp *)
Definition isLeaseExpired (s : State) (timestamp tokenId : uint256) : result bool :=
  require! _exists s tokenId, "Token does not exist";;
  Ok (endDate (lease s tokenId) <? timestamp).

(* calculatePlatformFee: Solidity 0.8 checks the multiplication and panics
   when the product does not fit 256 bits *)
Definition calculatePlatformFee (s : State) (amount : uint256) : result uint256 :=
  let product := amount * platformFee s in
  require! product <? 2 ^ 256, "Panic(0x11)";;
  Ok (product / 10000).

(* the public getter platformFee() and treasury() are the fields themselves *)

(** The terms of a lease: everything but the lessee and the active flag. *)
Definition terms (l : LeaseInfo) : string * address * uint256 * uint256 * uint256 * string * string :=
  (domainName l, lessor l, startDate l, endDate l, priceAmount l,
   restrictions l, agreementIpfsHash l).

(** A sequence of transactions: what the contract as deployed can go
    through, since nothing calls [_burn]. *)
Definition transactions (tr : list Action) : Prop :=
  Forall (fun a => match a with Call _ _ => True | Burn _ => False end) tr.

(** Every transaction of the sequence is sent from an account: the zero
    address sends none. *)
Definition from_accounts (tr : list Action) : Prop :=
  Forall (fun a => match a with Call e _ => msg_sender e <> 0 | Burn _ => True end) tr.

(** The calls of a transaction, those made back included, in the order they
    start. *)
Fixpoint calls (t : Tx) : list Action :=
  match t with
  | Nest e m back => Call e m :: flat_map calls back
  end.

(** None of the calls of a transaction, made back or not, is sent by [a]. *)
Definition sent_by_others (a : address) (t : Tx) : Prop :=
  Forall (fun c => match c with Call e _ => msg_sender e <> a | Burn _ => True end)
    (calls t).

(** The storage with the URI of a token set. *)
Definition with_tokenURI (tokenId : uint256) (uri : string) (s : State) : State :=
  set_tokenURIs (<[tokenId := uri]> (_tokenURIs s)) s.

(** A lessee contract that, when the token reaches it, passes it on to the
    account [4]; and the mint of "a.com" to it with that call made back. *)
Definition passes_on : Tx :=
  Nest (caller 1) (MintLease 2 3 "a.com" 10 20 5 "" "" "ipfs://a")
    [Nest (caller 3) (TransferFrom 3 4 1) []].

End LeaseViews.

(** ** The request guards (middleware/auth.js) *)

Module Middleware.
Import Auth.

(** What a guard does with a request: hand it on ([next()]) with what it
    attached to it, or answer it with a status and the [error] field of the
    body. *)
Inductive Gate (A : Type) : Type :=
| Next (attached : A)
| Answer (code : Z) (error : string).
Arguments Next {A} attached.
Arguments Answer {A} code error.

(** [s.substring(n)]: what follows the first [n] characters. *)
Fixpoint substring_from (n : nat) (s : string) : string :=
  match n, s with
  | O, _ => s
  | S n', String _ rest => substring_from n' rest
  | S _, EmptyString => EmptyString
  end.

(* authenticate.  [authorization] is [req.headers.authorization]; [decode]
   reads the text of a token as the library does.  What it attaches is
   [req.userId] and [req.user]. *)
Definition authenticate `{Js.Platform} (e : Env) (decode : string -> Presented)
    (users : gmap string User) (authorization : option string)
    : Gate (string * User) :=
  match authorization with
  | None => Answer 401 "Authentication required"
  | Some authHeader =>
      if negb (String.prefix "Bearer " authHeader)
      then Answer 401 "Authentication required"
      else
        let token := substring_from 7 authHeader in
        match jwt_verify (decode token) (JWT_SECRET e) false (now e) with
        | Done decoded =>
            match User_findByPk users (userId decoded) with
            | Done None => Answer 401 "User not found"
            | Done (Some user) => Next (userId decoded, user)
            | Throws => Answer 500 "Authentication failed"
            end
        | Throws =>
            let name := verify_error (decode token) (JWT_SECRET e) (now e) in
            if (name =? "JsonWebTokenError")%string
            then Answer 401 "Invalid token"
            else if (name =? "TokenExpiredError")%string
            then Answer 401 "Token expired"
            else Answer 500 "Authentication failed"
        end
  end.

(* optionalAuth *)
Definition optionalAuth `{Js.Platform} (e : Env) (decode : string -> Presented)
    (users : gmap string User) (authorization : option string)
    : Gate (option (string * User)) :=
  match authorization with
  | None => Next None
  | Some authHeader =>
      if negb (String.prefix "Bearer " authHeader)
      then Next None
      else
        let token := substring_from 7 authHeader in
        match jwt_verify (decode token) (JWT_SECRET e) false (now e) with
        | Done decoded =>
            match User_findByPk users (userId decoded) with
            | Done (Some user) => Next (Some (userId decoded, user))
            | Done None => Next None
            | Throws => Next None
            end
        | Throws => Next None
        end
  end.

(** A row of Users as [requirePro] sees it: the user, and the column
    [proExpiresAt], null or an instant. *)
Record Account : Type := mkAccount {
  user : User;
  proExpiresAt : option Z
}.

Definition set_isPro (v : bool) (u : User) : User :=
  mkUser (id u) (email u) (passwordHash u) (name u) (accountType u)
    (walletAddress u) (emailVerified u) v (lastActive u).

(* requirePro.  [req_user] is [req.user]; [clock] is [new Date()]. *)
Definition requirePro (clock : Z) (accounts : gmap string Account)
    (req_user : option Account) : gmap string Account * Gate unit :=
  match req_user with
  | None => (accounts, Answer 401 "Authentication required")
  | Some a =>
      if negb (isPro (user a))
      then (accounts, Answer 403 "Pro subscription required")
      else
        match proExpiresAt a with
        | Some expiry =>
            if expiry <? clock
            then (<[id (user a) := mkAccount (set_isPro false (user a)) None]> accounts,
                  Answer 403 "Pro subscription expired")
            else (accounts, Next tt)
        | None => (accounts, Next tt)
        end
  end.

(* requireDomainOwner(paramName): [domainId] is [req.params[paramName]], and
   what it attaches is [req.domain] *)
Definition requireDomainOwner `{Js.Platform} (db : Domains.DB) (userId domainId : string)
    : Gate Domains.Domain :=
  match Domains.Domain_findByPk db domainId with
  | Throws => Answer 500 "Verification failed"
  | Done None => Answer 404 "Domain not found"
  | Done (Some domain) =>
      if negb (Domains.ownerId domain =? userId)%string
      then Answer 403 "Unauthorized"
      else Next domain
  end.

(** A row of InteractionHistory, as far as [checkAILimit] queries it. *)
Record Interaction : Type := mkInteraction {
  by_user : string;
  actionType : string;
  createdAt : Z
}.

(** The ENUM of the column [actionType] (models/index.js). *)
Definition actionType_enum : list string :=
  ["view"; "search"; "favorite"; "contact"; "lease_start"].

(** A table the engine can hold: every row's [actionType] is of the ENUM. *)
Definition storable (log : list Interaction) : Prop :=
  Forall (fun i => In (actionType i) actionType_enum) log.

(** [InteractionHistory.count({ where: { userId, actionType, createdAt: {
    [Op.gte]: since } } })].  An engine may refuse to compare the column with
    a literal outside its ENUM ([strict]); the query then throws. *)
Definition Interaction_count (strict : bool) (log : list Interaction)
    (uid kind : string) (since : Z) : outcome Z :=
  if strict && negb (existsb (String.eqb kind) actionType_enum) then Throws
  else Done (Z.of_nat (length (List.filter
         (fun i => (by_user i =? uid)%string && (actionType i =? kind)%string
                   && (since <=? createdAt i)) log))).

(* checkAILimit.  [clock] is [Date.now()], in milliseconds; what it attaches
   is [req.aiCallsRemaining], left unset when the count throws. *)
Definition checkAILimit (strict : bool) (clock : Z) (log : list Interaction)
    (userId : string) (req_user : User) : Gate (option Z) :=
  let oneHourAgo := clock - 60 * 60 * 1000 in
  match Interaction_count strict log userId "ai_analysis" oneHourAgo with
  | Throws => Next None
  | Done aiCallCount =>
      let limit := if isPro req_user then 50 else 5 in
      if limit <=? aiCallCount then Answer 429 "Rate limit exceeded"
      else Next (Some (limit - aiCallCount))
  end.

(** *** Sample data *)

(** A token of ann's issued at the clock of [server], and a reading of two
    token texts. *)
Definition fresh : Token := mkToken "u1" 1000000 None (Some 1604800) "s3cret".

Definition wire (w : string) : Presented :=
  if (w =? "fresh.token")%string then Jwt fresh
  else if (w =? "stale.token")%string then Jwt stale
  else Malformed.

(** ann as a subscriber whose subscription ran out at 500. *)
Definition lapsed : Account :=
  mkAccount (set_isPro true ann) (Some 500).

End Middleware.

(** ** Sample requests to the session routes *)

Module AuthSamples.
Import Auth.

(** The table with ann alone. *)
Definition only_ann : gmap string User := {[ "u1" := ann ]}.

(** A server like [server] that has lost its key. *)
Definition keyless : Env :=
  mkEnv None 1000000 (fun p => "h:" ++ p)
    (fun p h => (h =? "h:" ++ p)%string) (fun _ sg => Done sg) (fun _ => true)
    true "r4nd0m" "u2".

(** [server] generating another key for the next row. *)
Definition server_next : Env :=
  mkEnv (Some "s3cret") 1000000 (fun p => "h:" ++ p)
    (fun p h => (h =? "h:" ++ p)%string) (fun _ sg => Done sg) (fun _ => true)
    true "r4nd0m" "u3".

(** The row wallet-login creates for a wallet. *)
Definition wallet_user (e : Env) (w : string) : User :=
  mkUser (newUserId e)
    (String.substring 0 10 w ++ "@wallet.godwallet.com")
    (bcrypt_hash e (random_password e))
    ("Wallet User " ++ String.substring 0 6 w)
    (Js.Str "both") (Some w) false false (now e).

(** A row with its [lastActive] set, as [user.update({ lastActive })] leaves
    it. *)
Definition set_lastActive (clock : Z) (u : User) : User :=
  mkUser (id u) (email u) (passwordHash u) (name u) (accountType u)
    (walletAddress u) (emailVerified u) (isPro u) clock.

(** The accounts of [users] are all among [users'], changed at most in
    their [lastActive], and [users'] is keyed. *)
Definition kept (e : Env) (users users' : gmap string User) : Prop :=
  keyed users' /\
  forall pk u, users !! pk = Some u ->
    exists u', users' !! pk = Some u' /\ (u' = u \/ u' = set_lastActive (now e) u).

(** Two wallet addresses with the same first ten characters.  The sample
    servers recover the signer by reading the signature as the address. *)
Definition wallet_a : string := "0xAbCd123400000000000000000000000000000001".
Definition wallet_b : string := "0xAbCd123400000000000000000000000000000002".

End AuthSamples.

(** ** The marketplace as a whole *)

Module Marketplace.
Import Js Domains.

(** The tables before any request. *)
Definition opening : DB := mkDB ∅ ∅.

(** The tables after a sequence of requests. *)
Definition serve `{Platform} (db : DB) (requests : list Request) : DB :=
  fold_left (fun db r => fst (handle db r)) requests db.

(** What the tables keep through every request: rows sit under their own
    keys and passed the checks of their columns, no two domains have the same
    name, and the lessor of every listing owns the domain it lists. *)
Record sound `{Platform} (db : DB) : Prop := mkSound {
  sound_listings : consistent db;
  sound_domains : forall pk d, Domains db !! pk = Some d -> Domain_id d = pk;
  sound_names : forall pk1 pk2 d1 d2,
    Domains db !! pk1 = Some d1 -> Domains db !! pk2 = Some d2 ->
    domainName d1 = domainName d2 -> pk1 = pk2;
  sound_owner : forall pk l, Listings db !! pk = Some l ->
    exists d, Domains db !! domainId l = Some d /\ ownerId d = lessorId l
}.

(** Whether a name has a dot. *)
Fixpoint has_dot (s : string) : bool :=
  match s with
  | EmptyString => false
  | String "."%char _ => true
  | String _ rest => has_dot rest
  end.

(** bob asks for alice's domain. *)
Definition same_name : PostBody :=
  mkPostBody "dreamforge.com" (Str "web3") (Number (Num 1)) (Number (Num 1))
    Undefined Undefined Undefined Undefined Undefined.

(** alice lists a domain nobody has listed yet. *)
Definition new_name : PostBody :=
  mkPostBody "shop.dreamforge.io" (Str "web2") (Number (Num 299)) (Number (Num 6))
    (Str "Perfect for creative agencies") (Str "No adult content")
    (Arr [Str "creative"; Str "tech"]) Undefined Undefined.

End Marketplace.

(** * Properties *)

(** ** Reads of mappings and results of calls *)

Lemma mread_insert {K V : Type} `{Countable K} (zero v : V) (m : gmap K V) (k k' : K) :
  mread zero (<[k := v]> m) k' = if decide (k = k') then v else mread zero m k'.
Proof.
  unfold mread. rewrite lookup_insert. destruct (decide (k = k')); reflexivity.
Qed.

Lemma mread_delete {K V : Type} `{Countable K} (zero : V) (m : gmap K V) (k k' : K) :
  mread zero (delete k m) k' = if decide (k = k') then zero else mread zero m k'.
Proof.
  unfold mread. rewrite lookup_delete. destruct (decide (k = k')); reflexivity.
Qed.

Lemma mread_empty {K V : Type} `{Countable K} (zero : V) (k : K) :
  mread zero (∅ : gmap K V) k = zero.
Proof. unfold mread. rewrite lookup_empty. reflexivity. Qed.

Lemma rbind_Ok {A B : Type} (r : result A) (k : A -> result B) (b : B) :
  rbind r k = Ok b -> exists a, r = Ok a /\ k a = Ok b.
Proof. destruct r as [a|m]; simpl; [eauto | discriminate]. Qed.

Lemma require_Ok (c : bool) (m : string) (u : unit) :
  require c m = Ok u -> c = true.
Proof. destruct c; [reflexivity | discriminate]. Qed.

(** Peels a successful call into the checks it passed and the state it
    built. *)
Ltac peel :=
  repeat match goal with
  | H : rbind _ _ = Ok _ |- _ =>
      let a := fresh "x" in
      let E := fresh "E" in
      apply rbind_Ok in H as (a & E & H)
  | H : require _ _ = Ok _ |- _ => apply require_Ok in H
  | H : Ok _ = Ok _ |- _ => injection H as H; try subst
  | H : Revert _ = Ok _ |- _ => discriminate H
  | H : (if ?c then _ else _) = Ok _ |- _ => destruct c eqn:?
  end.

Lemma mread_insert_eq {K V : Type} `{Countable K} (zero v : V) (m : gmap K V) (k : K) :
  mread zero (<[k := v]> m) k = v.
Proof. rewrite mread_insert, decide_True by reflexivity. reflexivity. Qed.

Lemma mread_insert_ne {K V : Type} `{Countable K} (zero v : V) (m : gmap K V) (k k' : K) :
  k <> k' -> mread zero (<[k := v]> m) k' = mread zero m k'.
Proof. intros. rewrite mread_insert, decide_False by assumption. reflexivity. Qed.

Lemma mread_delete_eq {K V : Type} `{Countable K} (zero : V) (m : gmap K V) (k : K) :
  mread zero (delete k m) k = zero.
Proof. rewrite mread_delete, decide_True by reflexivity. reflexivity. Qed.

Lemma mread_delete_ne {K V : Type} `{Countable K} (zero : V) (m : gmap K V) (k k' : K) :
  k <> k' -> mread zero (delete k m) k' = mread zero m k'.
Proof. intros. rewrite mread_delete, decide_False by assumption. reflexivity. Qed.

(** Resolves reads of a mapping after a write, at the same key or at one
    known to differ. *)
Ltac mrw :=
  repeat match goal with
  | |- context [mread ?z (<[?k := ?v]> ?m) ?k] => rewrite (mread_insert_eq z v m k)
  | |- context [mread ?z (<[?k := ?v]> ?m) ?k'] =>
      rewrite (mread_insert_ne z v m k k') by (assumption || congruence || lia)
  | |- context [mread ?z (delete ?k ?m) ?k] => rewrite (mread_delete_eq z m k)
  | |- context [mread ?z (delete ?k ?m) ?k'] =>
      rewrite (mread_delete_ne z m k k') by (assumption || congruence || lia)
  end.

Lemma wrap256_small (z : Z) : 0 <= z < 2 ^ 256 -> wrap256 z = z.
Proof. intros. unfold wrap256. apply Z.mod_small. assumption. Qed.

(** ** Searches of a table *)

(** [findOne] reads the rows of a table in some order and returns the first
    that satisfies the condition: it finds a row of the table that satisfies
    it, or none does. *)
Lemma find_row_Some {V : Type} (m : gmap string V) (p : V -> bool) (v : V) :
  snd <$> List.find (fun kv => p (snd kv)) (map_to_list m) = Some v ->
  (exists pk, m !! pk = Some v) /\ p v = true.
Proof.
  intros H.
  destruct (List.find (fun kv => p (snd kv)) (map_to_list m)) as [[pk v']|] eqn:E;
    [|discriminate].
  simpl in H. injection H as <-.
  apply List.find_some in E as [Hin Hp]. split; [|assumption].
  exists pk. apply elem_of_map_to_list, list_elem_of_In. assumption.
Qed.

Lemma find_row_None {V : Type} (m : gmap string V) (p : V -> bool) (pk : string) (v : V) :
  snd <$> List.find (fun kv => p (snd kv)) (map_to_list m) = None ->
  m !! pk = Some v -> p v = false.
Proof.
  intros H Hv.
  destruct (List.find (fun kv => p (snd kv)) (map_to_list m)) as [kv|] eqn:E;
    [discriminate|].
  apply (List.find_none _ _ E (pk, v)).
  apply list_elem_of_In, elem_of_map_to_list. assumption.
Qed.

Section Sequelize.
Context {platform : Js.Platform}.

Lemma findByPk_hit {Row : Type} (table : gmap string Row) (pk : string) (row : Row) :
  table !! pk = Some row -> findByPk table pk = Done (Some row).
Proof. intros Hrow. unfold findByPk. rewrite Hrow. reflexivity. Qed.

Lemma findByPk_found {Row : Type} (table : gmap string Row) (pk : string) (row : Row) :
  findByPk table pk = Done (Some row) ->
  exists key, table !! key = Some row /\
    (key = pk \/ (table !! pk = None /\ Js.uuid_in pk = Some key)).
Proof.
  unfold findByPk. destruct (table !! pk) as [row'|] eqn:E.
  - intros Hd. injection Hd as <-. exists pk. auto.
  - destruct (Js.uuid_in pk) as [key|] eqn:Eu; [|discriminate].
    intros Hd. injection Hd as Hd. exists key. auto.
Qed.

End Sequelize.

(** ** The lease-token contract *)

Module LeaseFacts.
Import Lease.

Ltac views := unfold _exists, _ownerOf, lease, tokenOfDomain in *.

Lemma nonzero_exists (a : address) : a <> 0 -> negb (a =? 0) = true.
Proof. intros. destruct (Z.eqb_spec a 0); [contradiction | reflexivity]. Qed.

Lemma _transfer_effect (s s' : State) (from to : address) (t : uint256) :
  _transfer s from to t = Ok s' ->
  call_effect s s' /\ ownerOf s' t = Ok to /\ lessee (lease s' t) = to.
Proof.
  unfold _transfer, ERC721_transfer, ownerOf. intros H. peel.
  split; [|split].
  - apply (eff_transfer s _ t to); simpl; try reflexivity.
    + unfold _exists. assumption.
    + intros ->. discriminate.
  - views. simpl. mrw. match goal with H : negb (to =? 0) = true |- _ => rewrite H end.
    reflexivity.
  - views. simpl. mrw. reflexivity.
Qed.

Lemma _burn_effect (s s' : State) (t : uint256) :
  _burn s t = Ok s' -> burn_effect s s' t.
Proof.
  unfold _burn, ERC721URIStorage_burn, ERC721_burn, ownerOf. intros H. peel;
    split; simpl; try reflexivity; assumption.
Qed.

Lemma _burn_Ok (s : State) (t : uint256) :
  _exists s t = true -> exists s', _burn s t = Ok s'.
Proof.
  intros Hex. unfold _burn, ERC721URIStorage_burn, ERC721_burn, ownerOf.
  unfold _exists in Hex. rewrite Hex. simpl.
  match goal with |- context [if ?c then _ else _] => destruct c end; simpl; eauto.
Qed.

Lemma mintLease_effect (e : Env) (s s' : State) (lr le : address) (d : string)
    (sd ed p : uint256) (r h u : string) (newId : uint256) :
  mintLease e s lr le d sd ed p r h u = Ok (s', newId) ->
  call_effect s s' /\ ownerOf s' newId = Ok le /\ lessee (lease s' newId) = le.
Proof.
  unfold mintLease, _safeMint, _mint, _setTokenURI, onlyOwner. intros H. peel.
  simpl in *. split; [|split].
  - apply (eff_mint s _ (mkLeaseInfo d lr le sd ed p r h true)); simpl; try reflexivity.
    + intros ->. discriminate.
    + lia.
    + lia.
    + unfold _exists, _ownerOf in *. simpl in *.
      match goal with H : negb (negb _) = true |- _ => rewrite negb_involutive in H end.
      rewrite negb_false_iff. assumption.
  - unfold ownerOf. views. simpl. mrw.
    match goal with H : negb (le =? 0) = true |- _ => rewrite H end. reflexivity.
  - views. simpl. mrw. reflexivity.
Qed.

Lemma receive_effect (e : Env) (s s' : State) (m : Msg) :
  receive e s m = Ok s' -> call_effect s s'.
Proof.
  destruct m; simpl; intros H.
  - peel. destruct x as [s1 t]. simpl. eapply mintLease_effect; eassumption.
  - unfold terminateLease in H. peel.
    apply (eff_terminate s _ tokenId); simpl; try reflexivity; assumption.
  - unfold setPlatformFee, onlyOwner in H. peel. apply eff_none; reflexivity.
  - unfold setTreasury, onlyOwner in H. peel. apply eff_none; reflexivity.
  - unfold withdrawFees, onlyOwner in H. peel. apply eff_none; reflexivity.
  - unfold approve, ownerOf in H. peel. apply eff_none; reflexivity.
  - unfold setApprovalForAll in H. peel. apply eff_none; reflexivity.
  - unfold transferFrom in H. peel. eapply _transfer_effect; eassumption.
  - unfold safeTransferFrom in H. peel. eapply _transfer_effect; eassumption.
  - unfold transferOwnership, onlyOwner in H. peel. apply eff_none; reflexivity.
  - unfold renounceOwnership, onlyOwner in H. peel. apply eff_none; reflexivity.
Qed.

Lemma step_effect (s s' : State) (a : Action) :
  step s a = Ok s' -> effect s s'.
Proof.
  destruct a; simpl; intros H.
  - apply by_call. eapply receive_effect; eassumption.
  - eapply by_burn, _burn_effect; eassumption.
Qed.

Lemma apply_cases (s : State) (a : Action) :
  (step s a = Ok (apply s a) /\ effect s (apply s a)) \/
  ((exists m, step s a = Revert m) /\ apply s a = s).
Proof.
  unfold apply. destruct (step s a) as [s'|m] eqn:E.
  - left. split; [reflexivity | eapply step_effect; eassumption].
  - right. split; [eauto | reflexivity].
Qed.

Lemma run_cons (s : State) (a : Action) (tr : list Action) :
  run s (a :: tr) = run (apply s a) tr.
Proof. reflexivity. Qed.

Lemma run_invariant (P : State -> Prop) :
  (forall s s', P s -> effect s s' -> P s') ->
  forall tr s, P s -> P (run s tr).
Proof.
  intros Hstep tr. induction tr as [|a tr IH]; intros s Hs; [assumption|].
  rewrite run_cons. apply IH.
  destruct (apply_cases s a) as [[_ Heff] | [_ ->]]; eauto.
Qed.

(** *** The invariants are kept by every action *)

Ltac effect_cases Heff :=
  destruct Heff as
    [[Ho Hl Hd Hi | l newId Hle Hdates Hact Hfree Hnew Ho Hl Hd Hi
     | t0 Hex Hact Ho Hl Hd Hi | t0 to Hex Hto Ho Hl Hd Hi]
    | t0 [Hex Ho Hl Hd Hi]].

Lemma Inv_effect (n : Z) (s s' : State) :
  Inv n s -> n < 2 ^ 256 - 1 -> effect s s' -> Inv (n + 1) s'.
Proof.
  intros [Hc Hm Hb Ht] Hn Heff. effect_cases Heff.
  - split; views; rewrite ?Ho, ?Hl, ?Hd, ?Hi; auto. lia.
  - assert (HnewId : newId = _tokenIds s + 1).
    { unfold newId. apply wrap256_small. lia. }
    clearbody newId. rewrite HnewId in Hnew, Ho, Hl, Hd, Hi. clear HnewId newId.
    split; views; rewrite ?Ho, ?Hl, ?Hd, ?Hi.
    + lia.
    + intros t. destruct (decide (_tokenIds s + 1 = t)) as [<-|Hne]; mrw; [lia|].
      intros Hx. apply Hm in Hx. lia.
    + intros t. destruct (decide (_tokenIds s + 1 = t)) as [<-|Hne]; mrw; [reflexivity|].
      intros Hx.
      destruct (decide (domainName l = domainName (mread noLease (leases s) t))) as [Heq|Hne'].
      * specialize (Hb t Hx). rewrite <- Heq, Hfree in Hb. apply Hm in Hx. lia.
      * mrw. apply Hb. assumption.
    + intros d. destruct (decide (domainName l = d)) as [<-|Hne]; mrw.
      * intros _. split; [apply nonzero_exists; assumption | reflexivity].
      * intros Hd1. destruct (Ht d Hd1) as [Hx Hy].
        assert (_tokenIds s + 1 <> mread 0 (domainToToken s) d).
        { apply Hm in Hx. lia. }
        mrw. split; assumption.
  - split; views; rewrite ?Ho, ?Hl, ?Hd, ?Hi.
    + lia.
    + assumption.
    + intros t'. destruct (decide (t0 = t')) as [<-|Hne]; mrw; simpl; apply Hb.
    + intros d Hd1. destruct (Ht d Hd1) as [Hx Hy]. split; [assumption|].
      destruct (decide (t0 = mread 0 (domainToToken s) d)) as [Heq|Hne].
      * rewrite <- Heq. mrw. simpl. rewrite Heq. assumption.
      * mrw. assumption.
  - split; views; rewrite ?Ho, ?Hl, ?Hd, ?Hi.
    + lia.
    + intros t'. destruct (decide (t0 = t')) as [<-|Hne]; mrw;
        [intros _; apply Hm; assumption | apply Hm].
    + intros t'. destruct (decide (t0 = t')) as [<-|Hne]; mrw; simpl;
        [intros _; apply Hb; assumption | apply Hb].
    + intros d Hd1. destruct (Ht d Hd1) as [Hx Hy].
      destruct (decide (t0 = mread 0 (domainToToken s) d)) as [Heq|Hne].
      * rewrite <- Heq. mrw. split; [apply nonzero_exists; assumption|].
        simpl. rewrite Heq. assumption.
      * mrw. split; assumption.
  - split; views; rewrite ?Ho, ?Hl, ?Hd, ?Hi.
    + lia.
    + intros t'. destruct (decide (t0 = t')) as [<-|Hne]; mrw; [discriminate | apply Hm].
    + intros t'. destruct (decide (t0 = t')) as [<-|Hne]; mrw; [discriminate|].
      intros Hx.
      assert (domainName (mread noLease (leases s) t0) <>
              domainName (mread noLease (leases s) t')).
      { intros Heq. pose proof (Hb t0 Hex) as H1. pose proof (Hb t' Hx) as H2.
        rewrite Heq in H1. congruence. }
      mrw. apply Hb. assumption.
    + intros d.
      destruct (decide (domainName (mread noLease (leases s) t0) = d)) as [<-|Hne]; mrw;
        [intros Hx; exfalso; apply Hx; reflexivity|].
      intros Hd1. destruct (Ht d Hd1) as [Hx Hy].
      assert (t0 <> mread 0 (domainToToken s) d).
      { intros ->. contradiction. }
      mrw. split; assumption.
Qed.

Lemma Inv_weaken (n m : Z) (s : State) : Inv n s -> n <= m -> Inv m s.
Proof. intros [Hc Hm Hb Ht] Hnm. split; auto. lia. Qed.

Lemma Inv_constructor (deployer _treasury : address) :
  Inv 0 (constructor deployer _treasury).
Proof.
  split; views; simpl.
  - lia.
  - intros t. rewrite mread_empty. discriminate.
  - intros t. rewrite mread_empty. discriminate.
  - intros d. rewrite mread_empty. congruence.
Qed.

Lemma Inv_run (tr : list Action) (n : Z) (s : State) :
  Inv n s -> n + Z.of_nat (length tr) <= 2 ^ 256 - 1 ->
  Inv (n + Z.of_nat (length tr)) (run s tr).
Proof.
  revert n s. induction tr as [|a tr IH]; intros n s Hs Hn;
    cbn [length] in *; rewrite ?run_cons.
  - eapply Inv_weaken; [eassumption | lia].
  - rewrite Nat2Z.inj_succ in *.
    replace (n + Z.succ (Z.of_nat (length tr)))
      with ((n + 1) + Z.of_nat (length tr)) by lia.
    apply IH; [|lia].
    destruct (apply_cases s a) as [[_ Heff] | [_ ->]].
    + eapply Inv_effect; [eassumption | lia | assumption].
    + eapply Inv_weaken; [eassumption | lia].
Qed.

Lemma dated_effect (s s' : State) : dated s -> effect s s' -> dated s'.
Proof.
  intros Hs Heff t'. unfold dated in Hs. effect_cases Heff; views; rewrite ?Ho, ?Hl.
  - apply Hs.
  - destruct (decide (newId = t')) as [<-|Hne]; mrw; [intros _; assumption | apply Hs].
  - destruct (decide (t0 = t')) as [<-|Hne]; mrw; simpl; apply Hs.
  - destruct (decide (t0 = t')) as [<-|Hne]; mrw; simpl;
      [intros _; apply Hs; assumption | apply Hs].
  - destruct (decide (t0 = t')) as [<-|Hne]; mrw; [discriminate | apply Hs].
Qed.

Lemma held_effect (s s' : State) : held_by_lessee s -> effect s s' -> held_by_lessee s'.
Proof.
  intros Hs Heff t'. unfold held_by_lessee in Hs.
  effect_cases Heff; views; rewrite ?Ho, ?Hl.
  - apply Hs.
  - destruct (decide (newId = t')) as [<-|Hne]; mrw; [reflexivity | apply Hs].
  - destruct (decide (t0 = t')) as [<-|Hne]; mrw; simpl; apply Hs.
  - destruct (decide (t0 = t')) as [<-|Hne]; mrw; simpl; [reflexivity | apply Hs].
  - destruct (decide (t0 = t')) as [<-|Hne]; mrw; [discriminate | apply Hs].
Qed.

Lemma ended_effect (n : Z) (s s' : State) (t : uint256) :
  Inv n s -> n < 2 ^ 256 - 1 -> effect s s' -> ended s t -> ended s' t.
Proof.
  intros [Hc Hm Hb Ht] Hn Heff [Hmax Hin]. unfold ended.
  effect_cases Heff; views; rewrite ?Hl, ?Hi.
  - split; assumption.
  - assert (HnewId : newId = _tokenIds s + 1).
    { unfold newId. apply wrap256_small. lia. }
    rewrite HnewId. mrw. split; [lia | assumption].
  - split; [assumption|].
    destruct (decide (t0 = t)) as [<-|Hne]; mrw; [reflexivity | assumption].
  - split; [assumption|].
    destruct (decide (t0 = t)) as [<-|Hne]; mrw; simpl; assumption.
  - split; [assumption|].
    destruct (decide (t0 = t)) as [<-|Hne]; mrw; [reflexivity | assumption].
Qed.

Lemma ended_run (tr : list Action) (n : Z) (s : State) (t : uint256) :
  Inv n s -> n + Z.of_nat (length tr) <= 2 ^ 256 - 1 -> ended s t -> ended (run s tr) t.
Proof.
  revert n s. induction tr as [|a tr IH]; intros n s Hs Hn He;
    cbn [length] in *; rewrite ?run_cons; [assumption|].
  rewrite Nat2Z.inj_succ in *.
  destruct (apply_cases s a) as [[_ Heff] | [_ ->]].
  - apply (IH (n + 1)); [eapply Inv_effect; [eassumption | lia | assumption] | lia |].
    eapply ended_effect; [eassumption | lia | eassumption | assumption].
  - apply (IH n); [assumption | lia | assumption].
Qed.

(** *** Reverts *)

Lemma mintLease_bound_reverts (e : Env) (s : State) (lr le : address) (d : string)
    (sd ed p : uint256) (r h u : string) :
  tokenOfDomain s d <> 0 \/ ed <= sd ->
  (exists m, mintLease e s lr le d sd ed p r h u = Revert m) /\
  apply s (Call e (MintLease lr le d sd ed p r h u)) = s.
Proof.
  intros Hbad.
  assert (Hrev : exists m, mintLease e s lr le d sd ed p r h u = Revert m).
  { destruct (mintLease e s lr le d sd ed p r h u) as [[s' t]|m] eqn:E; [exfalso | eauto].
    unfold mintLease in E. peel.
    destruct Hbad as [Hb | Hb]; [apply Hb; lia | lia]. }
  split; [assumption|].
  destruct Hrev as [m Hm]. unfold apply, step, receive. rewrite Hm. reflexivity.
Qed.

Lemma terminateLease_inactive (e : Env) (s : State) (t : uint256) :
  _exists s t = true -> active (lease s t) = false ->
  terminateLease e s t =
    Revert (if (msg_sender e =? lessor (lease s t)) || (msg_sender e =? owner s)
            then "Lease already inactive"
            else "Only lessor or owner can terminate").
Proof.
  intros Hex Hin. unfold terminateLease. rewrite Hex. simpl.
  destruct ((msg_sender e =? lessor (lease s t)) || (msg_sender e =? owner s)); simpl;
    [rewrite Hin|]; reflexivity.
Qed.

(** *** The claims about the contract *)

(** Claim C1.  In every state the contract reaches in fewer than 2^256 - 1
    actions (the unchecked token counter cannot wrap earlier), no two
    existing tokens carry the same domain name, the binding of a domain
    points to the existing token that carries it and back; [mintLease] for a
    bound domain reverts and leaves the storage as it was; and the binding of
    a domain is cleared by the burn of its token and by no other action. *)
Theorem domain_binding_unique (deployer _treasury : address) (tr : list Action) :
  Z.of_nat (length tr) < 2 ^ 256 - 1 ->
  let s := run (constructor deployer _treasury) tr in
  (forall t1 t2, _exists s t1 = true -> _exists s t2 = true ->
     domainName (lease s t1) = domainName (lease s t2) -> t1 = t2) /\
  (forall t, _exists s t = true -> tokenOfDomain s (domainName (lease s t)) = t) /\
  (forall d, tokenOfDomain s d <> 0 ->
     _exists s (tokenOfDomain s d) = true /\
     domainName (lease s (tokenOfDomain s d)) = d) /\
  (forall e lr le d sd ed p r h u, tokenOfDomain s d <> 0 ->
     (exists m, mintLease e s lr le d sd ed p r h u = Revert m) /\
     apply s (Call e (MintLease lr le d sd ed p r h u)) = s) /\
  (forall a d, tokenOfDomain s d <> 0 ->
     (a = Burn (tokenOfDomain s d) -> tokenOfDomain (apply s a) d = 0) /\
     (a <> Burn (tokenOfDomain s d) ->
      tokenOfDomain (apply s a) d = tokenOfDomain s d)).
Proof.
  intros Hlen s.
  assert (HI : Inv (0 + Z.of_nat (length tr)) s).
  { apply Inv_run; [apply Inv_constructor | lia]. }
  destruct HI as [Hc Hm Hb Ht].
  split; [|split; [|split; [|split]]].
  - intros t1 t2 H1 H2 Heq. rewrite <- (Hb t1 H1), <- (Hb t2 H2), Heq. reflexivity.
  - exact Hb.
  - exact Ht.
  - intros. apply mintLease_bound_reverts. left. assumption.
  - intros a d Hd. destruct (Ht d Hd) as [Hx Hy]. split.
    + intros ->. unfold apply, step.
      destruct (_burn_Ok s _ Hx) as [s' E]. rewrite E.
      apply _burn_effect in E as [_ _ _ Hbind _].
      unfold tokenOfDomain at 1. rewrite Hbind, Hy. mrw. reflexivity.
    + intros Hne. destruct a as [e m | t'].
      * unfold apply, step. destruct (receive e s m) as [s'|msg] eqn:E; [|reflexivity].
        apply receive_effect in E.
        destruct E as [Ho Hl Hdt Hi | l newId Hle Hdates Hact Hfree Hnew Ho Hl Hdt Hi
                      | t0 Hex Hact Ho Hl Hdt Hi | t0 to Hex Hto Ho Hl Hdt Hi];
          unfold tokenOfDomain in *; rewrite Hdt; try reflexivity.
        assert (domainName l <> d) by congruence.
        mrw. reflexivity.
      * unfold apply, step. destruct (_burn s t') as [s'|msg] eqn:E; [|reflexivity].
        apply _burn_effect in E as [Hex _ _ Hbind _].
        assert (domainName (lease s t') <> d).
        { intros Heq. apply Hne. f_equal. rewrite <- (Hb t' Hex), Heq. reflexivity. }
        unfold tokenOfDomain at 1. rewrite Hbind. mrw. reflexivity.
Qed.

Lemma domain_binding_unique_witness :
  let s := run (constructor 1 9) one_lease in
  tokenOfDomain s "a.com" = 1 /\
  (forall t, _exists s t = true -> tokenOfDomain s (domainName (lease s t)) = t).
Proof.
  split; [vm_compute; reflexivity|].
  apply (domain_binding_unique 1 9 one_lease). vm_compute. reflexivity.
Defined.

(** Claim C7.  In every reachable state, every existing token's lease ends
    after it starts; [mintLease] with an end not after the start reverts and
    leaves the storage as it was. *)
Theorem lease_dates_ordered (deployer _treasury : address) (tr : list Action) :
  let s := run (constructor deployer _treasury) tr in
  (forall t, _exists s t = true -> startDate (lease s t) < endDate (lease s t)) /\
  (forall e lr le d sd ed p r h u, ed <= sd ->
     (exists m, mintLease e s lr le d sd ed p r h u = Revert m) /\
     apply s (Call e (MintLease lr le d sd ed p r h u)) = s).
Proof.
  intros s. split.
  - apply (run_invariant dated dated_effect).
    intros t. views. simpl. rewrite mread_empty. discriminate.
  - intros. apply mintLease_bound_reverts. right. assumption.
Qed.

Lemma lease_dates_ordered_witness :
  let s := run (constructor 1 9) one_lease in
  _exists s 1 = true /\ startDate (lease s 1) < endDate (lease s 1) /\
  apply s (Call (caller 1) (MintLease 2 3 "b.com" 20 20 5 "" "" "")) = s.
Proof.
  split; [vm_compute; reflexivity|]. split.
  - apply (proj1 (lease_dates_ordered 1 9 one_lease)). vm_compute. reflexivity.
  - apply (proj2 (lease_dates_ordered 1 9 one_lease)). lia.
Defined.

(** Claim C9.  In every reachable state the lessee recorded for an existing
    token is its ERC721 owner; a mint makes the lessee the owner of the new
    token, and a transfer makes the recipient both owner and lessee. *)
Theorem lessee_is_token_owner (deployer _treasury : address) (tr : list Action) :
  let s := run (constructor deployer _treasury) tr in
  (forall t, _exists s t = true -> ownerOf s t = Ok (lessee (lease s t))) /\
  (forall e lr le d sd ed p r h u s' newId,
     mintLease e s lr le d sd ed p r h u = Ok (s', newId) ->
     ownerOf s' newId = Ok le /\ lessee (lease s' newId) = le) /\
  (forall e from to t data s',
     transferFrom e s from to t = Ok s' \/
     safeTransferFrom e s from to t data = Ok s' ->
     ownerOf s' t = Ok to /\ lessee (lease s' t) = to).
Proof.
  intros s. split; [|split].
  - assert (H : held_by_lessee s).
    { apply (run_invariant held_by_lessee held_effect).
      intros t. views. simpl. rewrite mread_empty. discriminate. }
    intros t Hex. rewrite (H t Hex). unfold ownerOf. unfold _exists in Hex.
    rewrite Hex. reflexivity.
  - intros e lr le d sd ed p r h u s' newId H.
    apply mintLease_effect in H. tauto.
  - intros e from to t data s' [H | H].
    + unfold transferFrom in H. peel. apply _transfer_effect in H. tauto.
    + unfold safeTransferFrom in H. peel.
      match goal with H : _transfer _ _ _ _ = Ok _ |- _ => apply _transfer_effect in H end.
      tauto.
Qed.

Lemma lessee_is_token_owner_witness :
  let s := run (constructor 1 9) (one_lease ++ [Call (caller 3) (TransferFrom 3 4 1)]) in
  ownerOf s 1 = Ok (lessee (lease s 1)) /\ lessee (lease s 1) = 4.
Proof.
  split; [|vm_compute; reflexivity].
  apply (proj1 (lessee_is_token_owner 1 9 (one_lease ++ [Call (caller 3) (TransferFrom 3 4 1)]))).
  vm_compute. reflexivity.
Defined.

(** Claim C6, as the contract has it.  Once an existing lease is inactive, it
    stays inactive through every further action (within 2^256 - 1 actions in
    all); a further [terminateLease] on it reverts whoever calls and leaves
    the storage as it was.  The reason is "Lease already inactive" when the
    caller is the lessor or the contract owner, and "Only lessor or owner can
    terminate" otherwise, since the caller is checked first. *)
Theorem terminated_lease_stays_inactive (deployer _treasury : address)
    (tr tr' : list Action) (t : uint256) (e : Env) :
  Z.of_nat (length tr) + Z.of_nat (length tr') < 2 ^ 256 - 1 ->
  let s := run (constructor deployer _treasury) tr in
  _exists s t = true -> active (lease s t) = false ->
  active (lease (run s tr') t) = false /\
  terminateLease e s t =
    Revert (if (msg_sender e =? lessor (lease s t)) || (msg_sender e =? owner s)
            then "Lease already inactive"
            else "Only lessor or owner can terminate") /\
  apply s (Call e (TerminateLease t)) = s.
Proof.
  intros Hlen s Hex Hin.
  assert (HI : Inv (0 + Z.of_nat (length tr)) s).
  { apply Inv_run; [apply Inv_constructor | lia]. }
  split; [|split].
  - assert (He : ended s t).
    { split; [|assumption]. apply (inv_minted _ _ HI) in Hex. lia. }
    apply (ended_run tr' _ s t HI) in He; [apply He | lia].
  - apply terminateLease_inactive; assumption.
  - unfold apply, step, receive.
    rewrite (terminateLease_inactive e s t Hex Hin). reflexivity.
Qed.

Lemma terminated_lease_stays_inactive_witness :
  let s := run (constructor 1 9) terminated_once in
  active (lease (run s [Call (caller 1) (TerminateLease 1)]) 1) = false /\
  terminateLease (caller 1) s 1 = Revert "Lease already inactive".
Proof.
  assert (H := terminated_lease_stays_inactive 1 9 terminated_once
                 [Call (caller 1) (TerminateLease 1)] 1 (caller 1)).
  split; apply H; vm_compute; reflexivity.
Defined.

(** Claim C6 as stated fails: a second [terminateLease] sent by an account
    that is neither the lessor nor the owner reverts with another reason. *)
Lemma second_terminate_by_stranger :
  let s := run (constructor 1 9) terminated_once in
  _exists s 1 = true /\ active (lease s 1) = false /\
  terminateLease (caller 7) s 1 = Revert "Only lessor or owner can terminate" /\
  terminateLease (caller 7) s 1 <> Revert "Lease already inactive".
Proof.
  repeat split; try (vm_compute; reflexivity).
  vm_compute. discriminate.
Qed.

End LeaseFacts.

(** ** The listing routes *)

Module DomainsFacts.
Import Js Domains.

Section Handlers.
Context {platform : Platform}.

Lemma set_status_same (l : Listing) : set_status (status l) l = l.
Proof. destruct l; reflexivity. Qed.

Lemma set_status_valid (l : Listing) :
  Listing_valid l = true -> Listing_valid (set_status (Str "cancelled") l) = true.
Proof.
  unfold Listing_valid. simpl. intros Hv.
  repeat (apply andb_prop in Hv as [Hv ?]).
  repeat (apply andb_true_intro; split); assumption || reflexivity.
Qed.

(** *** What each handler leaves under a key that holds a row *)
Lemma create_listing_keeps (db : DB) (u nl : string) (b : PostBody) (d : Domain)
    (pk : string) (l : Listing) :
  Listings db !! pk = Some l ->
  Listings (fst (create_listing db u nl b d)) !! pk = Some l.
Proof.
  intros Hl. unfold create_listing, Listing_create. simpl.
  destruct (Listings db !! nl) eqn:E; simpl; [assumption|].
  match goal with |- context [if ?c then _ else _] => destruct c end; simpl; [|assumption].
  rewrite lookup_insert_ne; [assumption | congruence].
Qed.

Lemma Domain_create_Listings (db db' : DB) (d : Domain) :
  Domain_create db d = Done db' -> Listings db' = Listings db.
Proof.
  unfold Domain_create.
  destruct (Domains db !! Domain_id d); [discriminate|].
  destruct (Domain_findOne db (domainName d)); [discriminate|].
  destruct (Domain_valid d); [|discriminate].
  intros Hd. injection Hd as <-. reflexivity.
Qed.

Lemma post_keeps (db : DB) (u nd nl : string) (b : PostBody) (pk : string) (l : Listing) :
  Listings db !! pk = Some l ->
  Listings (fst (post_listings db u nd nl b)) !! pk = Some l.
Proof.
  intros Hl. unfold post_listings.
  destruct (Domain_findOne db (post_domainName b)) as [d|] eqn:Ef.
  - destruct (negb (ownerId d =? u)%string); simpl; [assumption|].
    apply create_listing_keeps. assumption.
  - destruct (Domain_create db (new_domain u nd b)) as [db1|] eqn:Ec; simpl;
      [|assumption].
    apply create_listing_keeps.
    rewrite (Domain_create_Listings _ _ _ Ec). assumption.
Qed.

Lemma Listing_save_valid (db : DB) (l : Listing) :
  Listing_valid l = true ->
  Listing_save db l = Done (mkDB (Domains db) (<[id l := l]> (Listings db))).
Proof. intros Hv. unfold Listing_save. rewrite Hv. reflexivity. Qed.

Lemma Listing_save_refused (db : DB) (l : Listing) :
  Listing_valid l = false -> Listing_save db l = Throws.
Proof. intros Hv. unfold Listing_save. rewrite Hv. reflexivity. Qed.

Lemma Listing_save_cases (db : DB) (l : Listing) :
  Listing_save db l = Done (mkDB (Domains db) (<[id l := l]> (Listings db))) \/
  Listing_save db l = Throws.
Proof. unfold Listing_save. destruct (Listing_valid l); auto. Qed.

(** The row a request finds is the row of a key. *)
Lemma Listing_found (db : DB) (pk' : string) (l2 : Listing) :
  consistent db -> Listing_findByPk db pk' = Done (Some l2) ->
  Listings db !! id l2 = Some l2.
Proof.
  intros Hc Hf. apply findByPk_found in Hf as (key & Hk & _).
  destruct (Hc key l2 Hk) as [-> _]. assumption.
Qed.

(** A row written back under its key leaves the other rows alone. *)
Lemma rewritten (db : DB) (pk : string) (l l2 new : Listing) :
  consistent db -> Listings db !! pk = Some l -> Listings db !! id l2 = Some l2 ->
  id new = id l2 ->
  (l2 = l /\ <[id new := new]> (Listings db) !! pk = Some new) \/
  (id l2 <> pk /\ <[id new := new]> (Listings db) !! pk = Some l).
Proof.
  intros Hc Hl H2 Hid. rewrite Hid.
  destruct (decide (id l2 = pk)) as [Heq|Hne].
  - left. rewrite Heq in *. split; [congruence | apply lookup_insert_eq].
  - right. split; [assumption|]. rewrite lookup_insert_ne by assumption. assumption.
Qed.

Lemma patch_cases (db : DB) (u pk' : string) (b : PatchBody) (pk : string) (l : Listing) :
  consistent db -> Listings db !! pk = Some l ->
  let out := patch_listings_id db u pk' b in
  Domains (fst out) = Domains db /\
  (Listing_findByPk db pk' = Done (Some l) -> u = lessorId l ->
     if Listing_valid (apply_patch b l)
     then code (snd out) = 200 /\ Listings (fst out) !! pk = Some (apply_patch b l)
     else code (snd out) = 500 /\ fst out = db) /\
  (Listing_findByPk db pk' = Done (Some l) -> u <> lessorId l ->
     code (snd out) = 403 /\ fst out = db) /\
  (Listing_findByPk db pk' <> Done (Some l) ->
     Listings (fst out) !! pk = Some l).
Proof.
  intros Hc Hl out. subst out. unfold patch_listings_id.
  destruct (Listing_findByPk db pk') as [[l2|]|] eqn:Ef; simpl.
  - pose proof (Listing_found db pk' l2 Hc Ef) as H2.
    destruct (String.eqb_spec (lessorId l2) u) as [Hu|Hu]; simpl.
    + destruct (Listing_valid (apply_patch b l2)) eqn:Ev.
      * rewrite (Listing_save_valid db _ Ev). simpl.
        split; [reflexivity|].
        destruct (rewritten db pk l l2 (apply_patch b l2) Hc Hl H2 eq_refl)
          as [[-> Hw] | [Hne Hw]].
        -- split; [|split].
           ++ intros _ _. rewrite Ev. auto.
           ++ intros _ Hx. congruence.
           ++ intros Hx. contradiction.
        -- split; [|split].
           ++ intros Hx. injection Hx as ->.
              destruct (Hc pk l Hl) as [Hid _]. congruence.
           ++ intros Hx. injection Hx as ->.
              destruct (Hc pk l Hl) as [Hid _]. congruence.
           ++ intros _. assumption.
      * rewrite (Listing_save_refused db _ Ev). simpl.
        split; [reflexivity|]. split; [|split].
        -- intros Hx _. injection Hx as ->. rewrite Ev. auto.
        -- intros Hx Hy. injection Hx as ->. congruence.
        -- intros _. assumption.
    + split; [reflexivity|]. split; [|split].
      * intros Hx Hy. injection Hx as ->. congruence.
      * intros _ _. auto.
      * intros _. assumption.
  - split; [reflexivity|]. split; [|split]; try discriminate. intros _. assumption.
  - split; [reflexivity|]. split; [|split]; try discriminate. intros _. assumption.
Qed.

Lemma delete_cases (db : DB) (u pk' : string) (pk : string) (l : Listing) :
  consistent db -> Listings db !! pk = Some l ->
  let db' := fst (delete_listings_id db u pk') in
  Listings db' !! pk = Some l \/
  (u = lessorId l /\ Listing_findByPk db pk' = Done (Some l) /\
   is_string (status l) "leased" = false /\
   Listings db' !! pk = Some (set_status (Str "cancelled") l)).
Proof.
  intros Hc Hl. unfold delete_listings_id.
  destruct (Listing_findByPk db pk') as [[l2|]|] eqn:Ef; simpl; [|auto|auto].
  pose proof (Listing_found db pk' l2 Hc Ef) as H2.
  destruct (String.eqb_spec (lessorId l2) u) as [Hu|Hu]; simpl; [|auto].
  destruct (is_string (status l2) "leased") eqn:El; simpl; [auto|].
  destruct (Listing_save_cases db (set_status (Str "cancelled") l2)) as [-> | ->];
    simpl; [|auto].
  destruct (rewritten db pk l l2 (set_status (Str "cancelled") l2) Hc Hl H2 eq_refl)
    as [[-> Hw] | [Hne Hw]]; [right | left]; auto.
Qed.

Lemma increment_id (l l1 : Listing) :
  increment_viewsCount l = Done l1 -> l1 = set_viewsCount (viewsCount l1) l.
Proof.
  unfold increment_viewsCount.
  destruct (viewsCount l) as [| |?|[n| |]|?|?|?] eqn:E; try discriminate.
  - intros Hd. injection Hd as <-. destruct l; reflexivity.
  - destruct (n <? 2147483647); [|discriminate]. intros Hd. injection Hd as <-.
    reflexivity.
Qed.

Lemma get_cases (db : DB) (pk' : string) (pk : string) (l : Listing) :
  consistent db -> Listings db !! pk = Some l ->
  let out := get_listings_id db pk' in
  Domains (fst out) = Domains db /\
  (Listing_findByPk db pk' = Done (Some l) ->
     match increment_viewsCount l with
     | Done l1 => code (snd out) = 200 /\ Listings (fst out) !! pk = Some l1
     | Throws => code (snd out) = 500 /\ fst out = db
     end) /\
  (Listing_findByPk db pk' <> Done (Some l) -> Listings (fst out) !! pk = Some l).
Proof.
  intros Hc Hl out. subst out. unfold get_listings_id.
  destruct (Listing_findByPk db pk') as [[l2|]|] eqn:Ef; simpl.
  - pose proof (Listing_found db pk' l2 Hc Ef) as H2.
    destruct (increment_viewsCount l2) as [l3|] eqn:Ei; simpl.
    + assert (Hid : id l3 = id l2).
      { rewrite (increment_id _ _ Ei). reflexivity. }
      split; [reflexivity|].
      destruct (rewritten db pk l l2 l3 Hc Hl H2 Hid) as [[-> Hw] | [Hne Hw]];
        rewrite Hid in Hw.
      * split.
        -- intros _. rewrite Ei. auto.
        -- intros Hx. contradiction.
      * split.
        -- intros Hx. injection Hx as ->. destruct (Hc pk l Hl) as [Hi _]. congruence.
        -- intros _. assumption.
    + split; [reflexivity|]. split.
      * intros Hx. injection Hx as ->. rewrite Ei. auto.
      * intros _. assumption.
  - split; [reflexivity|]. split; [discriminate|]. intros _. assumption.
  - split; [reflexivity|]. split; [discriminate|]. intros _. assumption.
Qed.

(** *** The claims about the listing routes *)

(** Claim C3, as the handler has it.  A cancel by the listing's lessor is
    refused, with status 400 and nothing written, exactly when the listing is
    leased; from every other status, expired and cancelled included, it
    succeeds with status 200 and the listing's status becomes cancelled, the
    rest of the tables being untouched. *)
Theorem cancel_refused_only_when_leased (db : DB) (userId pk : string) (l : Listing) :
  consistent db -> Listings db !! pk = Some l -> lessorId l = userId ->
  let out := delete_listings_id db userId pk in
  if is_string (status l) "leased"
  then code (snd out) = 400 /\ fst out = db
  else code (snd out) = 200 /\ Domains (fst out) = Domains db /\
       Listings (fst out) = <[pk := set_status (Str "cancelled") l]> (Listings db).
Proof.
  intros Hc Hl Hu out. subst out. unfold delete_listings_id, Listing_findByPk.
  rewrite (findByPk_hit _ _ _ Hl), Hu, String.eqb_refl. simpl.
  destruct (is_string (status l) "leased"); simpl; [split; reflexivity|].
  destruct (Hc pk l Hl) as [Hid Hv].
  rewrite Listing_save_valid by (apply set_status_valid; assumption).
  simpl. rewrite Hid. repeat split.
Qed.


Lemma addressed_or_not (db : DB) (pk' pk : string) (l : Listing) :
  consistent db -> Listings db !! pk = Some l ->
  Listing_findByPk db pk' = Done (Some l) \/ Listing_findByPk db pk' <> Done (Some l).
Proof.
  intros Hc Hl. destruct (Listing_findByPk db pk') as [[l2|]|] eqn:Ef;
    [|right; discriminate|right; discriminate].
  pose proof (Listing_found db pk' l2 Hc Ef) as H2.
  destruct (decide (id l2 = pk)) as [Heq|Hne].
  - left. rewrite Heq in H2. congruence.
  - right. intros Hx. injection Hx as ->. destruct (Hc pk l Hl) as [Hid _]. congruence.
Qed.

(** Claim C4, as the handlers have it.  A cancelled listing is never removed,
    and no request changes its key, domain, lessor, lease type, currency,
    duration, NFT fields, QR code or featured flag.  The creation of a
    listing and a cancel leave it exactly as it is, and so does every request
    that finds another listing or none, and a PATCH by another user.  But a
    PATCH by its lessor is not refused for the status: it is answered 200
    and lays the supplied fields over the listing, status included, whenever
    the columns take the row that results, and is answered 500 and writes
    nothing when they do not.  A GET of it still counts a view, and is
    answered 500 with nothing written only when the counter is at
    2147483647. *)
Theorem cancelled_listing_frame (db : DB) (req : Request) (pk : string) (l : Listing) :
  consistent db -> Listings db !! pk = Some l -> status l = Str "cancelled" ->
  let out := handle db req in
  Listing_findByPk db pk = Done (Some l) /\
  exists l', Listings (fst out) !! pk = Some l' /\
    id l' = id l /\ domainId l' = domainId l /\ lessorId l' = lessorId l /\
    leaseType l' = leaseType l /\ priceCurrency l' = priceCurrency l /\
    durationDays l' = durationDays l /\
    nftContractAddress l' = nftContractAddress l /\ nftTokenId l' = nftTokenId l /\
    qrCodeUrl l' = qrCodeUrl l /\ featured l' = featured l /\
    match req with
    | POST_listings _ _ _ _ | DELETE_listings_id _ _ => l' = l
    | PATCH_listings_id u pk' b =>
        (Listing_findByPk db pk' = Done (Some l) -> u = lessorId l ->
           if Listing_valid (apply_patch b l)
           then code (snd out) = 200 /\ l' = apply_patch b l
           else code (snd out) = 500 /\ l' = l) /\
        (Listing_findByPk db pk' <> Done (Some l) \/ u <> lessorId l -> l' = l)
    | GET_listings_id pk' =>
        (Listing_findByPk db pk' = Done (Some l) ->
           match viewsCount l with
           | Number (Num n) =>
               if n <? 2147483647
               then code (snd out) = 200 /\
                    l' = set_viewsCount (Number (Num (n + 1))) l
               else code (snd out) = 500 /\ l' = l
           | _ => l' = l
           end) /\
        (Listing_findByPk db pk' <> Done (Some l) -> l' = l)
    end.
Proof.
  intros Hc Hl Hst out. subst out.
  split; [apply findByPk_hit; assumption|].
  destruct req as [u nd nl b | u pk' b | u pk' | pk']; simpl.
  - exists l. rewrite (post_keeps db u nd nl b pk l Hl). repeat split.
  - destruct (patch_cases db u pk' b pk l Hc Hl) as (_ & Hyes & Hother & Hno).
    destruct (addressed_or_not db pk' pk l Hc Hl) as [Ha|Ha].
    + destruct (String.eqb_spec u (lessorId l)) as [Hu|Hu].
      * specialize (Hyes Ha Hu).
        destruct (Listing_valid (apply_patch b l)) eqn:Ev; destruct Hyes as [Hcode Hw].
        -- exists (apply_patch b l). split; [assumption|].
           repeat split; trivial; tauto.
        -- exists l. rewrite Hw. split; [assumption|].
           repeat split; trivial; tauto.
      * destruct (Hother Ha Hu) as [_ Hw]. exists l. rewrite Hw.
        split; [assumption|]. repeat split; trivial; tauto.
    + exists l. split; [apply Hno; assumption|]. repeat split; trivial; tauto.
  - exists l. split; [|repeat split].
    destruct (delete_cases db u pk' pk l Hc Hl) as [Hk | (_ & _ & _ & Hk)];
      [assumption|].
    rewrite Hk, <- Hst, set_status_same. reflexivity.
  - destruct (get_cases db pk' pk l Hc Hl) as (_ & Hyes & Hno).
    destruct (addressed_or_not db pk' pk l Hc Hl) as [Ha|Ha].
    + specialize (Hyes Ha). unfold increment_viewsCount in Hyes.
      destruct (viewsCount l) as [| |?|[n| |]|?|?|?] eqn:Ev;
        try (destruct Hyes as [_ Hw]; exists l; rewrite Hw;
             split; [assumption|]; repeat split; trivial; tauto).
      * destruct Hyes as [_ Hw]. exists l. split; [assumption|].
        repeat split; trivial; tauto.
      * destruct (n <? 2147483647) eqn:En; destruct Hyes as [Hcode Hw].
        -- exists (set_viewsCount (Number (Num (n + 1))) l).
           split; [assumption|]. repeat split; trivial; tauto.
        -- exists l. rewrite Hw. split; [assumption|].
           repeat split; trivial; tauto.
    + exists l. split; [apply Hno; assumption|]. repeat split; trivial; tauto.
Qed.

Lemma days_takes (m : Z) :
  durationDays_takes (Number (times (Number (Num m)) (Number (Num 30)))) = int4 (m * 30) /\
  (int4 (m * 30) = true ->
   times (Number (Num m)) (Number (Num 30)) = Num (m * 30)).
Proof.
  unfold times, to_number.
  destruct (Z.leb_spec (Z.abs (m * 30)) (2 ^ 53)) as [Hle|Hgt].
  - split; reflexivity.
  - assert (Hout : int4 (m * 30) = false).
    { unfold int4. apply andb_false_iff.
      change (2 ^ 53) with 9007199254740992 in Hgt.
      destruct (Z.leb_spec (-2147483648) (m * 30)); [right | left; reflexivity].
      apply Z.leb_gt. lia. }
    split; [simpl; symmetry; assumption|]. rewrite Hout. discriminate.
Qed.

Lemma new_listing_valid_iff (u nl : string) (b : PostBody) (d : Domain) (p m : Z) :
  post_price b = Number (Num p) -> post_durationMonths b = Number (Num m) ->
  TEXT_takes (post_description b) = true -> TEXT_takes (post_restrictions b) = true ->
  tags_takes (or (post_tags b) (Arr [])) = true ->
  Listing_valid (new_listing u nl b d) = (Z.abs p <=? 99999999) && int4 (m * 30).
Proof.
  intros Hp Hm Hd Hr Ht. unfold Listing_valid, new_listing.
  cbn [priceAmount durationDays restrictions description tags status leaseType viewsCount].
  rewrite Hp, Hm, (proj1 (days_takes m)), Hd, Hr, Ht. simpl.
  rewrite !andb_true_r. reflexivity.
Qed.

(** Claim C5, as the handler has it.  The handler does not look at the sign
    of the price or of the duration.  When the price and the number of
    months are integers, the description, the restrictions and the tags are
    values their columns take, the key of the new listing is free, and the
    domain is the caller's or can be created for the caller, the request is
    answered 201 exactly when the price has at most eight digits and thirty
    times the number of months is in the range of INTEGER, whatever their
    signs; the listing is then stored with that price and thirty times that
    many days, and otherwise the answer is 500 and no listing is stored.
    Every request answered 201 has stored an active listing holding the
    price as given, and every other request leaves the Listings table as it
    was. *)
Theorem publish_ignores_sign (db : DB) (userId newDomainId newListingId : string)
    (b : PostBody) :
  let out := post_listings db userId newDomainId newListingId b in
  (forall p m, post_price b = Number (Num p) ->
     post_durationMonths b = Number (Num m) ->
     TEXT_takes (post_description b) = true ->
     TEXT_takes (post_restrictions b) = true ->
     tags_takes (or (post_tags b) (Arr [])) = true ->
     Listings db !! newListingId = None ->
     match Domain_findOne db (post_domainName b) with
     | Some d => ownerId d = userId
     | None => Domains db !! newDomainId = None /\
               Domain_valid (new_domain userId newDomainId b) = true
     end ->
     if (Z.abs p <=? 99999999) && int4 (m * 30)
     then code (snd out) = 201 /\
          exists l, Listings (fst out) !! newListingId = Some l /\
            priceAmount l = Number (Num p) /\ durationDays l = Number (Num (m * 30)) /\
            status l = Str "active"
     else code (snd out) = 500 /\ Listings (fst out) = Listings db) /\
  (code (snd out) = 201 ->
     exists l, shown (snd out) = Some l /\
       Listings (fst out) = <[newListingId := l]> (Listings db) /\
       Listings db !! newListingId = None /\
       status l = Str "active" /\ priceAmount l = post_price b) /\
  (code (snd out) <> 201 -> Listings (fst out) = Listings db).
Proof.
  intros out.
  assert (Hcreate : forall db0 d,
    let o := create_listing db0 userId newListingId b d in
    (forall p m, post_price b = Number (Num p) ->
       post_durationMonths b = Number (Num m) ->
       TEXT_takes (post_description b) = true ->
       TEXT_takes (post_restrictions b) = true ->
       tags_takes (or (post_tags b) (Arr [])) = true ->
       Listings db0 !! newListingId = None ->
       if (Z.abs p <=? 99999999) && int4 (m * 30)
       then code (snd o) = 201 /\
            exists l, Listings (fst o) !! newListingId = Some l /\
              priceAmount l = Number (Num p) /\
              durationDays l = Number (Num (m * 30)) /\
              status l = Str "active"
       else code (snd o) = 500 /\ Listings (fst o) = Listings db0) /\
    (code (snd o) = 201 ->
       exists l, shown (snd o) = Some l /\
         Listings (fst o) = <[newListingId := l]> (Listings db0) /\
         Listings db0 !! newListingId = None /\
         status l = Str "active" /\ priceAmount l = post_price b) /\
    (code (snd o) <> 201 -> Listings (fst o) = Listings db0)).
  { intros db0 d o. subst o. unfold create_listing, Listing_create.
    cbn [id new_listing].
    split; [|split].
    - intros p m Hp Hm Hde Hre Hta Hfree. rewrite Hfree.
      rewrite (new_listing_valid_iff userId newListingId b d p m Hp Hm Hde Hre Hta).
      destruct ((Z.abs p <=? 99999999) && int4 (m * 30)) eqn:Eok; simpl.
      + split; [reflexivity|]. eexists. rewrite lookup_insert_eq.
        split; [reflexivity|]. simpl. rewrite Hp, Hm.
        apply andb_prop in Eok as [_ Ei].
        rewrite (proj2 (days_takes m) Ei). repeat split.
      + split; reflexivity.
    - destruct (Listings db0 !! newListingId); simpl; [discriminate|].
      destruct (Listing_valid (new_listing userId newListingId b d)); simpl;
        [|discriminate].
      intros _. eexists. repeat split.
    - destruct (Listings db0 !! newListingId); simpl; [reflexivity|].
      destruct (Listing_valid (new_listing userId newListingId b d)); simpl;
        [|reflexivity].
      intros Hx. exfalso. apply Hx. reflexivity. }
  subst out. unfold post_listings.
  destruct (Domain_findOne db (post_domainName b)) as [d|] eqn:Ef.
  - destruct (String.eqb_spec (ownerId d) userId) as [Hu|Hu]; simpl.
    + destruct (Hcreate db d) as (H1 & H2 & H3).
      split; [|split]; [|assumption|assumption].
      intros p m Hp Hm Hde Hre Hta Hfree _. apply (H1 p m); assumption.
    + split; [|split].
      * intros p m _ _ _ _ _ _ Hd. contradiction.
      * discriminate.
      * reflexivity.
  - destruct (Domain_create db (new_domain userId newDomainId b)) as [db1|] eqn:Ec.
    + pose proof (Domain_create_Listings _ _ _ Ec) as Hsame.
      destruct (Hcreate db1 (new_domain userId newDomainId b)) as (H1 & H2 & H3).
      rewrite Hsame in *.
      split; [|split]; [|assumption|assumption].
      intros p m Hp Hm Hde Hre Hta Hfree _. apply (H1 p m); assumption.
    + simpl. split; [|split].
      * intros p m _ _ _ _ _ _ [Hd Hv]. exfalso.
        unfold Domain_create in Ec. cbn [Domain_id new_domain domainName] in Ec.
        rewrite Hd, Ef, Hv in Ec. discriminate.
      * discriminate.
      * reflexivity.
Qed.

Lemma or_falsy (a b : value) : truthy a = false -> or a b = b.
Proof. unfold or. intros ->. reflexivity. Qed.

Lemma or_truthy (a b : value) : truthy a = true -> or a b = a.
Proof. unfold or. intros ->. reflexivity. Qed.

Lemma or_zero (a b : value) : or a b = Number (Num 0) -> b = Number (Num 0).
Proof.
  unfold or. destruct (truthy a) eqn:E; [|trivial].
  intros ->. discriminate.
Qed.

Lemma or_takes (f : value -> bool) (a b : value) :
  f b = true -> (f (or a b) = true <-> (truthy a = true -> f a = true)).
Proof.
  intros Hb. unfold or. destruct (truthy a); split; auto. intros _. discriminate.
Qed.

Lemma truthy_not_nullish (v : value) : truthy v = true -> nullish v = false.
Proof. destruct v; simpl; intros Ht; reflexivity || discriminate. Qed.

(** The columns take the row a PATCH makes exactly when they take each value
    it supplies that is truthy. *)
Lemma valid_patch (b : PatchBody) (l : Listing) :
  Listing_valid l = true ->
  (Listing_valid (apply_patch b l) = true <->
   (truthy (patch_price b) = true -> priceAmount_takes (patch_price b) = true) /\
   (truthy (patch_description b) = true -> TEXT_takes (patch_description b) = true) /\
   (truthy (patch_restrictions b) = true -> TEXT_takes (patch_restrictions b) = true) /\
   (truthy (patch_tags b) = true -> tags_takes (patch_tags b) = true) /\
   (truthy (patch_status b) = true ->
    in_enum Listing_status_enum (patch_status b) = true)).
Proof.
  unfold Listing_valid. cbn [apply_patch priceAmount durationDays restrictions
    description tags status leaseType viewsCount].
  intros Hv. repeat (apply andb_prop in Hv as [Hv ?]).
  rewrite !andb_true_iff.
  rewrite (or_takes priceAmount_takes) by assumption.
  rewrite (or_takes TEXT_takes (patch_restrictions b)) by assumption.
  rewrite (or_takes TEXT_takes (patch_description b)) by assumption.
  rewrite (or_takes tags_takes) by assumption.
  rewrite (or_takes (fun v => nullish v || in_enum Listing_status_enum v)) by assumption.
  split.
  - intros (((((((Hp & _) & Hr) & Hd) & Ht) & Hs) & _) & _).
    repeat split; try assumption.
    intros Hx. specialize (Hs Hx). rewrite (truthy_not_nullish _ Hx) in Hs. exact Hs.
  - intros (Hp & Hd & Hr & Ht & Hs).
    repeat split; try assumption.
    intros Hx. rewrite (Hs Hx). apply orb_true_r.
Qed.

(** Claim C10, as the handler has it.  A PATCH touches no other row and no
    domain.  In the row it addresses, a field supplied with a falsy value
    (absent, null, false, the number 0, the empty string) keeps its stored
    value, so the number 0 is never written as the price; the attributes
    other than price, description, restrictions, tags and status keep theirs
    whatever is supplied.  A truthy value replaces the stored one, the empty
    array of tags and the string "0" as a price too: the lessor's PATCH is
    answered 200 and stores every truthy value supplied exactly when each of
    them is taken by its column, and is answered 500 and writes nothing when
    one is not, as the string "abc" as a price; anyone else's is answered
    403. *)
Theorem patch_keeps_falsy_fields (db : DB) (userId pk : string) (b : PatchBody)
    (l : Listing) :
  consistent db -> Listings db !! pk = Some l ->
  let out := patch_listings_id db userId pk b in
  Domains (fst out) = Domains db /\
  (forall pk' l0, pk' <> pk -> Listings db !! pk' = Some l0 ->
     Listings (fst out) !! pk' = Some l0) /\
  (exists l', Listings (fst out) !! pk = Some l' /\
    (truthy (patch_price b) = false -> priceAmount l' = priceAmount l) /\
    (truthy (patch_description b) = false -> description l' = description l) /\
    (truthy (patch_restrictions b) = false -> restrictions l' = restrictions l) /\
    (truthy (patch_tags b) = false -> tags l' = tags l) /\
    (truthy (patch_status b) = false -> status l' = status l) /\
    (priceAmount l' = Number (Num 0) -> priceAmount l = Number (Num 0)) /\
    (id l' = id l /\ domainId l' = domainId l /\ lessorId l' = lessorId l /\
     leaseType l' = leaseType l /\ priceCurrency l' = priceCurrency l /\
     durationDays l' = durationDays l /\
     nftContractAddress l' = nftContractAddress l /\ nftTokenId l' = nftTokenId l /\
     qrCodeUrl l' = qrCodeUrl l /\ viewsCount l' = viewsCount l /\
     featured l' = featured l) /\
    (code (snd out) = 200 -> l' = apply_patch b l) /\
    (userId = lessorId l ->
       if Listing_valid (apply_patch b l)
       then code (snd out) = 200 /\ l' = apply_patch b l
       else code (snd out) = 500 /\ l' = l) /\
    (userId <> lessorId l -> code (snd out) = 403 /\ l' = l)) /\
  (truthy (patch_price b) = true -> priceAmount (apply_patch b l) = patch_price b) /\
  (truthy (patch_description b) = true ->
     description (apply_patch b l) = patch_description b) /\
  (truthy (patch_restrictions b) = true ->
     restrictions (apply_patch b l) = patch_restrictions b) /\
  (truthy (patch_tags b) = true -> tags (apply_patch b l) = patch_tags b) /\
  (truthy (patch_status b) = true -> status (apply_patch b l) = patch_status b) /\
  (Listing_valid (apply_patch b l) = true <->
   (truthy (patch_price b) = true -> priceAmount_takes (patch_price b) = true) /\
   (truthy (patch_description b) = true -> TEXT_takes (patch_description b) = true) /\
   (truthy (patch_restrictions b) = true -> TEXT_takes (patch_restrictions b) = true) /\
   (truthy (patch_tags b) = true -> tags_takes (patch_tags b) = true) /\
   (truthy (patch_status b) = true ->
    in_enum Listing_status_enum (patch_status b) = true)) /\
  truthy (Arr []) = true /\ tags_takes (Arr []) = true /\
  truthy (Str "0") = true /\ priceAmount_takes (Str "0") = true /\
  truthy (Str "abc") = true /\ priceAmount_takes (Str "abc") = false.
Proof.
  intros Hc Hl out. subst out.
  pose proof (findByPk_hit (Listings db) pk l Hl) as Ha.
  destruct (patch_cases db userId pk b pk l Hc Hl) as (Hdom & Hyes & Hother & _).
  split; [assumption|]. split; [|split].
  - intros pk' l0 Hne H0.
    destruct (patch_cases db userId pk b pk' l0 Hc H0) as (_ & _ & _ & Hno).
    apply Hno. unfold Listing_findByPk. rewrite Ha. intros Hx. injection Hx as ->.
    destruct (Hc pk l0 Hl) as [Hi1 _]. destruct (Hc pk' l0 H0) as [Hi2 _]. congruence.
  - destruct (String.eqb_spec userId (lessorId l)) as [Hu|Hu].
    + specialize (Hyes Ha Hu).
      destruct (Listing_valid (apply_patch b l)) eqn:Ev.
      * destruct Hyes as [Hcode Hw]. exists (apply_patch b l).
        split; [assumption|]. simpl.
        repeat split; try (intros Hf; apply or_falsy; assumption);
          try assumption; try contradiction.
        apply or_zero.
      * destruct Hyes as [Hcode Hw]. exists l. rewrite Hw.
        split; [assumption|]. repeat split; trivial; try contradiction.
        intros Hx. rewrite Hcode in Hx. discriminate.
    + destruct (Hother Ha Hu) as [Hcode Hw]. exists l. rewrite Hw.
      split; [assumption|]. repeat split; trivial; try contradiction.
      intros Hx. rewrite Hcode in Hx. discriminate.
  - destruct (Hc pk l Hl) as [_ Hv].
    split; [apply or_truthy|]. split; [apply or_truthy|]. split; [apply or_truthy|].
    split; [apply or_truthy|]. split; [apply or_truthy|].
    split; [apply valid_patch; assumption|].
    repeat split; reflexivity.
Qed.

End Handlers.

(** *** On the sample data *)

#[local] Existing Instance strict.

Lemma shop_consistent (st : string) :
  In st Listing_status_enum -> consistent (shop st).
Proof.
  intros Hin pk l Hl. simpl in Hl.
  apply lookup_singleton_Some in Hl as [<- <-]. split; [reflexivity|].
  simpl in Hin. destruct Hin as [<-|[<-|[<-|[<-|[]]]]]; reflexivity.
Qed.

Lemma cancel_refused_only_when_leased_witness :
  code (snd (delete_listings_id (shop "leased") "alice" "L1")) = 400 /\
  fst (delete_listings_id (shop "leased") "alice" "L1") = shop "leased".
Proof.
  apply (cancel_refused_only_when_leased (shop "leased") "alice" "L1" (sample "leased")).
  - apply shop_consistent. simpl. tauto.
  - reflexivity.
  - reflexivity.
Defined.

(** Claim C3 as stated fails: the cancel of an expired listing is answered
    200 and moves the listing to cancelled. *)
Lemma cancel_of_expired_listing_succeeds :
  let out := delete_listings_id (shop "expired") "alice" "L1" in
  status (sample "expired") = Str "expired" /\
  code (snd out) = 200 /\
  status <$> Listings (fst out) !! "L1" = Some (Str "cancelled").
Proof. vm_compute. repeat split. Qed.

Lemma cancelled_listing_frame_witness :
  exists l', Listings (fst (handle (shop "cancelled")
                              (DELETE_listings_id "alice" "L1"))) !! "L1" = Some l' /\
             l' = sample "cancelled".
Proof.
  destruct (cancelled_listing_frame (shop "cancelled") (DELETE_listings_id "alice" "L1")
              "L1" (sample "cancelled")) as (_ & l' & Hl & H).
  - apply shop_consistent. simpl. tauto.
  - reflexivity.
  - reflexivity.
  - exists l'. split; [assumption | apply H].
Defined.

(** Claim C4 as stated fails: the lessor's PATCH puts a cancelled listing
    back to active with a new price, and a GET changes its view counter. *)
Lemma cancelled_listing_is_patched :
  let patch := mkPatchBody (Number (Num 5)) Undefined Undefined Undefined (Str "active") in
  let out := handle (shop "cancelled") (PATCH_listings_id "alice" "L1" patch) in
  let seen := handle (shop "cancelled") (GET_listings_id "L1") in
  status (sample "cancelled") = Str "cancelled" /\
  status <$> Listings (fst out) !! "L1" = Some (Str "active") /\
  priceAmount <$> Listings (fst out) !! "L1" = Some (Number (Num 5)) /\
  viewsCount <$> Listings (fst seen) !! "L1" = Some (Number (Num 1)).
Proof. vm_compute. repeat split. Qed.

Lemma publish_ignores_sign_witness :
  code (snd (post_listings (shop "active") "alice" "D2" "L2" free_of_charge)) = 201.
Proof.
  apply (proj1 (publish_ignores_sign (shop "active") "alice" "D2" "L2" free_of_charge)
           (-5) 0); vm_compute; reflexivity.
Defined.

(** Claim C5 as stated fails: a price of -5 for 0 months is published. *)
Lemma publish_accepts_negative_price :
  let out := post_listings (shop "active") "alice" "D2" "L2" free_of_charge in
  code (snd out) = 201 /\
  priceAmount <$> Listings (fst out) !! "L2" = Some (Number (Num (-5))) /\
  durationDays <$> Listings (fst out) !! "L2" = Some (Number (Num 0)) /\
  status <$> Listings (fst out) !! "L2" = Some (Str "active").
Proof. vm_compute. repeat split. Qed.

Lemma patch_keeps_falsy_fields_witness :
  exists l', Listings (fst (patch_listings_id (shop "active") "alice" "L1" nothing_new))
               !! "L1" = Some l' /\
             priceAmount l' = Number (Num 100).
Proof.
  destruct (patch_keeps_falsy_fields (shop "active") "alice" "L1" nothing_new
              (sample "active")) as (_ & _ & (l' & Hl & Hp & _) & _).
  - apply shop_consistent. simpl. tauto.
  - reflexivity.
  - exists l'. split; [assumption | apply Hp; reflexivity].
Defined.

(** Claim C10 as stated fails: an empty list of tags is truthy and replaces
    the stored tags, and so does the string "0" the stored price. *)
Lemma patch_stores_empty_tags :
  let patch := mkPatchBody (Str "0") Undefined Undefined (Arr []) Undefined in
  let out := patch_listings_id (shop "active") "alice" "L1" patch in
  tags (sample "active") = Arr [Str "premium"] /\
  priceAmount (sample "active") = Number (Num 100) /\
  code (snd out) = 200 /\
  tags <$> Listings (fst out) !! "L1" = Some (Arr []) /\
  priceAmount <$> Listings (fst out) !! "L1" = Some (Str "0").
Proof. vm_compute. repeat split. Qed.

End DomainsFacts.

(** ** Sessions *)

Module AuthFacts.
Import Auth AuthSamples.

Lemma ms_7d : ms "7d" = Some 604800000.
Proof. reflexivity. Qed.

(** A token [generateToken] hands out, at the clock of the request. *)
Lemma generateToken_Done (e : Env) (uid : string) (t : Token) :
  generateToken e uid = Done t ->
  userId t = uid /\ iat t = now e /\ nbf t = None /\
  exp t = Some (now e + 7 * 86400) /\
  JWT_SECRET e = Some (signed_with t) /\ signed_with t <> "".
Proof.
  unfold generateToken, jwt_sign. rewrite ms_7d.
  destruct (JWT_SECRET e) as [key|]; [|discriminate].
  destruct (String.eqb_spec key ""); [discriminate|].
  intros Hd. injection Hd as <-. simpl.
  split; [reflexivity|]. split; [reflexivity|]. split; [reflexivity|].
  split; [change (604800000 / 1000) with 604800; f_equal; lia|].
  split; [reflexivity | assumption].
Qed.

Lemma generateToken_key (e : Env) (uid key : string) :
  JWT_SECRET e = Some key -> key <> "" ->
  generateToken e uid = Done (mkToken uid (now e) None (Some (now e + 604800)) key).
Proof.
  intros Hk Hne. unfold generateToken, jwt_sign. rewrite Hk, ms_7d.
  destruct (String.eqb_spec key ""); [contradiction|]. reflexivity.
Qed.

Lemma issue_with_key (e : Env) (users : gmap string User) (c : Z) (uid key : string) :
  JWT_SECRET e = Some key -> key <> "" ->
  issue e users c uid =
    (users, mkResponse c (Some (mkToken uid (now e) None (Some (now e + 604800)) key))
              (Some uid)).
Proof.
  intros Hk Hne. unfold issue. rewrite (generateToken_key e uid key Hk Hne). reflexivity.
Qed.

Lemma issue_token (e : Env) (users : gmap string User) (c : Z) (uid : string) (t : Token) :
  token (snd (issue e users c uid)) = Some t ->
  fst (issue e users c uid) = users /\ generateToken e uid = Done t.
Proof.
  unfold issue. destruct (generateToken e uid); simpl; [|discriminate].
  intros Hd. injection Hd as <-. auto.
Qed.

Lemma jwt_verify_Done (p : Presented) (secret : option string) (ignore : bool)
    (clock : Z) (t : Token) :
  jwt_verify p secret ignore clock = Done t <->
  p = Jwt t /\ secret = Some (signed_with t) /\ signed_with t <> "" /\
  not_yet t clock = false /\ (ignore = true \/ expired t clock = false).
Proof.
  unfold jwt_verify. split.
  - destruct p as [|t0]; [discriminate|]. destruct secret as [key|]; [|discriminate].
    destruct (String.eqb_spec key ""); [discriminate|].
    destruct (String.eqb_spec (signed_with t0) key) as [<-|]; [|discriminate]. simpl.
    destruct (not_yet t0 clock) eqn:En; [discriminate|].
    destruct ignore; simpl.
    + intros Hdone. injection Hdone as <-. auto 6.
    + destruct (expired t0 clock) eqn:Ex; [discriminate|].
      intros Hdone. injection Hdone as <-. auto 6.
  - intros (-> & -> & Hne & Hn & Hc).
    destruct (String.eqb_spec (signed_with t) ""); [contradiction|].
    rewrite String.eqb_refl, Hn. simpl.
    destruct ignore; simpl; [reflexivity|].
    destruct Hc as [Hc|Hc]; [discriminate|]. rewrite Hc. reflexivity.
Qed.

Lemma jwt_verify_signed (t : Token) (key : string) (ignore : bool) (clock : Z) :
  signed_with t = key -> key <> "" ->
  jwt_verify (Jwt t) (Some key) ignore clock =
    if not_yet t clock then Throws
    else if negb ignore && expired t clock then Throws else Done t.
Proof.
  intros <- Hne. unfold jwt_verify.
  destruct (String.eqb_spec (signed_with t) ""); [contradiction|].
  rewrite String.eqb_refl. reflexivity.
Qed.

Lemma User_create_Done (e : Env) (users users' : gmap string User) (u : User) :
  User_create e users u = Done users' ->
  users !! id u = None /\ users' = <[id u := u]> users.
Proof.
  unfold User_create.
  destruct (users !! id u); [discriminate|].
  destruct (User_findOne users (has_email (email u))); [discriminate|].
  match goal with |- context [if ?c then _ else _] => destruct c end; [|discriminate].
  intros Hd. injection Hd as <-. auto.
Qed.

Lemma touch_lookup (e : Env) (users : gmap string User) (u : User) :
  touch e users u !! id u = Some (set_lastActive (now e) u).
Proof. unfold touch. apply lookup_insert_eq. Qed.

Lemma findOne_Some (users : gmap string User) (p : User -> bool) (u : User) :
  User_findOne users p = Some u -> (exists pk, users !! pk = Some u) /\ p u = true.
Proof. apply find_row_Some. Qed.

Lemma findOne_None (users : gmap string User) (p : User -> bool) (pk : string) (u : User) :
  User_findOne users p = None -> users !! pk = Some u -> p u = false.
Proof. apply find_row_None. Qed.

Section Routes.
Context {platform : Js.Platform}.

(** What each of the four routes has done when it hands out a token. *)
Lemma register_token (e : Env) (users : gmap string User)
    (b_email b_password b_name : string) (b_accountType : Js.value) (t : Token) :
  token (snd (register e users b_email b_password b_name b_accountType)) = Some t ->
  users !! newUserId e = None /\
  fst (register e users b_email b_password b_name b_accountType)
  = <[newUserId e :=
        mkUser (newUserId e) b_email (bcrypt_hash e b_password) b_name
          (Js.or b_accountType (Js.Str "lessee")) None false false (now e)]> users /\
  generateToken e (newUserId e) = Done t.
Proof.
  unfold register.
  destruct (negb (validation_passes e)); [discriminate|].
  destruct (User_findOne users (has_email b_email)); [discriminate|].
  match goal with |- context [User_create e users ?u0] =>
    destruct (User_create e users u0) as [users'|] eqn:Ec; [|discriminate] end.
  apply User_create_Done in Ec as [Hfree ->]. simpl in Hfree.
  intros Ht. apply issue_token in Ht as [-> Hg]. auto.
Qed.

Lemma login_token (e : Env) (users : gmap string User) (b_email b_password : string)
    (t : Token) :
  token (snd (login e users b_email b_password)) = Some t ->
  exists u, User_findOne users (has_email b_email) = Some u /\
    bcrypt_compare e b_password (passwordHash u) = true /\
    fst (login e users b_email b_password) = touch e users u /\
    generateToken e (id u) = Done t.
Proof.
  unfold login.
  destruct (negb (validation_passes e)); [discriminate|].
  destruct (User_findOne users (has_email b_email)) as [u|] eqn:Ef; [|discriminate].
  destruct (bcrypt_compare e b_password (passwordHash u)) eqn:Eb; [|discriminate].
  simpl. intros Ht. apply issue_token in Ht as [-> Hg]. exists u. auto.
Qed.

Lemma wallet_login_token (e : Env) (users : gmap string User) (w sg msg : string)
    (t : Token) :
  token (snd (wallet_login e users w sg msg)) = Some t ->
  (exists recovered, verifyMessage e msg sg = Done recovered /\
                     toLowerCase recovered = toLowerCase w) /\
  match User_findOne users (has_wallet w) with
  | Some u => fst (wallet_login e users w sg msg) = touch e users u /\
              generateToken e (id u) = Done t
  | None => users !! newUserId e = None /\
            fst (wallet_login e users w sg msg)
            = <[newUserId e := wallet_user e w]> users /\
            generateToken e (newUserId e) = Done t
  end.
Proof.
  unfold wallet_login.
  destruct (verifyMessage e msg sg) as [recovered|]; [|discriminate].
  destruct (String.eqb_spec (toLowerCase recovered) (toLowerCase w)) as [Hr|Hr];
    [|discriminate].
  simpl. intros Ht. split; [eauto|].
  destruct (User_findOne users (has_wallet w)) as [u|] eqn:Ef.
  - apply issue_token in Ht as [-> Hg]. auto.
  - fold (wallet_user e w) in *.
    destruct (User_create e users (wallet_user e w)) as [users'|] eqn:Ec;
      [|discriminate].
    apply User_create_Done in Ec as [Hfree ->]. simpl in Hfree.
    apply issue_token in Ht as [-> Hg]. auto.
Qed.

Lemma refresh_token (e : Env) (users : gmap string User) (b_token : option Presented)
    (t : Token) :
  token (snd (refresh e users b_token)) = Some t ->
  fst (refresh e users b_token) = users /\
  exists old u, b_token = Some (Jwt old) /\
    jwt_verify (Jwt old) (JWT_SECRET e) true (now e) = Done old /\
    User_findByPk users (userId old) = Done (Some u) /\
    generateToken e (id u) = Done t.
Proof.
  unfold refresh. destruct b_token as [p|]; [|discriminate].
  destruct (jwt_verify p (JWT_SECRET e) true (now e)) as [old|] eqn:Ev; [|discriminate].
  pose proof (proj1 (jwt_verify_Done _ _ _ _ _) Ev) as (-> & _).
  destruct (User_findByPk users (userId old)) as [[u|]|] eqn:Ef; try discriminate.
  destruct (generateToken e (id u)) as [t'|] eqn:Eg; [|discriminate].
  simpl. intros Ht. injection Ht as ->. split; [reflexivity|]. exists old, u. auto.
Qed.

(** The row a search by key finds in a table stored under its own keys is
    the row of its [id]. *)
Lemma User_found (users : gmap string User) (pk : string) (u : User) :
  keyed users -> User_findByPk users pk = Done (Some u) -> users !! id u = Some u.
Proof.
  intros Hk Hf. apply findByPk_found in Hf as (key & Hu & _).
  rewrite (Hk key u Hu). assumption.
Qed.

Lemma logs_in_token (e : Env) (users : gmap string User)
    (out : gmap string User * Response) (t : Token) :
  keyed users -> logs_in e users out -> token (snd out) = Some t ->
  (exists u, fst out !! userId t = Some u /\ id u = userId t) /\
  exists uid, generateToken e uid = Done t.
Proof.
  intros Hk Hin Ht. destruct Hin.
  - apply register_token in Ht as (_ & -> & Hg). split; [|eauto].
    apply generateToken_Done in Hg as (-> & _).
    eexists. rewrite lookup_insert_eq. split; reflexivity.
  - apply login_token in Ht as (u & _ & _ & -> & Hg). split; [|eauto].
    apply generateToken_Done in Hg as (-> & _).
    rewrite touch_lookup. eexists. split; reflexivity.
  - apply wallet_login_token in Ht as (_ & Hcase).
    destruct (User_findOne users (has_wallet b_walletAddress)) as [u|].
    + destruct Hcase as (-> & Hg). split; [|eauto].
      apply generateToken_Done in Hg as (-> & _).
      rewrite touch_lookup. eexists. split; reflexivity.
    + destruct Hcase as (_ & -> & Hg). split; [|eauto].
      apply generateToken_Done in Hg as (-> & _).
      eexists. rewrite lookup_insert_eq. split; reflexivity.
  - apply refresh_token in Ht as (-> & old & u & _ & _ & Hf & Hg). split; [|eauto].
    apply generateToken_Done in Hg as (-> & _).
    exists u. split; [apply (User_found users _ u Hk Hf) | reflexivity].
Qed.

(** Claim C8.  A token handed out by register, login, wallet-login or refresh
    is issued at the clock of the request, expires seven days later, has no
    [nbf], and verifies under the server's key until then; it carries the id
    of a user of the table, and of this one: the user register has just
    stored, the user login found by the email and whose password bcrypt
    accepted, the user wallet-login found by the wallet or has just stored
    for it, the user refresh found under the id the presented token carries.
    On a server with a key the routes do hand a token out: login whenever
    it finds the user and bcrypt accepts the password, register and
    wallet-login whenever the table takes the new row or, for a wallet, has
    one.  Refresh verifies with the expiry ignored: a token signed with the
    server's key, and not presented before its [nbf], is accepted whatever
    its expiry, and a new token is issued exactly when the user it names is
    found; a token that does not verify, or none, gets no new token. *)
Theorem tokens_name_user_for_seven_days (e : Env) (users : gmap string User) :
  keyed users ->
  (forall out t, logs_in e users out -> token (snd out) = Some t ->
     (exists u, fst out !! userId t = Some u /\ id u = userId t) /\
     iat t = now e /\ nbf t = None /\ exp t = Some (now e + 7 * 24 * 60 * 60) /\
     forall clock, jwt_verify (Jwt t) (JWT_SECRET e) false clock =
                   if now e + 7 * 24 * 60 * 60 <=? clock then Throws else Done t) /\
  (forall b_email b_password b_name b_accountType t,
     token (snd (register e users b_email b_password b_name b_accountType)) = Some t ->
     userId t = newUserId e /\ users !! newUserId e = None /\
     fst (register e users b_email b_password b_name b_accountType) !! userId t
     = Some (mkUser (newUserId e) b_email (bcrypt_hash e b_password) b_name
               (Js.or b_accountType (Js.Str "lessee")) None false false (now e))) /\
  (forall b_email b_password t,
     token (snd (login e users b_email b_password)) = Some t ->
     exists u, User_findOne users (has_email b_email) = Some u /\
       email u = b_email /\
       bcrypt_compare e b_password (passwordHash u) = true /\
       userId t = id u /\
       fst (login e users b_email b_password) !! userId t
       = Some (set_lastActive (now e) u)) /\
  (forall w sg msg t,
     token (snd (wallet_login e users w sg msg)) = Some t ->
     (exists recovered, verifyMessage e msg sg = Done recovered /\
                        toLowerCase recovered = toLowerCase w) /\
     match User_findOne users (has_wallet w) with
     | Some u => walletAddress u = Some w /\ userId t = id u /\
                 fst (wallet_login e users w sg msg) !! userId t
                 = Some (set_lastActive (now e) u)
     | None => userId t = newUserId e /\ users !! newUserId e = None /\
               fst (wallet_login e users w sg msg) !! userId t
               = Some (wallet_user e w)
     end) /\
  (forall b_token t,
     token (snd (refresh e users b_token)) = Some t ->
     exists old u, b_token = Some (Jwt old) /\
       JWT_SECRET e = Some (signed_with old) /\
       User_findByPk users (userId old) = Done (Some u) /\
       userId t = id u /\ users !! userId t = Some u) /\
  (forall key, JWT_SECRET e = Some key -> key <> "" ->
     (forall b_email b_password b_name b_accountType users',
        validation_passes e = true ->
        User_findOne users (has_email b_email) = None ->
        User_create e users
          (mkUser (newUserId e) b_email (bcrypt_hash e b_password) b_name
             (Js.or b_accountType (Js.Str "lessee")) None false false (now e))
        = Done users' ->
        exists t, userId t = newUserId e /\
          register e users b_email b_password b_name b_accountType
          = (users', mkResponse 201 (Some t) (Some (newUserId e)))) /\
     (forall b_email b_password u,
        validation_passes e = true ->
        User_findOne users (has_email b_email) = Some u ->
        bcrypt_compare e b_password (passwordHash u) = true ->
        exists t, userId t = id u /\
          login e users b_email b_password
          = (touch e users u, mkResponse 200 (Some t) (Some (id u)))) /\
     (forall w sg msg recovered,
        verifyMessage e msg sg = Done recovered ->
        toLowerCase recovered = toLowerCase w ->
        match User_findOne users (has_wallet w) with
        | Some u =>
            exists t, userId t = id u /\
              wallet_login e users w sg msg
              = (touch e users u, mkResponse 200 (Some t) (Some (id u)))
        | None =>
            forall users', User_create e users (wallet_user e w) = Done users' ->
            exists t, userId t = newUserId e /\
              wallet_login e users w sg msg
              = (users', mkResponse 200 (Some t) (Some (newUserId e)))
        end)) /\
  (forall t, JWT_SECRET e = Some (signed_with t) -> signed_with t <> "" ->
     not_yet t (now e) = false ->
     jwt_verify (Jwt t) (JWT_SECRET e) true (now e) = Done t /\
     (token (snd (refresh e users (Some (Jwt t)))) <> None <->
      exists u, User_findByPk users (userId t) = Done (Some u)) /\
     (forall u, users !! userId t = Some u ->
        exists t', token (snd (refresh e users (Some (Jwt t)))) = Some t' /\
                   userId t' = userId t)) /\
  (forall p, jwt_verify p (JWT_SECRET e) true (now e) = Throws ->
     token (snd (refresh e users (Some p))) = None) /\
  token (snd (refresh e users None)) = None.
Proof.
  intros Hk. repeat apply conj.
  - intros out t Hin Ht.
    destruct (logs_in_token e users out t Hk Hin Ht) as [Hu [uid Hg]].
    apply generateToken_Done in Hg as (_ & Hiat & Hnbf & Hexp & Hkey & Hne).
    split; [assumption|]. split; [assumption|]. split; [assumption|].
    split; [rewrite Hexp; f_equal; lia|].
    intros clock. rewrite Hkey.
    rewrite (jwt_verify_signed t (signed_with t) false clock eq_refl Hne).
    unfold not_yet, expired. rewrite Hnbf, Hexp. simpl.
    replace (now e + 7 * 24 * 60 * 60) with (now e + 7 * 86400) by lia. reflexivity.
  - intros b_email b_password b_name b_accountType t Ht.
    apply register_token in Ht as (Hfree & -> & Hg).
    apply generateToken_Done in Hg as (-> & _).
    split; [reflexivity|]. split; [assumption|]. apply lookup_insert_eq.
  - intros b_email b_password t Ht.
    apply login_token in Ht as (u & Hf & Hb & -> & Hg).
    apply generateToken_Done in Hg as (-> & _).
    exists u. split; [assumption|].
    pose proof (proj2 (findOne_Some _ _ _ Hf)) as He. unfold has_email in He.
    apply String.eqb_eq in He.
    split; [assumption|]. split; [assumption|]. split; [reflexivity|].
    apply touch_lookup.
  - intros w sg msg t Ht.
    apply wallet_login_token in Ht as (Hrec & Hcase). split; [assumption|].
    destruct (User_findOne users (has_wallet w)) as [u|] eqn:Ef.
    + destruct Hcase as (-> & Hg). apply generateToken_Done in Hg as (-> & _).
      pose proof (proj2 (findOne_Some _ _ _ Ef)) as Hw. unfold has_wallet in Hw.
      destruct (walletAddress u) as [w'|]; [|discriminate].
      apply String.eqb_eq in Hw. subst w'.
      split; [reflexivity|]. split; [reflexivity|]. apply touch_lookup.
    + destruct Hcase as (Hfree & -> & Hg). apply generateToken_Done in Hg as (-> & _).
      split; [reflexivity|]. split; [assumption|]. apply lookup_insert_eq.
  - intros b_token t Ht.
    apply refresh_token in Ht as (_ & old & u & -> & Hv & Hf & Hg).
    apply generateToken_Done in Hg as (-> & _).
    apply jwt_verify_Done in Hv as (_ & Hkey & _).
    exists old, u. split; [reflexivity|]. split; [assumption|].
    split; [assumption|]. split; [reflexivity|]. apply (User_found users _ u Hk Hf).
  - intros key Hkey Hne. repeat apply conj.
    + intros b_email b_password b_name b_accountType users' Hv Hnone Hc.
      unfold register. rewrite Hv, Hnone. cbn [negb]. cbv iota. rewrite Hc.
      cbn [id]. rewrite (issue_with_key e users' 201 _ key Hkey Hne).
      eexists. split; [|reflexivity]. reflexivity.
    + intros b_email b_password u Hv Hf Hb.
      unfold login. rewrite Hv, Hf, Hb. cbn [negb]. cbv iota.
      rewrite (issue_with_key e _ 200 _ key Hkey Hne).
      eexists. split; [|reflexivity]. reflexivity.
    + intros w sg msg recovered Hrec Hl.
      destruct (User_findOne users (has_wallet w)) as [u|] eqn:Ef.
      * unfold wallet_login. rewrite Hrec, Hl, String.eqb_refl, Ef. cbn [negb]. cbv iota.
        rewrite (issue_with_key e _ 200 _ key Hkey Hne).
        eexists. split; [|reflexivity]. reflexivity.
      * intros users' Hc.
        unfold wallet_login. rewrite Hrec, Hl, String.eqb_refl, Ef. cbn [negb]. cbv iota.
        fold (wallet_user e w). rewrite Hc.
        change (id (wallet_user e w)) with (newUserId e).
        rewrite (issue_with_key e users' 200 _ key Hkey Hne).
        eexists. split; [|reflexivity]. reflexivity.
  - intros t Hkey Hne Hnbf.
    assert (Hv : jwt_verify (Jwt t) (JWT_SECRET e) true (now e) = Done t).
    { apply jwt_verify_Done. auto 6. }
    split; [assumption|]. unfold refresh. rewrite Hv. split.
    + destruct (User_findByPk users (userId t)) as [[u|]|] eqn:Ef; simpl.
      * rewrite (generateToken_key e (id u) _ Hkey Hne). simpl.
        split; [eauto | discriminate].
      * split; [contradiction | intros [u Hu]; discriminate].
      * split; [contradiction | intros [u Hu]; discriminate].
    + intros u Hu. unfold User_findByPk. rewrite (findByPk_hit _ _ _ Hu).
      rewrite (generateToken_key e (id u) _ Hkey Hne). simpl.
      eexists. split; [reflexivity|]. simpl. apply Hk in Hu. assumption.
  - intros p Hp. unfold refresh. rewrite Hp. reflexivity.
  - reflexivity.
Qed.

End Routes.

(** *** On the sample data *)

#[local] Existing Instance Js.strict.

Lemma ann_keyed : keyed {[ "u1" := ann ]}.
Proof. intros pk u Hu. apply lookup_singleton_Some in Hu as [<- <-]. reflexivity. Qed.

Lemma tokens_name_user_for_seven_days_witness :
  expired stale (now server) = true /\
  token (snd (refresh server {[ "u1" := ann ]} (Some (Jwt stale)))) <> None.
Proof.
  split; [vm_compute; reflexivity|].
  destruct (tokens_name_user_for_seven_days server {[ "u1" := ann ]} ann_keyed)
    as (_ & _ & _ & _ & _ & _ & Hrefresh & _).
  destruct (Hrefresh stale eq_refl ltac:(discriminate) eq_refl) as (_ & Hiff & _).
  apply Hiff. exists ann. vm_compute. reflexivity.
Defined.

End AuthFacts.

(** ** The lease lifecycle manager *)

Module LeasesFacts.
Import Leases.





End LeasesFacts.

(** ** More about the contract *)

Module LeaseMore.
Import Lease LeaseViews LeaseFacts.

Lemma onlyOwner_Ok (e : Env) (s : State) (u : unit) :
  onlyOwner e s = Ok u -> msg_sender e = owner s.
Proof.
  unfold onlyOwner. intros H. apply require_Ok in H. apply Z.eqb_eq in H. auto.
Qed.

(** What a successful transaction may do to the administered part of the
    storage, and who may do it. *)
Lemma receive_admin (e : Env) (s s' : State) (m : Msg) :
  receive e s m = Ok s' ->
  (platformFee s' = platformFee s \/ (msg_sender e = owner s /\ platformFee s' <= 1000)) /\
  (treasury s' = treasury s \/ (msg_sender e = owner s /\ treasury s' <> 0)) /\
  (owner s' = owner s \/ msg_sender e = owner s) /\
  (_tokenIds s' = _tokenIds s \/ msg_sender e = owner s) /\
  (domainToToken s' = domainToToken s \/ msg_sender e = owner s).
Proof.
  destruct m; simpl; intros H.
  - peel. destruct x as [s1 t]. simpl.
    unfold mintLease, _safeMint, _mint, _setTokenURI in *. peel.
    match goal with H : onlyOwner _ _ = Ok _ |- _ => apply onlyOwner_Ok in H end.
    simpl. repeat split; auto.
  - unfold terminateLease in H. peel. simpl. repeat split; auto.
  - unfold setPlatformFee in H. peel.
    match goal with H : onlyOwner _ _ = Ok _ |- _ => apply onlyOwner_Ok in H end.
    simpl. repeat split; auto. right. split; [assumption | lia].
  - unfold setTreasury in H. peel.
    match goal with H : onlyOwner _ _ = Ok _ |- _ => apply onlyOwner_Ok in H end.
    simpl. repeat split; auto. right. split; [assumption|].
    intros ->. discriminate.
  - unfold withdrawFees in H. peel. repeat split; auto.
  - unfold approve, ownerOf in H. peel. simpl. repeat split; auto.
  - unfold setApprovalForAll in H. peel. simpl. repeat split; auto.
  - unfold transferFrom, _transfer, ERC721_transfer in H. peel. simpl. repeat split; auto.
  - unfold safeTransferFrom, _transfer, ERC721_transfer in H. peel. simpl.
    repeat split; auto.
  - unfold transferOwnership in H. peel.
    match goal with H : onlyOwner _ _ = Ok _ |- _ => apply onlyOwner_Ok in H end.
    simpl. repeat split; auto.
  - unfold renounceOwnership in H. peel.
    match goal with H : onlyOwner _ _ = Ok _ |- _ => apply onlyOwner_Ok in H end.
    simpl. repeat split; auto.
Qed.

Lemma burn_admin (s s' : State) (t : uint256) :
  _burn s t = Ok s' ->
  platformFee s' = platformFee s /\ treasury s' = treasury s /\
  owner s' = owner s /\ _tokenIds s' = _tokenIds s.
Proof.
  unfold _burn, ERC721URIStorage_burn, ERC721_burn, ownerOf. intros H. peel;
    simpl; repeat split.
Qed.

Lemma run_apply_invariant (P : State -> Prop) (accepted : Action -> Prop) :
  (forall s a, accepted a -> P s -> P (apply s a)) ->
  forall tr s, Forall accepted tr -> P s -> P (run s tr).
Proof.
  intros Hstep tr. induction tr as [|a tr IH]; intros s Hall Hs; [assumption|].
  rewrite run_cons. inversion Hall; subst. apply IH; auto.
Qed.

Lemma Forall_all {A : Type} (l : list A) : Forall (fun _ => True) l.
Proof. induction l; constructor; auto. Qed.

(** X2.  In every reachable state the platform fee is at most 1000 basis
    points, so the fee computed for an amount is at most a tenth of it, and
    the computation does not overflow for an amount up to a thousandth of
    2^256. *)
Theorem platform_fee_at_most_a_tenth (deployer _treasury : address) (tr : list Action) :
  let s := run (constructor deployer _treasury) tr in
  platformFee s <= 1000 /\
  (forall amount fee, 0 <= amount -> calculatePlatformFee s amount = Ok fee ->
     10 * fee <= amount) /\
  (forall amount, 0 <= amount -> amount * 1000 < 2 ^ 256 ->
     calculatePlatformFee s amount = Ok (amount * platformFee s / 10000)).
Proof.
  intros s.
  assert (Hfee : platformFee s <= 1000).
  { subst s.
    apply (run_apply_invariant (fun s => platformFee s <= 1000) (fun _ => True));
      [| apply Forall_all | simpl; lia].
    intros s0 a _ H0. unfold apply. destruct (step s0 a) as [s1|msg] eqn:E; [|assumption].
    destruct a as [e m | t]; simpl in E.
    - apply receive_admin in E as ([-> | [_ H1]] & _); assumption.
    - apply burn_admin in E as (-> & _). assumption. }
  split; [assumption|]. split.
  - intros amount fee Ha H. unfold calculatePlatformFee in H. peel.
    assert (amount * platformFee s <= amount * 1000) by nia.
    assert (amount * platformFee s / 10000 <= amount * 1000 / 10000)
      by (apply Z.div_le_mono; lia).
    assert (10 * (amount * 1000 / 10000) <= amount).
    { pose proof (Z.mul_div_le (amount * 1000) 10000 ltac:(lia)). lia. }
    lia.
  - intros amount Ha Hsmall. unfold calculatePlatformFee.
    assert (amount * platformFee s < 2 ^ 256) by nia.
    destruct (Z.ltb_spec (amount * platformFee s) (2 ^ 256)); [reflexivity | lia].
Qed.

Lemma platform_fee_at_most_a_tenth_witness :
  calculatePlatformFee (run (constructor 1 9) [Call (caller 1) (SetPlatformFee 1000)]) 250
  = Ok (250 * platformFee (run (constructor 1 9) [Call (caller 1) (SetPlatformFee 1000)])
        / 10000).
Proof.
  apply (platform_fee_at_most_a_tenth 1 9 [Call (caller 1) (SetPlatformFee 1000)]);
    [lia | vm_compute; reflexivity].
Defined.

(** X3.  [setTreasury] never stores the zero address: a contract deployed
    with a treasury keeps one through every action. *)
Theorem treasury_never_zero (deployer _treasury : address) (tr : list Action) :
  _treasury <> 0 -> treasury (run (constructor deployer _treasury) tr) <> 0.
Proof.
  intros Hne.
  apply (run_apply_invariant (fun s => treasury s <> 0) (fun _ => True));
    [| apply Forall_all | assumption].
  intros s0 a _ H0. unfold apply. destruct (step s0 a) as [s1|msg] eqn:E; [|assumption].
  destruct a as [e m | t]; simpl in E.
  - apply receive_admin in E as (_ & [-> | [_ H1]] & _); assumption.
  - apply burn_admin in E as (_ & -> & _). assumption.
Qed.

Lemma treasury_never_zero_witness :
  9 <> 0 /\ treasury (run (constructor 1 9) [Call (caller 1) (SetTreasury 0)]) <> 0.
Proof.
  split; [lia|].
  apply (treasury_never_zero 1 9 [Call (caller 1) (SetTreasury 0)]). lia.
Defined.

(** X4.  Once the owner has renounced ownership, no account can take it
    back, mint a lease or change the fee or the treasury: through every
    sequence of actions sent from accounts these stay as they are. *)
Theorem renounced_contract_is_frozen (s : State) (tr : list Action) :
  owner s = 0 -> from_accounts tr ->
  let s' := run s tr in
  owner s' = 0 /\ totalLeases s' = totalLeases s /\
  platformFee s' = platformFee s /\ treasury s' = treasury s.
Proof.
  intros Ho Hfrom.
  apply (run_apply_invariant
           (fun s' => owner s' = 0 /\ totalLeases s' = totalLeases s /\
                      platformFee s' = platformFee s /\ treasury s' = treasury s)
           (fun a => match a with Call e _ => msg_sender e <> 0 | Burn _ => True end));
    [| exact Hfrom | auto].
  intros s0 a Ha (H1 & H2 & H3 & H4). unfold apply.
  destruct (step s0 a) as [s1|msg] eqn:E; [|auto].
  unfold totalLeases in *.
  destruct a as [e m | t]; simpl in E.
  - apply receive_admin in E as (F1 & F2 & F3 & F4 & _).
    assert (Hn : msg_sender e <> owner s0) by congruence.
    repeat split; intuition congruence.
  - apply burn_admin in E as (F1 & F2 & F3 & F4). repeat split; congruence.
Qed.

Lemma renounced_contract_is_frozen_witness :
  totalLeases (run (run (constructor 1 9) [Call (caller 1) RenounceOwnership]) one_lease) =
  totalLeases (run (constructor 1 9) [Call (caller 1) RenounceOwnership]).
Proof.
  apply (renounced_contract_is_frozen
           (run (constructor 1 9) [Call (caller 1) RenounceOwnership]) one_lease).
  - reflexivity.
  - repeat constructor; simpl; lia.
Defined.

(** What a transaction keeps of an existing token. *)
Lemma call_effect_keeps (s s' : State) (t : uint256) (d : string) :
  call_effect s s' ->
  (_exists s t = true ->
     _exists s' t = true /\ terms (lease s' t) = terms (lease s t)) /\
  (tokenOfDomain s d <> 0 -> tokenOfDomain s' d = tokenOfDomain s d).
Proof.
  intros [Ho Hl Hd Hi | l newId Hle Hdates Hact Hfree Hnew Ho Hl Hd Hi
         | t0 Hex Hact Ho Hl Hd Hi | t0 to Hex Hto Ho Hl Hd Hi];
    views; rewrite ?Ho, ?Hl, ?Hd; split; try (intros; auto; fail).
  - intros Hx. assert (newId <> t) by (intros ->; congruence). mrw. auto.
  - intros Hx. assert (domainName l <> d) by congruence. mrw. reflexivity.
  - intros Hx. split; [assumption|].
    destruct (decide (t0 = t)) as [<-|Hne]; mrw; reflexivity.
  - intros Hx. destruct (decide (t0 = t)) as [<-|Hne]; mrw.
    + split; [apply nonzero_exists; assumption | reflexivity].
    + auto.
Qed.

Lemma transactions_cons (a : Action) (tr : list Action) :
  transactions (a :: tr) -> (exists e m, a = Call e m) /\ transactions tr.
Proof.
  intros H. inversion H as [|? ? Ha Htr]; subst. split; [|assumption].
  destruct a as [e m|t]; [eauto | contradiction].
Qed.

Lemma transactions_keep (tr : list Action) (s : State) (t : uint256) (d : string) :
  transactions tr ->
  (_exists s t = true ->
     _exists (run s tr) t = true /\ terms (lease (run s tr) t) = terms (lease s t)) /\
  (tokenOfDomain s d <> 0 -> tokenOfDomain (run s tr) d = tokenOfDomain s d).
Proof.
  revert s. induction tr as [|a tr IH]; intros s Htr; [auto|].
  apply transactions_cons in Htr as [(e & m & ->) Htr]. rewrite run_cons.
  assert (Hstep :
    (_exists s t = true ->
       _exists (apply s (Call e m)) t = true /\
       terms (lease (apply s (Call e m)) t) = terms (lease s t)) /\
    (tokenOfDomain s d <> 0 -> tokenOfDomain (apply s (Call e m)) d = tokenOfDomain s d)).
  { unfold apply, step. destruct (receive e s m) as [s'|msg] eqn:E; [|auto].
    apply call_effect_keeps. eapply receive_effect; eassumption. }
  destruct Hstep as [H1 H2]. destruct (IH (apply s (Call e m)) Htr) as [I1 I2].
  split.
  - intros Hx. destruct (H1 Hx) as [Hx' Ht]. destruct (I1 Hx') as [Hx'' Ht'].
    split; [assumption | congruence].
  - intros Hb. rewrite I2; rewrite H2; auto.
Qed.

(** X5.  The contract as deployed never lets go of a lease: through every
    sequence of transactions an existing token goes on existing with the
    domain, lessor, dates, price, restrictions and agreement it was minted
    with. *)
Theorem lease_terms_are_permanent (s : State) (tr : list Action) (t : uint256) :
  transactions tr -> _exists s t = true ->
  _exists (run s tr) t = true /\ terms (lease (run s tr) t) = terms (lease s t).
Proof.
  intros Htr Hx. apply (proj1 (transactions_keep tr s t "" Htr)). assumption.
Qed.

Lemma lease_terms_are_permanent_witness :
  terms (lease (run (run (constructor 1 9) one_lease)
                  [Call (caller 3) (TransferFrom 3 4 1); Call (caller 2) (TerminateLease 1)]) 1)
  = terms (lease (run (constructor 1 9) one_lease) 1).
Proof.
  apply (lease_terms_are_permanent (run (constructor 1 9) one_lease)
           [Call (caller 3) (TransferFrom 3 4 1); Call (caller 2) (TerminateLease 1)] 1).
  - repeat constructor.
  - vm_compute. reflexivity.
Defined.

(** X6.  A domain is leased at most once: through every sequence of
    transactions a bound domain stays bound to the same token, terminated or
    not, and every later [mintLease] for it reverts. *)
Theorem domain_is_leased_once (s : State) (tr : list Action) (d : string) :
  transactions tr -> tokenOfDomain s d <> 0 ->
  tokenOfDomain (run s tr) d = tokenOfDomain s d /\
  forall e lr le sd ed p r h u,
    exists m, mintLease e (run s tr) lr le d sd ed p r h u = Revert m.
Proof.
  intros Htr Hb.
  assert (H := proj2 (transactions_keep tr s 0 d Htr) Hb).
  split; [assumption|]. intros.
  apply mintLease_bound_reverts. left. congruence.
Qed.

Lemma domain_is_leased_once_witness :
  exists m, mintLease (caller 1) (run (constructor 1 9) terminated_once)
              2 5 "a.com" 30 40 5 "" "" "" = Revert m.
Proof.
  apply (domain_is_leased_once (run (constructor 1 9) one_lease)
           [Call (caller 1) (TerminateLease 1)] "a.com").
  - repeat constructor.
  - vm_compute. discriminate.
Defined.

(** X7.  [terminateLease] goes through exactly when the token exists, the
    caller is the lessor or the contract owner, and the lease is active.  It
    then switches the lease off for good at every timestamp and touches
    nothing else of the lease: the holder, the lessee, the terms and the
    binding of the domain are as before. *)
Theorem terminate_switches_lease_off (e : Env) (s : State) (t : uint256) :
  ((exists s', terminateLease e s t = Ok s') <->
   _exists s t = true /\
   (msg_sender e = lessor (lease s t) \/ msg_sender e = owner s) /\
   active (lease s t) = true) /\
  (forall s', terminateLease e s t = Ok s' ->
     (forall timestamp, isLeaseActive s' timestamp t = Ok false) /\
     ownerOf s' t = ownerOf s t /\
     lessee (lease s' t) = lessee (lease s t) /\
     terms (lease s' t) = terms (lease s t) /\
     domainToToken s' = domainToToken s).
Proof.
  split; [split|].
  - intros [s' H]. unfold terminateLease in H. peel.
    repeat split; try assumption.
    match goal with H : _ || _ = true |- _ =>
      apply orb_prop in H as [H|H]; apply Z.eqb_eq in H; auto end.
  - intros (Hx & Hs & Ha). unfold terminateLease. rewrite Hx. simpl.
    assert (Hc : (msg_sender e =? lessor (lease s t)) || (msg_sender e =? owner s) = true).
    { apply orb_true_iff. destruct Hs as [Hs|Hs]; [left|right]; apply Z.eqb_eq; assumption. }
    rewrite Hc. simpl. rewrite Ha. simpl. eauto.
  - intros s' H. unfold terminateLease in H. peel.
    unfold isLeaseActive, ownerOf. views. simpl. mrw.
    repeat split; try reflexivity.
    intros timestamp.
    match goal with H : negb _ = true |- _ => rewrite H end. reflexivity.
Qed.

Lemma terminate_switches_lease_off_witness :
  isLeaseActive (run (constructor 1 9) one_lease) 15 1 = Ok true /\
  isLeaseActive (run (constructor 1 9) terminated_once) 15 1 = Ok false.
Proof.
  split; [vm_compute; reflexivity|].
  destruct (terminate_switches_lease_off (caller 1) (run (constructor 1 9) one_lease) 1)
    as [_ H].
  apply (H (run (constructor 1 9) terminated_once)). vm_compute. reflexivity.
Defined.

(** X8.  The three views of a lease revert for a token that does not exist.
    For one that does, a lease reported active is within its dates and not
    expired, and a lease past its end is reported expired and not active,
    terminated or not. *)
Theorem lease_views_agree (s : State) (timestamp t : uint256) :
  (_exists s t = false ->
     getLeaseInfo s t = Revert "Token does not exist" /\
     isLeaseActive s timestamp t = Revert "Token does not exist" /\
     isLeaseExpired s timestamp t = Revert "Token does not exist") /\
  (isLeaseActive s timestamp t = Ok true ->
     startDate (lease s t) <= timestamp <= endDate (lease s t) /\
     active (lease s t) = true /\
     isLeaseExpired s timestamp t = Ok false) /\
  (_exists s t = true -> endDate (lease s t) < timestamp ->
     isLeaseExpired s timestamp t = Ok true /\
     isLeaseActive s timestamp t = Ok false).
Proof.
  unfold getLeaseInfo, isLeaseActive, isLeaseExpired. split; [|split].
  - intros ->. repeat split.
  - destruct (_exists s t); simpl; [|discriminate].
    intros H. injection H as H.
    apply andb_prop in H as [H H3]. apply andb_prop in H as [H1 H2].
    apply Z.leb_le in H2, H3. repeat split; try assumption.
    destruct (Z.ltb_spec (endDate (lease s t)) timestamp); [lia | reflexivity].
  - intros -> Hlt. simpl. split.
    + destruct (Z.ltb_spec (endDate (lease s t)) timestamp); [reflexivity | lia].
    + destruct (Z.leb_spec timestamp (endDate (lease s t))); [lia|].
      rewrite andb_false_r. reflexivity.
Qed.

Lemma lease_views_agree_witness :
  isLeaseExpired (run (constructor 1 9) one_lease) 15 1 = Ok false /\
  isLeaseExpired (run (constructor 1 9) one_lease) 21 1 = Ok true.
Proof.
  split.
  - apply (proj1 (proj2 (lease_views_agree (run (constructor 1 9) one_lease) 15 1))).
    vm_compute. reflexivity.
  - apply (proj2 (proj2 (lease_views_agree (run (constructor 1 9) one_lease) 21 1)));
      vm_compute; reflexivity.
Defined.

Lemma filled_call (n : Z) (s s' : State) :
  Inv n s -> n < 2 ^ 256 - 1 ->
  (forall t, 1 <= t <= _tokenIds s -> _exists s t = true) ->
  call_effect s s' ->
  forall t, 1 <= t <= _tokenIds s' -> _exists s' t = true.
Proof.
  intros [Hc Hm Hb Ht] Hn Hfill
    [Ho Hl Hd Hi | l newId Hle Hdates Hact Hfree Hnew Ho Hl Hd Hi
    | t0 Hex Hact Ho Hl Hd Hi | t0 to Hex Hto Ho Hl Hd Hi] t;
    views; rewrite ?Ho, ?Hi.
  - apply Hfill.
  - assert (HnewId : newId = _tokenIds s + 1).
    { unfold newId. apply wrap256_small. lia. }
    rewrite HnewId. intros Hr.
    destruct (decide (_tokenIds s + 1 = t)) as [<-|Hne]; mrw.
    + apply nonzero_exists. assumption.
    + apply Hfill. lia.
  - apply Hfill.
  - intros Hr. destruct (decide (t0 = t)) as [<-|Hne]; mrw.
    + apply nonzero_exists. assumption.
    + apply Hfill. assumption.
Qed.

Lemma filled_run (tr : list Action) (n : Z) (s : State) :
  transactions tr -> Inv n s -> n + Z.of_nat (length tr) <= 2 ^ 256 - 1 ->
  (forall t, 1 <= t <= _tokenIds s -> _exists s t = true) ->
  forall t, 1 <= t <= _tokenIds (run s tr) -> _exists (run s tr) t = true.
Proof.
  revert n s. induction tr as [|a tr IH]; intros n s Htr Hs Hn Hfill;
    cbn [length] in *; rewrite ?run_cons; [assumption|].
  rewrite Nat2Z.inj_succ in Hn.
  apply transactions_cons in Htr as [(e & m & ->) Htr].
  destruct (apply_cases s (Call e m)) as [[Hstep Heff] | [_ Hsame]].
  - apply (IH (n + 1)); [assumption | | lia |].
    + eapply Inv_effect; [eassumption | lia | assumption].
    + simpl in Hstep. apply receive_effect in Hstep.
      eapply filled_call; [eassumption | lia | assumption | assumption].
  - rewrite Hsame. apply (IH n); [assumption | assumption | lia | assumption].
Qed.

(** X28.  Token ids are handed out in order without gaps: after any
    sequence of fewer than 2^256 transactions on the contract as deployed,
    the tokens that exist are exactly those numbered from 1 to [totalLeases],
    and [totalLeases] is at most the number of transactions. *)
Theorem token_ids_are_consecutive (deployer _treasury : address) (tr : list Action)
    (t : uint256) :
  transactions tr -> Z.of_nat (length tr) <= 2 ^ 256 - 1 ->
  let s := run (constructor deployer _treasury) tr in
  totalLeases s <= Z.of_nat (length tr) /\
  (_exists s t = true <-> 1 <= t <= totalLeases s).
Proof.
  intros Htr Hlen s.
  pose proof (Inv_run tr 0 (constructor deployer _treasury)
                (Inv_constructor deployer _treasury)) as Hinv.
  simpl in Hinv. specialize (Hinv Hlen). fold s in Hinv.
  unfold totalLeases. split; [apply (inv_count _ _ Hinv)|]. split.
  - apply (inv_minted _ _ Hinv).
  - subst s. apply (filled_run tr 0); try assumption.
    + apply Inv_constructor.
    + simpl. intros t0 Ht0. lia.
Qed.

Lemma token_ids_are_consecutive_witness :
  totalLeases (run (constructor 1 9) one_lease) <= 1 /\
  (_exists (run (constructor 1 9) one_lease) 1 = true <->
   1 <= 1 <= totalLeases (run (constructor 1 9) one_lease)).
Proof.
  apply (token_ids_are_consecutive 1 9 one_lease 1).
  - repeat constructor.
  - vm_compute. discriminate.
Defined.

(** ** Calls made back into the contract *)

Lemma Tx_induction (P : Tx -> Prop) :
  (forall e m back, Forall P back -> P (Nest e m back)) -> forall t, P t.
Proof.
  intros H. fix IH 1. intros [e m back]. apply H.
  induction back as [|t back IHb]; constructor; [apply IH | exact IHb].
Qed.

Lemma exec_Nest (s : State) (e : Env) (m : Msg) (back : list Tx) :
  exec s (Nest e m back) =
  match m with
  | MintLease lr le d sd ed p r h u =>
      minted <~ mintLease_calling (during back) e s lr le d sd ed p r h u;; Ok (fst minted)
  | SafeTransferFrom f to t d => safeTransferFrom_calling (during back) e s f to t d
  | WithdrawFees => withdrawFees_calling (during back) e s
  | _ => receive e s m
  end.
Proof. destruct m; reflexivity. Qed.

Lemma during_cons (t : Tx) (back : list Tx) (s : State) :
  during (t :: back) s = during back (settle s (exec s t)).
Proof. reflexivity. Qed.

Lemma _setTokenURI_Ok (s s' : State) (k : uint256) (u : string) :
  _setTokenURI s k u = Ok s' -> _exists s k = true /\ s' = with_tokenURI k u s.
Proof. unfold _setTokenURI. intros H. peel. auto. Qed.

(** The plain functions are the ones with calls back when none is made. *)
Lemma mintLease_plain (e : Env) (s : State) (lr le : address) (d : string)
    (sd ed p : uint256) (r h u : string) :
  mintLease_calling (during []) e s lr le d sd ed p r h u = mintLease e s lr le d sd ed p r h u.
Proof.
  unfold mintLease_calling, mintLease_head, mintLease, _safeMint.
  destruct (onlyOwner e s); simpl; [|reflexivity].
  repeat match goal with
  | |- context [require ?c ?m] => destruct c; simpl; [|reflexivity]
  end.
  match goal with |- context [_mint ?s0 ?a ?k] => destruct (_mint s0 a k) end; simpl;
    [|reflexivity].
  unfold during. simpl.
  destruct (onERC721Received e (msg_sender e) 0 le _ ""); reflexivity.
Qed.

Lemma exec_plain (s : State) (e : Env) (m : Msg) :
  exec s (Nest e m []) = receive e s m.
Proof.
  rewrite exec_Nest. destruct m; try reflexivity.
  rewrite mintLease_plain. reflexivity.
Qed.


(** What [mintLease] has done when it calls the lessee. *)
Lemma mintLease_head_Ok (e : Env) (s s1 : State) (lr le : address) (d : string)
    (sd ed p : uint256) (r h : string) (newId : uint256) :
  mintLease_head e s lr le d sd ed p r h = Ok (s1, newId) ->
  call_effect s s1 /\ msg_sender e = owner s /\
  newId = wrap256 (_tokenIds s + 1) /\ _tokenIds s1 = newId /\
  _ownerOf s1 newId = le /\ le <> 0 /\
  lease s1 newId = mkLeaseInfo d lr le sd ed p r h true /\
  tokenOfDomain s1 d = newId /\
  platformFee s1 = platformFee s /\ treasury s1 = treasury s /\ owner s1 = owner s.
Proof.
  unfold mintLease_head, _mint. intros H. peel.
  match goal with H : onlyOwner _ _ = Ok _ |- _ => apply onlyOwner_Ok in H end.
  simpl in *.
  assert (Hle : le <> 0) by (intros ->; discriminate).
  split.
  { apply (eff_mint s _ (mkLeaseInfo d lr le sd ed p r h true)); simpl; try reflexivity.
    - assumption.
    - lia.
    - lia.
    - unfold _exists, _ownerOf in *. simpl in *.
      match goal with H : negb (negb _) = true |- _ => rewrite negb_involutive in H end.
      rewrite negb_false_iff. assumption. }
  views. simpl. mrw. repeat split; auto.
Qed.

Lemma with_tokenURI_effect (k : uint256) (u : string) (s : State) :
  call_effect s (with_tokenURI k u s).
Proof. apply eff_none; reflexivity. Qed.

(** A transaction, with whatever calls made back, is a sequence of the
    writes single calls make. *)
Lemma during_rtc (back : list Tx) :
  Forall (fun t => forall s s', exec s t = Ok s' -> rtc call_effect s s') back ->
  forall s, rtc call_effect s (during back s).
Proof.
  induction 1 as [|t back Ht _ IH]; intros s; [apply rtc_refl|].
  rewrite during_cons. destruct (exec s t) as [s1|msg] eqn:E; simpl.
  - eapply (@transitivity _ (rtc call_effect) _); [apply Ht; eassumption | apply IH].
  - apply IH.
Qed.

Lemma exec_rtc (t : Tx) (s s' : State) : exec s t = Ok s' -> rtc call_effect s s'.
Proof.
  revert s s'. induction t as [e m back IH] using Tx_induction. intros s s'.
  rewrite exec_Nest.
  pose proof (during_rtc back IH) as Hd.
  destruct m; try (intros H; apply rtc_once; eapply receive_effect; eassumption).
  - intros H. peel. destruct x as [s2 newId]. simpl in *.
    unfold mintLease_calling in *. peel. destruct x as [s1 k]. simpl in *.
    match goal with H : mintLease_head _ _ _ _ _ _ _ _ _ _ = Ok _ |- _ =>
      apply mintLease_head_Ok in H as (Heff & _) end.
    match goal with H : _setTokenURI _ _ _ = Ok _ |- _ =>
      apply _setTokenURI_Ok in H as (_ & ->) end.
    eapply rtc_l; [exact Heff|]. eapply rtc_r; [apply Hd|].
    apply with_tokenURI_effect.
  - unfold withdrawFees_calling. intros H. peel. apply Hd.
  - unfold safeTransferFrom_calling. intros H. peel.
    match goal with H : _transfer _ _ _ _ = Ok _ |- _ =>
      apply _transfer_effect in H as (Heff & _) end.
    eapply rtc_l; [exact Heff | apply Hd].
Qed.

Lemma during_effects (back : list Tx) (s : State) : rtc call_effect s (during back s).
Proof.
  apply during_rtc. apply Forall_forall. intros t _ s0 s1. apply exec_rtc.
Qed.

Lemma rtc_keeps (s s' : State) (t : uint256) (d : string) :
  rtc call_effect s s' ->
  (_exists s t = true ->
     _exists s' t = true /\ terms (lease s' t) = terms (lease s t)) /\
  (tokenOfDomain s d <> 0 -> tokenOfDomain s' d = tokenOfDomain s d).
Proof.
  induction 1 as [s|s s1 s' Heff _ IH]; [auto|].
  destruct (call_effect_keeps s s1 t d Heff) as [H1 H2].
  destruct IH as [H3 H4]. split.
  - intros Hx. destruct (H1 Hx) as [Hx1 Ht1]. destruct (H3 Hx1) as [Hx2 Ht2].
    split; [assumption | congruence].
  - intros Hb. rewrite H4; [apply H2; assumption|]. rewrite H2; assumption.
Qed.


Lemma sent_by_others_Nest (a : address) (e : Env) (m : Msg) (back : list Tx) :
  sent_by_others a (Nest e m back) <->
  msg_sender e <> a /\ Forall (sent_by_others a) back.
Proof.
  unfold sent_by_others. simpl. rewrite List.Forall_cons_iff, List.Forall_flat_map.
  reflexivity.
Qed.

Lemma during_others (back : list Tx) (P : State -> State -> Prop) :
  (forall s, P s s) -> (forall s1 s2 s3, P s1 s2 -> P s2 s3 -> P s1 s3) ->
  (forall s s', P s s' -> owner s' = owner s) ->
  Forall (fun t => forall s, sent_by_others (owner s) t -> P s (settle s (exec s t))) back ->
  forall s, Forall (sent_by_others (owner s)) back -> P s (during back s).
Proof.
  intros Hrefl Htrans Hown. induction 1 as [|t back Ht _ IH]; intros s Hs; [apply Hrefl|].
  apply List.Forall_cons_iff in Hs as [Hs1 Hs2].
  rewrite during_cons. eapply Htrans; [apply Ht; assumption|].
  apply IH. rewrite (Hown s _ (Ht s Hs1)). assumption.
Qed.

(** X1.  The administered part of the storage (fee, treasury, owner, token
    counter, bindings of domains) is out of reach of every account but the
    owner: a transaction leaves these as they are, reverted or not, whatever
    calls are made back into the contract while it runs, as long as none of
    its calls is sent by the owner. *)
Theorem only_owner_administers (s : State) (t : Tx) :
  sent_by_others (owner s) t ->
  let s' := settle s (exec s t) in
  platformFee s' = platformFee s /\ treasury s' = treasury s /\
  owner s' = owner s /\ totalLeases s' = totalLeases s /\
  domainToToken s' = domainToToken s.
Proof.
  unfold totalLeases. revert s.
  induction t as [e m back IH] using Tx_induction. intros s Hs.
  apply sent_by_others_Nest in Hs as [Hne Hback].
  assert (Hd : forall s1, owner s1 = owner s ->
    platformFee (during back s1) = platformFee s1 /\ treasury (during back s1) = treasury s1 /\
    owner (during back s1) = owner s1 /\ _tokenIds (during back s1) = _tokenIds s1 /\
    domainToToken (during back s1) = domainToToken s1).
  { intros s1 Ho.
    apply (during_others back (fun s s' =>
      platformFee s' = platformFee s /\ treasury s' = treasury s /\
      owner s' = owner s /\ _tokenIds s' = _tokenIds s /\
      domainToToken s' = domainToToken s)).
    - intros s0. repeat split.
    - intros s2 s3 s4 (A1 & A2 & A3 & A4 & A5) (B1 & B2 & B3 & B4 & B5).
      repeat split; congruence.
    - intros s2 s3 (_ & _ & A3 & _). exact A3.
    - exact IH.
    - rewrite Ho. assumption. }
  assert (Hrevert : onlyOwner e s = Revert "Ownable: caller is not the owner").
  { unfold onlyOwner, require. destruct (Z.eqb_spec (owner s) (msg_sender e)); [|reflexivity].
    exfalso. apply Hne. congruence. }
  rewrite exec_Nest. cbv zeta.
  destruct m;
    try (destruct (receive e s _) as [s'|msg] eqn:E; simpl; [|repeat split];
         apply receive_admin in E as (H1 & H2 & H3 & H4 & H5);
         repeat split; tauto).
  - unfold mintLease_calling, mintLease_head. rewrite Hrevert. simpl. repeat split.
  - unfold withdrawFees_calling. rewrite Hrevert. simpl. repeat split.
  - destruct (safeTransferFrom_calling (during back) e s from to tokenId data)
      as [s'|msg] eqn:E; simpl; [|repeat split].
    unfold safeTransferFrom_calling in E. peel.
    match goal with H : _transfer _ _ _ _ = Ok ?s1 |- _ =>
      unfold _transfer, ERC721_transfer in H; peel;
      match goal with |- context [during back ?s1] =>
        destruct (Hd s1 eq_refl) as (A1 & A2 & A3 & A4 & A5) end end.
    rewrite A1, A2, A3, A4, A5. repeat split.
Qed.

Lemma only_owner_administers_witness :
  totalLeases (settle (run (constructor 1 9) one_lease)
    (exec (run (constructor 1 9) one_lease)
       (Nest (caller 3) (SafeTransferFrom 3 4 1 "")
          [Nest (caller 4) (SetPlatformFee 0) []; Nest (caller 4) (Approve 3 1) []])))
  = totalLeases (run (constructor 1 9) one_lease).
Proof.
  apply (only_owner_administers (run (constructor 1 9) one_lease)
           (Nest (caller 3) (SafeTransferFrom 3 4 1 "")
              [Nest (caller 4) (SetPlatformFee 0) []; Nest (caller 4) (Approve 3 1) []])).
  repeat constructor; vm_compute; discriminate.
Defined.


(** X9.  A mint can be read back, whatever the lessee does when it is
    called: after a successful [mintLease] the id returned is one more than
    the total of leases before (modulo 2^256), the token exists, its lease has
    the domain, lessor, dates, price, restrictions and agreement passed in,
    its URI is the one given, and the domain is bound to it.  When the lessee
    makes no call back, the id is also the new total of leases, the lessee
    holds the token, [getLeaseInfo] gives the lease as passed in, active, and
    it is reported active exactly from its start to its end. *)
Theorem mint_reads_back (e : Env) (s s' : State) (back : list Tx) (lr le : address)
    (d : string) (sd ed p : uint256) (r h u : string) (newId : uint256) :
  mintLease_calling (during back) e s lr le d sd ed p r h u = Ok (s', newId) ->
  newId = wrap256 (totalLeases s + 1) /\
  _exists s' newId = true /\
  terms (lease s' newId) = (d, lr, sd, ed, p, r, h) /\
  mread "" (_tokenURIs s') newId = u /\
  (newId <> 0 -> tokenOfDomain s' d = newId) /\
  (back = [] ->
     totalLeases s' = newId /\ tokenOfDomain s' d = newId /\
     getLeaseInfo s' newId = Ok (mkLeaseInfo d lr le sd ed p r h true) /\
     ownerOf s' newId = Ok le /\
     forall timestamp,
       isLeaseActive s' timestamp newId = Ok ((sd <=? timestamp) && (timestamp <=? ed))).
Proof.
  unfold mintLease_calling. intros H. peel. destruct x as [s1 k]. simpl in *.
  match goal with H : mintLease_head _ _ _ _ _ _ _ _ _ _ = Ok _ |- _ =>
    apply mintLease_head_Ok in H
      as (_ & _ & Hk & Hcount & Hown & Hle & Hlease & Hbound & _) end.
  match goal with H : _setTokenURI _ _ _ = Ok _ |- _ =>
    apply _setTokenURI_Ok in H as (Hx & ->) end.
  assert (Hx1 : _exists s1 k = true).
  { unfold _exists. rewrite Hown. apply nonzero_exists. assumption. }
  destruct (rtc_keeps s1 (during back s1) k d (during_effects back s1)) as [Hkeep Hbind].
  destruct (Hkeep Hx1) as [_ Hterms].
  split; [exact Hk|]. split; [exact Hx|].
  split; [unfold with_tokenURI; views; simpl; views; rewrite Hterms, Hlease; reflexivity|].
  split; [unfold with_tokenURI; simpl; mrw; reflexivity|].
  split.
  - intros Hne. unfold with_tokenURI. views. simpl. views.
    rewrite Hbind; [exact Hbound | rewrite Hbound; exact Hne].
  - intros ->. unfold during in *. simpl in *.
    unfold totalLeases, getLeaseInfo, ownerOf, isLeaseActive, with_tokenURI. views. simpl.
    views. rewrite Hown, Hlease, Hbound, Hcount. simpl.
    rewrite (nonzero_exists le Hle). simpl. repeat split.
Qed.

Lemma mint_reads_back_witness :
  terms (lease (settle (constructor 1 9) (exec (constructor 1 9) passes_on)) 1)
  = ("a.com", 2, 10, 20, 5, "", "").
Proof.
  apply (mint_reads_back (caller 1) (constructor 1 9)
           (settle (constructor 1 9) (exec (constructor 1 9) passes_on))
           [Nest (caller 3) (TransferFrom 3 4 1) []]
           2 3 "a.com" 10 20 5 "" "" "ipfs://a" 1).
  vm_compute. reflexivity.
Defined.

(** X10.  A lease changes hands only through its holder: a transfer that
    goes through was sent by the holder, by an operator the holder approved
    for all, or by the account approved for the token; it moves the token
    from its holder to a non-zero address, and whatever the receiver of a
    safe transfer does when it is called, the token goes on existing with the
    terms of its lease.  When no call is made back ([transferFrom] calls
    nobody), the receiver holds the token after the transfer, the approval of
    the token is cleared and the active flag of the lease is as before. *)
Theorem transfer_needs_the_holder (e : Env) (s s' : State) (back : list Tx)
    (from to : address) (t : uint256) (data : string) :
  (back = [] /\ transferFrom e s from to t = Ok s') \/
  safeTransferFrom_calling (during back) e s from to t data = Ok s' ->
  ownerOf s t = Ok from /\ to <> 0 /\
  (msg_sender e = from \/ isApprovedForAll s from (msg_sender e) = true \/
   getApproved s t = Ok (msg_sender e)) /\
  _exists s' t = true /\
  terms (lease s' t) = terms (lease s t) /\
  (back = [] ->
     ownerOf s' t = Ok to /\ getApproved s' t = Ok 0 /\
     active (lease s' t) = active (lease s t)).
Proof.
  intros H.
  assert (Ht : exists ok s1, _isApprovedOrOwner s (msg_sender e) t = Ok ok /\ ok = true /\
                 _transfer s from to t = Ok s1 /\ s' = during back s1).
  { destruct H as [[-> H]|H];
      [unfold transferFrom in H | unfold safeTransferFrom_calling in H];
      peel; eauto 10. }
  destruct Ht as (ok & s1 & Hok & -> & Htr & ->). clear H.
  destruct (_transfer_effect s s1 from to t Htr) as (Heff & Hown1 & _).
  assert (Hx1 : _exists s1 t = true).
  { unfold ownerOf in Hown1. peel. assumption. }
  destruct (rtc_keeps s1 (during back s1) t "" (during_effects back s1)) as [Hkeep _].
  destruct (Hkeep Hx1) as [Hx2 Hterms2].
  unfold _isApprovedOrOwner, ownerOf, getApproved in Hok. peel.
  unfold _transfer, ERC721_transfer, ownerOf in Htr. peel.
  match goal with H : (_ =? from) = true |- _ => apply Z.eqb_eq in H end.
  views.
  split.
  { unfold ownerOf. views. cbv zeta.
    match goal with H : negb (mread 0 (_owners s) t =? 0) = true |- _ => rewrite H end.
    simpl. congruence. }
  split; [intros ->; discriminate|].
  split.
  { match goal with H : mread 0 (_owners s) t = from |- _ => rewrite H in Hok end.
    unfold getApproved. views. cbv zeta.
    match goal with H : negb (mread 0 (_owners s) t =? 0) = true |- _ => rewrite H end.
    simpl.
    apply orb_prop in Hok as [Hok|Hok]; [apply orb_prop in Hok as [Hok|Hok]|].
    - left. apply Z.eqb_eq in Hok. assumption.
    - right. left. assumption.
    - right. right. apply Z.eqb_eq in Hok. congruence. }
  split; [exact Hx2|].
  split.
  { rewrite Hterms2. unfold terms. views. simpl. mrw. reflexivity. }
  intros ->. unfold during. simpl.
  unfold ownerOf, getApproved. views. simpl. mrw.
  match goal with H : negb (to =? 0) = true |- _ => rewrite H end. simpl.
  repeat split.
Qed.

Lemma transfer_needs_the_holder_witness :
  getApproved (run (constructor 1 9)
                 (one_lease ++ [Call (caller 3) (Approve 8 1);
                                Call (caller 8) (TransferFrom 3 4 1)])) 1 = Ok 0.
Proof.
  apply (transfer_needs_the_holder (caller 8)
           (run (constructor 1 9) (one_lease ++ [Call (caller 3) (Approve 8 1)]))
           _ [] 3 4 1 "").
  - left. split; [reflexivity|]. vm_compute. reflexivity.
  - reflexivity.
Defined.


(** *** Calls made back reach no new storage *)

(** Setting the URI of a token that exists commutes with every call: no
    function reads the URIs, and a mint writes the URI of a new token. *)
Ltac open_calls :=
  unfold mintLease, mintLease_head, _safeMint, _mint, _setTokenURI, terminateLease,
    setPlatformFee, setTreasury, withdrawFees, approve, setApprovalForAll, transferFrom,
    safeTransferFrom, _transfer, ERC721_transfer, transferOwnership, renounceOwnership,
    _isApprovedOrOwner, ownerOf, getApproved, onlyOwner, isApprovedForAll, _exists,
    _ownerOf, tokenOfDomain, lease, owner, with_tokenURI in *.

Ltac both_sides :=
  repeat match goal with
  | |- context [require ?c ?m] => destruct c eqn:?; simpl
  end.

Lemma receive_with_tokenURI (e : Env) (s : State) (m : Msg) (k : uint256) (u : string) :
  _exists s k = true ->
  receive e (with_tokenURI k u s) m
  = match receive e s m with
    | Ok s' => Ok (with_tokenURI k u s')
    | Revert reason => Revert reason
    end.
Proof.
  intros Hk. destruct m; simpl; open_calls; simpl; both_sides; try reflexivity.
  unfold set_tokenURIs. simpl. do 2 f_equal.
  apply insert_insert_ne. intros Heq. rewrite <- Heq in Hk.
  match goal with H : negb (negb _) = true |- _ => rewrite Hk in H; discriminate H end.
Qed.


Lemma mintLease_head_with_tokenURI (e : Env) (s : State) (lr le : address) (d : string)
    (sd ed p : uint256) (r h : string) (k : uint256) (u : string) :
  mintLease_head e (with_tokenURI k u s) lr le d sd ed p r h
  = match mintLease_head e s lr le d sd ed p r h with
    | Ok head => Ok (with_tokenURI k u (fst head), snd head)
    | Revert reason => Revert reason
    end.
Proof. open_calls; simpl; both_sides; reflexivity. Qed.

Lemma mintLease_head_new (e : Env) (s s1 : State) (lr le : address) (d : string)
    (sd ed p : uint256) (r h : string) (newId : uint256) :
  mintLease_head e s lr le d sd ed p r h = Ok (s1, newId) -> _exists s newId = false.
Proof.
  unfold mintLease_head, _mint. intros H. peel. unfold _exists, _ownerOf in *. simpl in *.
  match goal with H : negb (negb _) = true |- _ => rewrite negb_involutive in H end.
  rewrite negb_false_iff. assumption.
Qed.

Lemma safeTransferFrom_calling_split (F : State -> State) (e : Env) (s : State)
    (from to : address) (t : uint256) (data : string) :
  safeTransferFrom_calling F e s from to t data
  = match transferFrom e s from to t with
    | Ok s1 =>
        require! onERC721Received e (msg_sender e) from to t data,
          "ERC721: transfer to non ERC721Receiver implementer";;
        Ok (F s1)
    | Revert reason => Revert reason
    end.
Proof.
  unfold safeTransferFrom_calling, transferFrom.
  destruct (_isApprovedOrOwner s (msg_sender e) t) as [ok|]; simpl; [|reflexivity].
  destruct ok; simpl; [|reflexivity].
  destruct (_transfer s from to t); reflexivity.
Qed.

Lemma settle_exists (s : State) (t : Tx) (k : uint256) :
  _exists s k = true -> _exists (settle s (exec s t)) k = true.
Proof.
  intros Hk. destruct (exec s t) as [s'|] eqn:E; simpl; [|assumption].
  apply (rtc_keeps s s' k "" (exec_rtc t s s' E)). assumption.
Qed.

Lemma during_with_tokenURI (back : list Tx) (k : uint256) (u : string) :
  Forall (fun t => forall s, _exists s k = true ->
            exec (with_tokenURI k u s) t
            = match exec s t with
              | Ok s' => Ok (with_tokenURI k u s')
              | Revert reason => Revert reason
              end) back ->
  forall s, _exists s k = true ->
    during back (with_tokenURI k u s) = with_tokenURI k u (during back s).
Proof.
  induction 1 as [|t back Ht _ IH]; intros s Hk; [reflexivity|].
  rewrite !during_cons, (Ht s Hk).
  pose proof (settle_exists s t k Hk) as Hk'.
  destruct (exec s t) as [s'|]; simpl in *; apply IH; assumption.
Qed.

Lemma exec_with_tokenURI (t : Tx) (k : uint256) (u : string) (s : State) :
  _exists s k = true ->
  exec (with_tokenURI k u s) t
  = match exec s t with
    | Ok s' => Ok (with_tokenURI k u s')
    | Revert reason => Revert reason
    end.
Proof.
  revert s. induction t as [e m back IH] using Tx_induction. intros s Hk.
  pose proof (during_with_tokenURI back k u IH) as Hd.
  rewrite !exec_Nest.
  destruct m; try (apply (receive_with_tokenURI e s _ k u Hk)).
  - unfold mintLease_calling. rewrite mintLease_head_with_tokenURI.
    destruct (mintLease_head _ _ _ _ _ _ _ _ _ _) as [[s1 newId]|] eqn:Eh; simpl;
      [|reflexivity].
    pose proof (mintLease_head_new _ _ _ _ _ _ _ _ _ _ _ _ Eh) as Hnew.
    apply mintLease_head_Ok in Eh as (Heff & _).
    assert (Hk1 : _exists s1 k = true).
    { apply (call_effect_keeps s s1 k "" Heff). assumption. }
    rewrite (Hd s1 Hk1).
    destruct (onERC721Received _ _ _ _ _ _); simpl; [|reflexivity].
    unfold _setTokenURI.
    replace (_exists (with_tokenURI k u (during back s1)) newId)
      with (_exists (during back s1) newId) by reflexivity.
    destruct (_exists (during back s1) newId); simpl; [|reflexivity].
    unfold with_tokenURI, set_tokenURIs. simpl. do 2 f_equal.
    apply insert_insert_ne. intros Heq. congruence.
  - unfold withdrawFees_calling, onlyOwner, owner, with_tokenURI. simpl.
    both_sides; try reflexivity. f_equal. apply Hd. assumption.
  - rewrite !safeTransferFrom_calling_split.
    match goal with |- context [transferFrom e s ?f ?t ?i] =>
      pose proof (receive_with_tokenURI e s (TransferFrom f t i) k u Hk) as Ht end.
    simpl in Ht. rewrite Ht.
    destruct (transferFrom e s _ _ _) as [s1|] eqn:Et; [|reflexivity].
    assert (Hk1 : _exists s1 k = true).
    { apply (rtc_keeps s s1 k "").
      - apply rtc_once. eapply (receive_effect e s s1 (TransferFrom _ _ _)).
        exact Et.
      - assumption. }
    destruct (onERC721Received _ _ _ _ _ _); simpl; [|reflexivity].
    f_equal. apply Hd. assumption.
Qed.

Lemma run_app (s : State) (tr1 tr2 : list Action) :
  run s (tr1 ++ tr2)%list = run (run s tr1) tr2.
Proof. apply fold_left_app. Qed.

Lemma transactions_app (tr1 tr2 : list Action) :
  transactions tr1 -> transactions tr2 -> transactions (tr1 ++ tr2)%list.
Proof. intros H1 H2. apply List.Forall_app. split; assumption. Qed.

Lemma during_flat (back : list Tx) :
  Forall (fun t => forall s s', exec s t = Ok s' ->
            exists tr, transactions tr /\ incl tr (calls t) /\ run s tr = s') back ->
  forall s, exists tr, transactions tr /\ incl tr (flat_map calls back) /\
                       run s tr = during back s.
Proof.
  induction 1 as [|t back Ht _ IH]; intros s.
  - exists []. split; [constructor|]. split; [apply incl_nil_l | reflexivity].
  - rewrite during_cons. destruct (IH (settle s (exec s t))) as (tr2 & T2 & I2 & R2).
    destruct (exec s t) as [s1|] eqn:E; simpl in *.
    + destruct (Ht s s1 E) as (tr1 & T1 & I1 & R1).
      exists (tr1 ++ tr2)%list. split; [apply transactions_app; assumption|].
      split; [apply incl_app; [apply incl_appl | apply incl_appr]; assumption|].
      rewrite run_app, R1. exact R2.
    + exists tr2. split; [assumption|]. split; [apply incl_appr; assumption | exact R2].
Qed.

(** X30.  Calls made back into the contract reach no storage that plain
    transactions do not reach: what a transaction that goes through leaves,
    with whatever calls made back while it ran, is what a sequence of plain
    transactions leaves, made of calls of that transaction.  So whatever
    holds after every sequence of plain transactions holds after
    transactions with calls back too. *)
Theorem calls_back_reach_nothing_new (t : Tx) (s s' : State) :
  exec s t = Ok s' ->
  exists tr, transactions tr /\ incl tr (calls t) /\ run s tr = s'.
Proof.
  revert s s'. induction t as [e m back IH] using Tx_induction. intros s s' H.
  pose proof (during_flat back IH) as Hd.
  assert (Hplain : forall s1, receive e s m = Ok s1 ->
    forall tr, transactions tr -> incl tr (flat_map calls back) -> run s1 tr = s' ->
    exists tr', transactions tr' /\ incl tr' (calls (Nest e m back)) /\ run s tr' = s').
  { intros s1 Hr tr T Hin R. exists (Call e m :: tr).
    split; [constructor; [exact I | assumption]|].
    split.
    - simpl. apply incl_cons; [left; reflexivity | apply incl_tl; assumption].
    - rewrite run_cons. unfold apply. simpl. rewrite Hr. exact R. }
  rewrite exec_Nest in H.
  destruct m;
    try (apply (Hplain s' H []); [constructor | apply incl_nil_l | reflexivity]).
  - peel. destruct x as [s2 newId]. simpl in *.
    unfold mintLease_calling in *. peel. destruct x as [s1 k]. simpl in *.
    match goal with H : _setTokenURI _ _ _ = Ok _ |- _ =>
      apply _setTokenURI_Ok in H as (_ & ->) end.
    match goal with H : mintLease_head _ _ _ _ _ _ _ _ _ _ = Ok _ |- _ =>
      pose proof H as Eh;
      apply mintLease_head_Ok in H as (_ & _ & _ & _ & Hown & Hle & _) end.
    assert (Hx1 : _exists s1 k = true).
    { unfold _exists. rewrite Hown. apply nonzero_exists. assumption. }
    destruct (Hd (with_tokenURI k tokenURI s1)) as (tr & T & I & R).
    apply (Hplain (with_tokenURI k tokenURI s1)) with (tr := tr); try assumption.
    + simpl. rewrite <- mintLease_plain. unfold mintLease_calling. rewrite Eh. simpl.
      match goal with H : onERC721Received _ _ _ _ _ _ = true |- _ => rewrite H end.
      simpl. unfold _setTokenURI. unfold during. simpl. rewrite Hx1. reflexivity.
    + rewrite R. apply during_with_tokenURI; [|assumption].
      apply Forall_forall. intros t0 _ s0. apply exec_with_tokenURI.
  - unfold withdrawFees_calling in H. peel.
    destruct (Hd s) as (tr & T & I & R).
    apply (Hplain s) with (tr := tr); try assumption.
    simpl. unfold withdrawFees.
    repeat match goal with H : ?r = Ok _ |- context [?r] => rewrite H; simpl end.
    repeat match goal with H : ?c = true |- context [require ?c _] => rewrite H; simpl end.
    reflexivity.
  - rewrite safeTransferFrom_calling_split in H.
    destruct (transferFrom e s _ _ _) as [s1|] eqn:Et; [|discriminate].
    peel. destruct (Hd s1) as (tr & T & I & R).
    apply (Hplain s1) with (tr := tr); try assumption.
    simpl.
    match goal with |- safeTransferFrom e s ?f ?t ?i ?d = _ =>
      pose proof (safeTransferFrom_calling_split (fun s0 => s0) e s f t i d) as Hs end.
    unfold safeTransferFrom_calling in Hs. unfold safeTransferFrom. rewrite Hs, Et.
    match goal with H : onERC721Received _ _ _ _ _ _ = true |- _ => rewrite H end.
    reflexivity.
Qed.

Lemma calls_back_reach_nothing_new_witness :
  exists tr, transactions tr /\ incl tr (calls passes_on) /\
    run (constructor 1 9) tr = settle (constructor 1 9) (exec (constructor 1 9) passes_on).
Proof.
  apply (calls_back_reach_nothing_new passes_on (constructor 1 9)).
  vm_compute. reflexivity.
Defined.

End LeaseMore.

(** ** The request guards *)

Module MiddlewareFacts.
Import Auth Middleware AuthFacts.

Lemma append_cons (a : ascii) (p w : string) :
  (String a p ++ w)%string = String a (p ++ w)%string.
Proof. reflexivity. Qed.

Lemma append_nil (w : string) : ("" ++ w)%string = w.
Proof. reflexivity. Qed.

Lemma prefix_split (p h : string) :
  String.prefix p h = true -> h = (p ++ substring_from (String.length p) h)%string.
Proof.
  revert h. induction p as [|a p IH]; intros h; [reflexivity|].
  destruct h as [|b h]; simpl; [discriminate|].
  destruct (ascii_dec a b) as [<-|]; [|discriminate].
  intros H. rewrite append_cons. f_equal. apply IH. assumption.
Qed.

Lemma prefix_app (p w : string) : String.prefix p (p ++ w) = true.
Proof.
  induction p as [|a p IH]; [rewrite append_nil; destruct w; reflexivity|].
  rewrite append_cons. simpl.
  destruct (ascii_dec a a); [assumption | contradiction].
Qed.

Lemma substring_from_app (p w : string) :
  substring_from (String.length p) (p ++ w) = w.
Proof.
  induction p as [|a p IH]; [rewrite append_nil; destruct w; reflexivity|].
  rewrite append_cons. simpl. assumption.
Qed.


Section Guards.
Context {platform : Js.Platform}.

(** What [authenticate] does with a header that starts with "Bearer ". *)
Lemma authenticate_Bearer (e : Env) (decode : string -> Presented)
    (users : gmap string User) (w : string) :
  authenticate e decode users (Some ("Bearer " ++ w)) =
  match decode w, JWT_SECRET e with
  | Jwt t, Some key =>
      if (key =? "")%string || negb (signed_with t =? key)%string
      then Answer 401 "Invalid token"
      else if not_yet t (now e) then Answer 500 "Authentication failed"
      else if expired t (now e) then Answer 401 "Token expired"
      else match User_findByPk users (userId t) with
           | Done None => Answer 401 "User not found"
           | Done (Some user) => Next (userId t, user)
           | Throws => Answer 500 "Authentication failed"
           end
  | _, _ => Answer 401 "Invalid token"
  end.
Proof.
  unfold authenticate. rewrite (prefix_app "Bearer " w). cbn [negb].
  change 7%nat with (String.length "Bearer ").
  rewrite (substring_from_app "Bearer " w).
  unfold jwt_verify, verify_error.
  destruct (decode w) as [|t]; [reflexivity|].
  destruct (JWT_SECRET e) as [key|]; [|reflexivity].
  destruct (key =? "")%string; [reflexivity|].
  destruct (signed_with t =? key)%string; [|reflexivity]. cbn [negb orb].
  destruct (not_yet t (now e)); [reflexivity|].
  cbn [negb andb]. destruct (expired t (now e)); reflexivity.
Qed.

(** When [authenticate] hands a request on. *)
Lemma authenticate_Next (e : Env) (decode : string -> Presented)
    (users : gmap string User) (authorization : option string) (uid : string) (u : User) :
  authenticate e decode users authorization = Next (uid, u) <->
  exists w t, authorization = Some ("Bearer " ++ w) /\ decode w = Jwt t /\
    JWT_SECRET e = Some (signed_with t) /\ signed_with t <> "" /\
    not_yet t (now e) = false /\ expired t (now e) = false /\
    userId t = uid /\ User_findByPk users uid = Done (Some u).
Proof.
  split.
  - destruct authorization as [h|]; [|discriminate].
    destruct (String.prefix "Bearer " h) eqn:Ep;
      [|unfold authenticate; rewrite Ep; discriminate].
    rewrite (prefix_split "Bearer " h Ep). simpl String.length.
    set (w := substring_from 7 h). rewrite authenticate_Bearer.
    destruct (decode w) as [|t] eqn:Ed; [discriminate|].
    destruct (JWT_SECRET e) as [key|]; [|discriminate].
    destruct (String.eqb_spec key "") as [|Hk]; [discriminate|].
    destruct (String.eqb_spec (signed_with t) key) as [<-|]; [|discriminate].
    cbn [negb orb].
    destruct (not_yet t (now e)) eqn:En; [discriminate|].
    destruct (expired t (now e)) eqn:Ex; [discriminate|].
    destruct (User_findByPk users (userId t)) as [[u'|]|] eqn:Eu; try discriminate.
    intros Hn. injection Hn as <- <-. exists w, t. auto 10.
  - intros (w & t & -> & Hd & Hk & Hne & Hnb & Hc & <- & Hu).
    rewrite authenticate_Bearer, Hd, Hk.
    destruct (String.eqb_spec (signed_with t) ""); [contradiction|].
    rewrite String.eqb_refl, Hnb, Hc, Hu. reflexivity.
Qed.


(** X12.  A token handed out by register, login, wallet-login or refresh
    opens the guarded routes for seven days: sent as "Bearer <token>" to a
    server with the same key, it passes [authenticate] as the user it names
    while the clock is before its expiry.  From the expiry on [authenticate]
    answers 401 "Token expired", and the token can still be exchanged by
    refresh. *)
Theorem issued_token_authenticates (e e' : Env) (decode : string -> Presented)
    (users : gmap string User) (out : gmap string User * Response)
    (t : Token) (w : string) :
  keyed users -> logs_in e users out -> token (snd out) = Some t ->
  decode w = Jwt t -> JWT_SECRET e' = JWT_SECRET e ->
  (now e' < now e + 604800 ->
     exists u, fst out !! userId t = Some u /\
       authenticate e' decode (fst out) (Some ("Bearer " ++ w)) = Next (userId t, u)) /\
  (now e + 604800 <= now e' ->
     authenticate e' decode (fst out) (Some ("Bearer " ++ w)) = Answer 401 "Token expired" /\
     token (snd (refresh e' (fst out) (Some (Jwt t)))) <> None).
Proof.
  intros Hk Hin Ht Hd Hs.
  destruct (logs_in_token e users out t Hk Hin Ht) as [(u & Hu & _) [uid Hg]].
  apply generateToken_Done in Hg as (_ & Hiat & Hnbf & Hexp & Hkey & Hne).
  rewrite <- Hs in Hkey.
  assert (Hny : forall clock, not_yet t clock = false).
  { intros clock. unfold not_yet. rewrite Hnbf. reflexivity. }
  assert (Hfind : User_findByPk (fst out) (userId t) = Done (Some u)).
  { apply findByPk_hit. assumption. }
  split.
  - intros Hc. exists u. split; [assumption|].
    apply authenticate_Next.
    exists w, t. split; [reflexivity|]. split; [assumption|]. split; [assumption|].
    split; [assumption|]. split; [apply Hny|]. split; [|split; [reflexivity | assumption]].
    unfold expired. rewrite Hexp. apply Z.leb_gt. lia.
  - intros Hc.
    assert (Hx : expired t (now e') = true).
    { unfold expired. rewrite Hexp. apply Z.leb_le. lia. }
    split.
    + rewrite authenticate_Bearer, Hd, Hkey.
      destruct (String.eqb_spec (signed_with t) ""); [contradiction|].
      rewrite String.eqb_refl, Hny, Hx. reflexivity.
    + unfold refresh.
      rewrite (proj2 (jwt_verify_Done (Jwt t) (JWT_SECRET e') true (now e') t))
        by auto 6.
      rewrite Hfind, (generateToken_key e' (id u) _ Hkey Hne). discriminate.
Qed.

(** X13.  [optionalAuth] never answers a request itself: it always hands it
    on, and it attaches a user exactly when [authenticate] would have let the
    request through, the same user. *)
Theorem optionalAuth_never_blocks (e : Env) (decode : string -> Presented)
    (users : gmap string User) (authorization : option string) :
  (exists attached, optionalAuth e decode users authorization = Next attached) /\
  (forall x, optionalAuth e decode users authorization = Next (Some x) <->
             authenticate e decode users authorization = Next x).
Proof.
  unfold optionalAuth, authenticate.
  destruct authorization as [h|]; [|split; [eauto | split; discriminate]].
  destruct (negb (String.prefix "Bearer " h)); [split; [eauto | split; discriminate]|].
  destruct (jwt_verify _ _ _ _) as [t|].
  - destruct (User_findByPk users (userId t)) as [[u|]|].
    + split; [eauto|]. intros x. split; intros Hx; injection Hx as <-; reflexivity.
    + split; [eauto | split; discriminate].
    + split; [eauto | split; discriminate].
  - split; [eauto|]. intros x. cbv zeta.
    destruct (verify_error _ _ _ =? "JsonWebTokenError")%string; [split; discriminate|].
    destruct (verify_error _ _ _ =? "TokenExpiredError")%string; split; discriminate.
Qed.

End Guards.

(** X14.  [requirePro] lets a request through exactly when it carries a user
    who is Pro and whose subscription has no end or has not ended, and then
    writes nothing.  For a Pro user whose subscription has ended it answers
    403 and stores the user as no longer Pro with no end date, so that the
    same check on the stored row answers 403 "Pro subscription required"
    without writing again, whatever the clock. *)
Theorem requirePro_expires_once (clock : Z) (accounts : gmap string Account)
    (req_user : option Account) :
  let out := requirePro clock accounts req_user in
  (snd out = Next tt <->
   exists a, req_user = Some a /\ isPro (user a) = true /\
     forall expiry, proExpiresAt a = Some expiry -> clock <= expiry) /\
  (snd out = Next tt -> fst out = accounts) /\
  (forall a expiry, req_user = Some a -> isPro (user a) = true ->
     proExpiresAt a = Some expiry -> expiry < clock ->
     exists a', fst out !! id (user a) = Some a' /\
       isPro (user a') = false /\ proExpiresAt a' = None /\
       snd out = Answer 403 "Pro subscription expired" /\
       forall clock',
         requirePro clock' (fst out) (Some a') =
         (fst out, Answer 403 "Pro subscription required")).
Proof.
  intros out. subst out. unfold requirePro. split; [|split].
  - destruct req_user as [a|]; simpl; [|split; [discriminate | intros (a & H & _); discriminate]].
    destruct (isPro (user a)) eqn:Ep; simpl.
    + destruct (proExpiresAt a) as [x|] eqn:Ex.
      * destruct (Z.ltb_spec x clock); simpl.
        -- split; [discriminate|]. intros (a' & Ha & _ & Hx). injection Ha as <-.
           specialize (Hx x Ex). lia.
        -- split; [|reflexivity]. intros _. exists a. repeat split; auto.
           intros y Hy. rewrite Ex in Hy. injection Hy as <-. assumption.
      * simpl. split; [|reflexivity]. intros _. exists a. repeat split; auto.
        intros y Hy. rewrite Ex in Hy. discriminate.
    + split; [discriminate|]. intros (a' & Ha & Hp & _). injection Ha as <-. congruence.
  - destruct req_user as [a|]; simpl; [|reflexivity].
    destruct (negb (isPro (user a))); [reflexivity|].
    destruct (proExpiresAt a) as [x|]; [|reflexivity].
    destruct (x <? clock); [discriminate | reflexivity].
  - intros a x -> Hp Hx Hlt. rewrite Hp, Hx. simpl.
    destruct (Z.ltb_spec x clock); [|lia]. simpl.
    eexists. rewrite lookup_insert_eq. split; [reflexivity|]. simpl.
    repeat split.
Qed.

Lemma requirePro_expires_once_witness :
  snd (requirePro 1000 {[ "u1" := lapsed ]} (Some lapsed))
  = Answer 403 "Pro subscription expired".
Proof.
  destruct (proj2 (proj2 (requirePro_expires_once 1000 {[ "u1" := lapsed ]} (Some lapsed)))
              lapsed 500 eq_refl eq_refl eq_refl) as (a' & _ & _ & _ & H & _).
  - lia.
  - exact H.
Defined.

Lemma count_outside_enum (log : list Interaction) (uid kind : string) (since : Z) :
  storable log -> ~ In kind actionType_enum ->
  List.filter (fun i => (by_user i =? uid)%string && (actionType i =? kind)%string
                        && (since <=? createdAt i)) log = [].
Proof.
  intros Hs Hk. induction Hs as [|i log Hi Hs IH]; [reflexivity|].
  simpl. destruct (String.eqb_spec (actionType i) kind) as [Heq|Hne].
  - exfalso. apply Hk. rewrite <- Heq. assumption.
  - rewrite andb_false_r. simpl. assumption.
Qed.

(** X15.  [checkAILimit] never limits anyone: it counts the rows of
    InteractionHistory whose [actionType] is 'ai_analysis', which is not a
    member of the ENUM of that column, so over every table the engine can
    hold the request is handed on, with the full allowance of 50 (Pro) or 5
    calls when the count does not throw. *)
Theorem checkAILimit_never_limits (strict : bool) (clock : Z) (log : list Interaction)
    (userId : string) (req_user : User) :
  storable log ->
  checkAILimit strict clock log userId req_user =
    Next (if strict then None else Some (if isPro req_user then 50 else 5)).
Proof.
  intros Hs. unfold checkAILimit, Interaction_count.
  rewrite (count_outside_enum log userId "ai_analysis" _ Hs).
  - destruct strict; simpl; [reflexivity|]. destruct (isPro req_user); reflexivity.
  - simpl. intros [H|[H|[H|[H|[H|[]]]]]]; discriminate.
Qed.

Lemma checkAILimit_never_limits_witness :
  checkAILimit false 5000000
    (repeat (mkInteraction "u1" "view" 4999000) 60) "u1" ann = Next (Some 5).
Proof.
  apply (checkAILimit_never_limits false 5000000
           (repeat (mkInteraction "u1" "view" 4999000) 60) "u1" ann).
  apply Forall_forall. intros i Hi. apply list_elem_of_In, repeat_spec in Hi.
  subst i. simpl. tauto.
Defined.

(** *** On the sample data *)

#[local] Existing Instance Js.strict.


Lemma issued_token_authenticates_witness :
  exists u,
    authenticate server wire
      (fst (login server {[ "u1" := ann ]} "ann@example.com" "Passw0rd"))
      (Some "Bearer fresh.token") = Next ("u1", u).
Proof.
  destruct (proj1 (issued_token_authenticates server server wire {[ "u1" := ann ]}
                     (login server {[ "u1" := ann ]} "ann@example.com" "Passw0rd")
                     fresh "fresh.token" ann_keyed
                     (by_login server _ "ann@example.com" "Passw0rd")
                     eq_refl eq_refl eq_refl)) as (u & _ & H).
  - vm_compute. reflexivity.
  - exists u. exact H.
Defined.

Lemma optionalAuth_never_blocks_witness :
  optionalAuth server wire {[ "u1" := ann ]} (Some "Bearer stale.token") = Next None /\
  optionalAuth server wire {[ "u1" := ann ]} (Some "Bearer fresh.token")
  = Next (Some ("u1", ann)).
Proof.
  split; [vm_compute; reflexivity|].
  apply (proj2 (optionalAuth_never_blocks server wire {[ "u1" := ann ]}
                  (Some "Bearer fresh.token"))).
  vm_compute. reflexivity.
Defined.

End MiddlewareFacts.

(** ** More about the sessions *)

Module AuthMore.
Import Auth AuthFacts AuthSamples.

Section Sessions.
Context {platform : Js.Platform}.

(** The row just created is the one a search by a fresh unique column
    finds. *)
Lemma findOne_created (users : gmap string User) (p : User -> bool) (u : User) :
  User_findOne users p = None -> p u = true ->
  User_findOne (<[id u := u]> users) p = Some u.
Proof.
  intros Hnone Hp.
  destruct (User_findOne (<[id u := u]> users) p) as [u'|] eqn:E.
  - apply findOne_Some in E as [[pk Hu'] Hp'].
    destruct (decide (id u = pk)) as [<-|Hne].
    + rewrite lookup_insert_eq in Hu'. congruence.
    + rewrite lookup_insert_ne in Hu' by assumption.
      rewrite (findOne_None users p pk u' Hnone Hu') in Hp'. discriminate.
  - rewrite (findOne_None _ p (id u) u E) in Hp; [discriminate|].
    apply lookup_insert_eq.
Qed.

Lemma User_create_insert (e : Env) (users users' : gmap string User) (u : User) :
  User_create e users u = Done users' -> users' = <[id u := u]> users.
Proof.
  unfold User_create.
  destruct (users !! id u); [discriminate|].
  destruct (User_findOne users (has_email (email u))); [discriminate|].
  match goal with |- context [if ?c then _ else _] => destruct c end; [|discriminate].
  intros H. injection H as <-. reflexivity.
Qed.

(** What a register answered 201 has done. *)
Lemma register_201 (e : Env) (users : gmap string User)
    (b_email b_password b_name : string) (b_accountType : Js.value) :
  code (snd (register e users b_email b_password b_name b_accountType)) = 201 ->
  User_findOne users (has_email b_email) = None /\
  fst (register e users b_email b_password b_name b_accountType) =
    <[newUserId e :=
        mkUser (newUserId e) b_email (bcrypt_hash e b_password) b_name
          (Js.or b_accountType (Js.Str "lessee")) None false false (now e)]> users.
Proof.
  unfold register.
  destruct (negb (validation_passes e)); [discriminate|].
  destruct (User_findOne users (has_email b_email)); [discriminate|].
  match goal with |- context [User_create e users ?u0] =>
    destruct (User_create e users u0) as [users'|] eqn:Ec; [|discriminate] end.
  apply User_create_insert in Ec. simpl in Ec.
  unfold issue. destruct (generateToken e _); simpl; [|discriminate].
  intros _. auto.
Qed.

(** X16.  An account can be used right after it was made: once register has
    answered 201, a login with the same email and password, on a server with
    a key whose bcrypt accepts the password against the stored hash, answers
    200 with a token that names the new user; a password bcrypt does not
    accept is answered 401 and writes nothing. *)
Theorem register_then_login (e e' : Env) (users : gmap string User)
    (b_email b_password b_name : string) (b_accountType : Js.value) (key : string) :
  code (snd (register e users b_email b_password b_name b_accountType)) = 201 ->
  validation_passes e' = true -> JWT_SECRET e' = Some key -> key <> "" ->
  let users' := fst (register e users b_email b_password b_name b_accountType) in
  (bcrypt_compare e' b_password (bcrypt_hash e b_password) = true ->
     code (snd (login e' users' b_email b_password)) = 200 /\
     shown (snd (login e' users' b_email b_password)) = Some (newUserId e) /\
     exists t, token (snd (login e' users' b_email b_password)) = Some t /\
               userId t = newUserId e) /\
  (forall other, bcrypt_compare e' other (bcrypt_hash e b_password) = false ->
     login e' users' b_email other = (users', failure 401)).
Proof.
  intros H201 Hv Hk Hne users'. subst users'.
  apply register_201 in H201 as [Hnone ->].
  set (u := mkUser (newUserId e) b_email (bcrypt_hash e b_password) b_name
              (Js.or b_accountType (Js.Str "lessee")) None false false (now e)).
  assert (Hfind : User_findOne (<[newUserId e := u]> users) (has_email b_email) = Some u).
  { apply (findOne_created users (has_email b_email) u Hnone).
    unfold has_email. apply String.eqb_refl. }
  split.
  - intros Hc. unfold login. rewrite Hv, Hfind. cbn [negb]. cbv iota.
    change (passwordHash u) with (bcrypt_hash e b_password). rewrite Hc. cbn [negb].
    rewrite (issue_with_key e' _ 200 (id u) key Hk Hne). simpl.
    repeat split. eexists. split; reflexivity.
  - intros other Hc. unfold login. rewrite Hv, Hfind. cbn [negb]. cbv iota.
    change (passwordHash u) with (bcrypt_hash e b_password). rewrite Hc. reflexivity.
Qed.

(** X17.  A register that cannot sign is not undone: on a server without a
    key, a request that passes validation and whose row the table accepts is
    answered 500, yet the user is stored, and every later register with that
    email is answered 409. *)
Theorem register_without_key_keeps_user (e e' : Env) (users users' : gmap string User)
    (b_email b_password b_name : string) (b_accountType : Js.value) :
  JWT_SECRET e = None -> validation_passes e = true ->
  User_create e users
    (mkUser (newUserId e) b_email (bcrypt_hash e b_password) b_name
       (Js.or b_accountType (Js.Str "lessee")) None false false (now e)) = Done users' ->
  register e users b_email b_password b_name b_accountType = (users', failure 500) /\
  users' !! newUserId e <> None /\
  (validation_passes e' = true ->
   forall password' name' accountType',
     register e' users' b_email password' name' accountType' = (users', failure 409)).
Proof.
  intros Hk Hv Hc.
  assert (Hnone : User_findOne users (has_email b_email) = None).
  { unfold User_create in Hc. simpl in Hc.
    destruct (users !! newUserId e); [discriminate|].
    destruct (User_findOne users (has_email b_email)); [discriminate | reflexivity]. }
  pose proof (User_create_insert _ _ _ _ Hc) as Hins. simpl in Hins.
  split; [|split].
  - unfold register. rewrite Hv, Hnone. cbn [negb]. cbv iota. rewrite Hc.
    unfold issue, generateToken, jwt_sign. rewrite Hk. reflexivity.
  - rewrite Hins, lookup_insert_eq. discriminate.
  - intros Hv' password' name' accountType'. unfold register. rewrite Hv'. cbn [negb].
    cbv iota. rewrite Hins.
    match goal with |- context [<[_ := ?u]> users] =>
      pose proof (findOne_created users (has_email b_email) u Hnone
                    ltac:(unfold has_email; apply String.eqb_refl)) as Hfind end.
    simpl in Hfind. rewrite Hfind. reflexivity.
Qed.

Lemma has_wallet_own (e : Env) (w : string) : has_wallet w (wallet_user e w) = true.
Proof. unfold has_wallet. simpl. apply String.eqb_refl. Qed.

(** What a first wallet-login answered 200 has done. *)
Lemma wallet_login_created (e : Env) (users : gmap string User) (w sg msg : string) :
  User_findOne users (has_wallet w) = None ->
  code (snd (wallet_login e users w sg msg)) = 200 ->
  fst (wallet_login e users w sg msg) = <[newUserId e := wallet_user e w]> users /\
  shown (snd (wallet_login e users w sg msg)) = Some (newUserId e).
Proof.
  intros Hnone. unfold wallet_login. rewrite Hnone.
  destruct (verifyMessage e msg sg) as [r|]; [|discriminate].
  match goal with |- context [if ?c then _ else _] => destruct c end; [discriminate|].
  fold (wallet_user e w).
  destruct (User_create e users (wallet_user e w)) as [users'|] eqn:Ec; [|discriminate].
  apply User_create_insert in Ec. simpl in Ec. subst users'.
  unfold issue. destruct (generateToken e _); simpl; [|discriminate]. auto.
Qed.

(** X18.  A wallet has one account: after the wallet-login that created the
    account of a wallet, every later wallet-login of the same address whose
    signature recovers it (on a server with a key) answers 200 for the same
    user id and adds no row to the table. *)
Theorem wallet_login_same_account (e e' : Env) (users : gmap string User)
    (w sg msg sg' msg' recovered key : string) :
  User_findOne users (has_wallet w) = None ->
  code (snd (wallet_login e users w sg msg)) = 200 ->
  verifyMessage e' msg' sg' = Done recovered ->
  toLowerCase recovered = toLowerCase w ->
  JWT_SECRET e' = Some key -> key <> "" ->
  let users' := fst (wallet_login e users w sg msg) in
  let again := wallet_login e' users' w sg' msg' in
  code (snd again) = 200 /\
  shown (snd again) = shown (snd (wallet_login e users w sg msg)) /\
  shown (snd again) = Some (newUserId e) /\
  dom (fst again) = dom users'.
Proof.
  intros Hnone H200 Hv Hl Hk Hne users' again. subst users' again.
  destruct (wallet_login_created e users w sg msg Hnone H200) as [-> ->].
  pose proof (findOne_created users (has_wallet w) (wallet_user e w) Hnone
                (has_wallet_own e w)) as Hfind. simpl in Hfind.
  unfold wallet_login. rewrite Hv, Hl, String.eqb_refl, Hfind. cbn [negb]. cbv iota.
  rewrite (issue_with_key e' _ 200 _ key Hk Hne). simpl.
  repeat split. unfold touch. simpl.
  rewrite insert_insert_eq, !dom_insert_L. reflexivity.
Qed.

(** X19.  The email made up for a wallet is its first ten characters, so it
    is shared by every wallet that starts alike: when a wallet has no
    account yet and the email made up for it is taken, wallet-login cannot
    create the account.  Whatever the signature, the request gets no token
    and the table is left as it was. *)
Theorem wallet_login_email_collision (e : Env) (users : gmap string User)
    (w sg msg : string) :
  User_findOne users (has_wallet w) = None ->
  User_findOne users
    (has_email (String.substring 0 10 w ++ "@wallet.godwallet.com")) <> None ->
  fst (wallet_login e users w sg msg) = users /\
  token (snd (wallet_login e users w sg msg)) = None /\
  code (snd (wallet_login e users w sg msg)) <> 200.
Proof.
  intros Hnone Htaken. unfold wallet_login. rewrite Hnone.
  destruct (verifyMessage e msg sg) as [r|]; [|repeat split; discriminate].
  match goal with |- context [if ?c then _ else _] => destruct c end;
    [repeat split; discriminate|].
  fold (wallet_user e w).
  assert (Hc : User_create e users (wallet_user e w) = Throws).
  { unfold User_create. simpl.
    destruct (users !! newUserId e); [reflexivity|].
    destruct (User_findOne users
                (has_email (String.substring 0 10 w ++ "@wallet.godwallet.com")));
      [reflexivity | contradiction]. }
  rewrite Hc. repeat split; discriminate.
Qed.

Lemma issue_fst (e : Env) (users : gmap string User) (c : Z) (uid : string) :
  fst (issue e users c uid) = users.
Proof. unfold issue. destruct (generateToken e uid); reflexivity. Qed.

Lemma User_create_fresh (e : Env) (users users' : gmap string User) (u : User) :
  User_create e users u = Done users' -> users !! id u = None.
Proof.
  unfold User_create. destruct (users !! id u); [discriminate | reflexivity].
Qed.

Lemma kept_same (e : Env) (users : gmap string User) : keyed users -> kept e users users.
Proof. intros Hk. split; [assumption|]. intros pk u H. eauto. Qed.

Lemma kept_created (e : Env) (users users' : gmap string User) (x : User) :
  keyed users -> User_create e users x = Done users' -> kept e users users'.
Proof.
  intros Hk Hc. pose proof (User_create_fresh _ _ _ _ Hc) as Hfresh.
  apply User_create_insert in Hc as ->. split.
  - intros pk u H. destruct (decide (id x = pk)) as [<-|Hne].
    + rewrite lookup_insert_eq in H. congruence.
    + rewrite lookup_insert_ne in H by assumption. apply Hk. assumption.
  - intros pk u H. exists u. split; [|auto].
    rewrite lookup_insert_ne; [assumption|]. intros Heq. congruence.
Qed.

Lemma kept_touched (e : Env) (users : gmap string User) (p : User -> bool) (x : User) :
  keyed users -> User_findOne users p = Some x -> kept e users (touch e users x).
Proof.
  intros Hk Hf. apply findOne_Some in Hf as [[pk0 Hx] _].
  pose proof (Hk pk0 x Hx) as Hid. unfold touch. split.
  - intros pk u H. destruct (decide (id x = pk)) as [<-|Hne].
    + rewrite lookup_insert_eq in H. injection H as <-. reflexivity.
    + rewrite lookup_insert_ne in H by assumption. apply Hk. assumption.
  - intros pk u H. destruct (decide (id x = pk)) as [<-|Hne].
    + rewrite lookup_insert_eq. eexists. split; [reflexivity|]. right.
      assert (u = x) as -> by congruence. reflexivity.
    + rewrite lookup_insert_ne by assumption. eauto.
Qed.

(** X29.  The session routes never remove an account and never rewrite one:
    after register, login, wallet-login or refresh, whatever the answer,
    every user of the table is still there under the same key with the same
    email, password hash, name, type and wallet, at most its [lastActive]
    moved to the clock of the request; and rows stay stored under their own
    ids. *)
Theorem session_routes_keep_accounts (e : Env) (users : gmap string User)
    (out : gmap string User * Response) :
  keyed users -> logs_in e users out -> kept e users (fst out).
Proof.
  intros Hk Hin. destruct Hin.
  - unfold register.
    destruct (negb (validation_passes e)); [apply kept_same; assumption|].
    destruct (User_findOne users (has_email b_email)); [apply kept_same; assumption|].
    match goal with |- context [User_create e users ?u0] =>
      destruct (User_create e users u0) as [users'|] eqn:Ec end;
      [|apply kept_same; assumption].
    rewrite issue_fst. eapply kept_created; eassumption.
  - unfold login.
    destruct (negb (validation_passes e)); [apply kept_same; assumption|].
    destruct (User_findOne users (has_email b_email)) as [x|] eqn:Ef;
      [|apply kept_same; assumption].
    destruct (negb (bcrypt_compare e b_password (passwordHash x)));
      [apply kept_same; assumption|].
    rewrite issue_fst. eapply kept_touched; eassumption.
  - unfold wallet_login.
    destruct (verifyMessage e b_message b_signature); [|apply kept_same; assumption].
    match goal with |- context [if ?c then _ else _] => destruct c end;
      [apply kept_same; assumption|].
    destruct (User_findOne users (has_wallet b_walletAddress)) as [x|] eqn:Ef.
    + rewrite issue_fst. eapply kept_touched; eassumption.
    + match goal with |- context [User_create e users ?u0] =>
        destruct (User_create e users u0) as [users'|] eqn:Ec end;
        [|apply kept_same; assumption].
      rewrite issue_fst. eapply kept_created; eassumption.
  - unfold refresh. destruct b_token as [p|]; [|apply kept_same; assumption].
    destruct (jwt_verify p (JWT_SECRET e) true (now e)) as [t|];
      [|apply kept_same; assumption].
    destruct (User_findByPk users (userId t)) as [[x|]|];
      try (apply kept_same; assumption).
    destruct (generateToken e (id x)); apply kept_same; assumption.
Qed.

End Sessions.

(** *** On the sample data *)

#[local] Existing Instance Js.strict.

Lemma register_then_login_witness :
  code (snd (login server
               (fst (register server only_ann "bob@example.com" "Secret12" "Bob"
                       Js.Undefined))
               "bob@example.com" "Secret12")) = 200.
Proof.
  apply (proj1 (register_then_login server server only_ann "bob@example.com" "Secret12"
                  "Bob" Js.Undefined "s3cret" eq_refl eq_refl eq_refl
                  ltac:(discriminate))).
  reflexivity.
Defined.

Lemma register_without_key_keeps_user_witness :
  code (snd (register keyless only_ann "bob@example.com" "Secret12" "Bob" Js.Undefined))
  = 500 /\
  fst (register keyless only_ann "bob@example.com" "Secret12" "Bob" Js.Undefined)
    !! "u2" <> None.
Proof.
  destruct (register_without_key_keeps_user keyless server only_ann
              (fst (register keyless only_ann "bob@example.com" "Secret12" "Bob"
                      Js.Undefined))
              "bob@example.com" "Secret12" "Bob" Js.Undefined)
    as (H1 & H2 & _).
  - reflexivity.
  - reflexivity.
  - vm_compute. reflexivity.
  - rewrite H1. split; [reflexivity | exact H2].
Defined.

Lemma wallet_login_same_account_witness :
  shown (snd (wallet_login server_next
                (fst (wallet_login server only_ann wallet_a wallet_a "hello"))
                wallet_a wallet_a "hello again")) = Some "u2".
Proof.
  apply (wallet_login_same_account server server_next only_ann wallet_a wallet_a "hello"
           wallet_a "hello again" wallet_a "s3cret");
    try reflexivity.
  discriminate.
Defined.

Lemma wallet_login_email_collision_witness :
  wallet_a <> wallet_b /\
  code (snd (wallet_login server only_ann wallet_a wallet_a "hello")) = 200 /\
  token (snd (wallet_login server_next
                (fst (wallet_login server only_ann wallet_a wallet_a "hello"))
                wallet_b wallet_b "hello")) = None.
Proof.
  split; [discriminate|]. split; [vm_compute; reflexivity|].
  apply (wallet_login_email_collision server_next
           (fst (wallet_login server only_ann wallet_a wallet_a "hello"))
           wallet_b wallet_b "hello").
  - vm_compute. reflexivity.
  - vm_compute. discriminate.
Defined.

Lemma session_routes_keep_accounts_witness :
  kept server only_ann (fst (login server only_ann "ann@example.com" "Passw0rd")).
Proof.
  apply (session_routes_keep_accounts server only_ann
           (login server only_ann "ann@example.com" "Passw0rd")).
  - exact ann_keyed.
  - apply by_login.
Defined.

End AuthMore.

(** ** More about the listing routes *)

Module DomainsMore.
Import Js Domains Marketplace DomainsFacts.

Section Serving.
Context {platform : Platform}.

Lemma Domain_findOne_Some (db : DB) (n : string) (d : Domain) :
  Domain_findOne db n = Some d ->
  (exists pk, Domains db !! pk = Some d) /\ domainName d = n.
Proof.
  intros H.
  apply (find_row_Some (Domains db) (fun d => (domainName d =? n)%string)) in H
    as [Hpk Hn].
  split; [assumption|]. apply String.eqb_eq. assumption.
Qed.

Lemma Domain_findOne_None (db : DB) (n : string) (pk : string) (d : Domain) :
  Domain_findOne db n = None -> Domains db !! pk = Some d -> domainName d <> n.
Proof.
  intros H Hd Heq.
  apply (find_row_None (Domains db) (fun d => (domainName d =? n)%string) pk d H) in Hd.
  apply String.eqb_neq in Hd. contradiction.
Qed.

Lemma Domain_create_Done (db db' : DB) (d : Domain) :
  Domain_create db d = Done db' ->
  Domains db !! Domain_id d = None /\ Domain_findOne db (domainName d) = None /\
  Domain_valid d = true /\
  db' = mkDB (<[Domain_id d := d]> (Domains db)) (Listings db).
Proof.
  unfold Domain_create.
  destruct (Domains db !! Domain_id d); [discriminate|].
  destruct (Domain_findOne db (domainName d)); [discriminate|].
  destruct (Domain_valid d); [|discriminate].
  intros Hd. injection Hd as <-. auto.
Qed.

Lemma Domain_valid_type (d : Domain) :
  Domain_valid d = true -> in_enum Domain_type_enum (domainType d) = true.
Proof.
  unfold Domain_valid. intros Hv. repeat (apply andb_prop in Hv as [Hv ?]). assumption.
Qed.

Lemma Listing_create_Done (db db' : DB) (l : Listing) :
  Listing_create db l = Done db' ->
  Listings db !! id l = None /\ Listing_valid l = true /\
  db' = mkDB (Domains db) (<[id l := l]> (Listings db)).
Proof.
  unfold Listing_create.
  destruct (Listings db !! id l); [discriminate|].
  destruct (Listing_valid l); [|discriminate].
  intros H. injection H as <-. auto.
Qed.

(** Writing a row that keeps key, domain and lessor of the row it replaces
    keeps the tables sound. *)
Lemma sound_rewrite (db : DB) (l l' : Listing) :
  sound db -> Listings db !! id l = Some l -> Listing_valid l' = true ->
  id l' = id l -> domainId l' = domainId l -> lessorId l' = lessorId l ->
  sound (mkDB (Domains db) (<[id l' := l']> (Listings db))).
Proof.
  intros [Hc Hd Hn Ho] Hl Hv Hid Hdom Hles. split; simpl; try assumption.
  - intros pk l0 H; simpl in H. destruct (decide (id l' = pk)) as [<-|Hne].
    + rewrite lookup_insert_eq in H. injection H as <-. auto.
    + rewrite lookup_insert_ne in H by assumption. apply Hc. assumption.
  - intros pk l0 H; simpl in H. destruct (decide (id l' = pk)) as [<-|Hne].
    + rewrite lookup_insert_eq in H. injection H as <-.
      rewrite Hdom, Hles. apply (Ho (id l)). assumption.
    + rewrite lookup_insert_ne in H by assumption. apply (Ho pk). assumption.
Qed.

Lemma sound_create_listing (db : DB) (u nl : string) (b : PostBody) (d : Domain) :
  sound db -> Domains db !! Domain_id d = Some d -> ownerId d = u ->
  sound (fst (create_listing db u nl b d)).
Proof.
  intros Hs Hd Hu. unfold create_listing.
  destruct (Listing_create db (new_listing u nl b d)) as [db'|] eqn:E; simpl;
    [|assumption].
  apply Listing_create_Done in E as (Hfree & Hv & ->). simpl in Hfree.
  destruct Hs as [Hc Hdm Hn Ho]. split; simpl; try assumption.
  - intros pk l0 H; simpl in H. destruct (decide (nl = pk)) as [<-|Hne].
    + rewrite lookup_insert_eq in H. injection H as <-. auto.
    + rewrite lookup_insert_ne in H by assumption. apply Hc. assumption.
  - intros pk l0 H; simpl in H. destruct (decide (nl = pk)) as [<-|Hne].
    + rewrite lookup_insert_eq in H. injection H as <-. simpl. eauto.
    + rewrite lookup_insert_ne in H by assumption. apply (Ho pk). assumption.
Qed.

Lemma increment_valid (l l1 : Listing) :
  Listing_valid l = true -> increment_viewsCount l = Done l1 ->
  Listing_valid l1 = true /\ id l1 = id l /\ domainId l1 = domainId l /\
  lessorId l1 = lessorId l.
Proof.
  unfold increment_viewsCount. intros Hv.
  destruct (viewsCount l) as [| |?|[n| |]|?|?|?] eqn:E; try discriminate.
  - intros Hd. injection Hd as <-. auto.
  - destruct (Z.ltb_spec n 2147483647) as [Hlt|]; [|discriminate].
    intros Hd. injection Hd as <-. split; [|auto].
    unfold Listing_valid in *. simpl. rewrite E in Hv.
    repeat (apply andb_prop in Hv as [Hv ?]).
    match goal with Hi : viewsCount_takes _ = true |- _ =>
      unfold viewsCount_takes, int4 in Hi; apply andb_prop in Hi as [Hlo Hhi] end.
    apply Z.leb_le in Hlo.
    repeat (apply andb_true_intro; split); try assumption; apply Z.leb_le; lia.
Qed.

Lemma apply_patch_frame (b : PatchBody) (l : Listing) :
  id (apply_patch b l) = id l /\ domainId (apply_patch b l) = domainId l /\
  lessorId (apply_patch b l) = lessorId l.
Proof. repeat split. Qed.

Lemma patch_Domains (db : DB) (u pk : string) (b : PatchBody) :
  Domains (fst (patch_listings_id db u pk b)) = Domains db.
Proof.
  unfold patch_listings_id.
  destruct (Listing_findByPk db pk) as [[l|]|]; simpl; try reflexivity.
  destruct (negb (lessorId l =? u)%string); simpl; [reflexivity|].
  unfold Listing_save. destruct (Listing_valid (apply_patch b l)); reflexivity.
Qed.

Lemma delete_Domains (db : DB) (u pk : string) :
  Domains (fst (delete_listings_id db u pk)) = Domains db.
Proof.
  unfold delete_listings_id.
  destruct (Listing_findByPk db pk) as [[l|]|]; simpl; try reflexivity.
  destruct (negb (lessorId l =? u)%string); simpl; [reflexivity|].
  destruct (is_string (status l) "leased"); simpl; [reflexivity|].
  unfold Listing_save.
  destruct (Listing_valid (set_status (Str "cancelled") l)); reflexivity.
Qed.

Lemma get_Domains (db : DB) (pk : string) :
  Domains (fst (get_listings_id db pk)) = Domains db.
Proof.
  unfold get_listings_id.
  destruct (Listing_findByPk db pk) as [[l|]|]; simpl; try reflexivity.
  destruct (increment_viewsCount l); reflexivity.
Qed.

(** What the three routes that address a listing do to the Listings table:
    nothing, or they write a row in the place of the one they found, with
    its key, domain and lessor. *)
Lemma addressed_cases (db : DB) (r : Request) :
  consistent db ->
  match r with
  | POST_listings _ _ _ _ => True
  | _ =>
      fst (handle db r) = db \/
      exists l l', Listings db !! id l = Some l /\ Listing_valid l' = true /\
        id l' = id l /\ domainId l' = domainId l /\ lessorId l' = lessorId l /\
        fst (handle db r) = mkDB (Domains db) (<[id l' := l']> (Listings db))
  end.
Proof.
  intros Hc. destruct r as [u nd nl b | u pk b | u pk | pk]; simpl; [exact I| | |].
  - unfold patch_listings_id.
    destruct (Listing_findByPk db pk) as [[l|]|] eqn:Ef; simpl; auto.
    destruct (negb (lessorId l =? u)%string); simpl; [auto|].
    unfold Listing_save. destruct (Listing_valid (apply_patch b l)) eqn:Ev; simpl; [|auto].
    right. exists l, (apply_patch b l).
    split; [apply (Listing_found db pk l Hc Ef)|]. auto 10.
  - unfold delete_listings_id.
    destruct (Listing_findByPk db pk) as [[l|]|] eqn:Ef; simpl; auto.
    destruct (negb (lessorId l =? u)%string); simpl; [auto|].
    destruct (is_string (status l) "leased"); simpl; [auto|].
    unfold Listing_save.
    destruct (Listing_valid (set_status (Str "cancelled") l)) eqn:Ev; simpl; [|auto].
    right. exists l, (set_status (Str "cancelled") l).
    split; [apply (Listing_found db pk l Hc Ef)|]. auto 10.
  - unfold get_listings_id.
    destruct (Listing_findByPk db pk) as [[l|]|] eqn:Ef; simpl; auto.
    pose proof (Listing_found db pk l Hc Ef) as Hl.
    destruct (increment_viewsCount l) as [l1|] eqn:Ei; simpl; [|auto].
    destruct (Hc _ _ Hl) as [_ Hv].
    destruct (increment_valid l l1 Hv Ei) as (Hv1 & Hid & Hd & Hu).
    right. exists l, l1. rewrite Hid. auto 10.
Qed.

Lemma sound_handle (db : DB) (r : Request) : sound db -> sound (fst (handle db r)).
Proof.
  intros Hs.
  destruct r as [u nd nl b | u pk b | u pk | pk];
    [|pose proof (addressed_cases db (PATCH_listings_id u pk b) (sound_listings db Hs)) as Ha
     |pose proof (addressed_cases db (DELETE_listings_id u pk) (sound_listings db Hs)) as Ha
     |pose proof (addressed_cases db (GET_listings_id pk) (sound_listings db Hs)) as Ha];
    try (destruct Ha as [-> | (l & l' & Hl & Hv & Hid & Hd & Hu & ->)];
         [assumption | apply (sound_rewrite db l l'); assumption]).
  simpl. unfold post_listings.
  destruct (Domain_findOne db (post_domainName b)) as [d|] eqn:Ef.
  + destruct (String.eqb_spec (ownerId d) u) as [Hu|Hu]; simpl; [|assumption].
    apply sound_create_listing; [assumption | | assumption].
    apply Domain_findOne_Some in Ef as [[pk Hpk] _].
    rewrite (sound_domains db Hs pk d Hpk). assumption.
  + destruct (Domain_create db (new_domain u nd b)) as [db1|] eqn:Ec; simpl;
      [|assumption].
    apply Domain_create_Done in Ec as (Hfree & _ & _ & ->). simpl in Hfree.
    apply sound_create_listing; [| simpl; apply lookup_insert_eq | reflexivity].
    destruct Hs as [Hc Hdm Hn Ho]. split; simpl; try assumption.
    * intros pk d0 Hd0; simpl in Hd0. destruct (decide (nd = pk)) as [<-|Hne].
      -- rewrite lookup_insert_eq in Hd0. injection Hd0 as <-. reflexivity.
      -- rewrite lookup_insert_ne in Hd0 by assumption. apply Hdm. assumption.
    * intros pk1 pk2 d1 d2 H1 H2 Heq; simpl in H1, H2.
      destruct (decide (nd = pk1)) as [<-|Hne1]; destruct (decide (nd = pk2)) as [<-|Hne2];
        try reflexivity.
      -- rewrite lookup_insert_eq in H1. rewrite lookup_insert_ne in H2 by assumption.
         injection H1 as <-. exfalso.
         apply (Domain_findOne_None db _ pk2 d2 Ef H2). symmetry. exact Heq.
      -- rewrite lookup_insert_eq in H2. rewrite lookup_insert_ne in H1 by assumption.
         injection H2 as <-. exfalso.
         apply (Domain_findOne_None db _ pk1 d1 Ef H1). exact Heq.
      -- rewrite lookup_insert_ne in H1, H2 by assumption. eapply Hn; eassumption.
    * intros pk l Hl; simpl in Hl. destruct (Ho pk l Hl) as (d0 & Hd0 & Hown). exists d0.
      split; [|assumption]. rewrite lookup_insert_ne; [assumption|].
      intros Heq. rewrite <- Heq in Hd0. congruence.
Qed.

Lemma serve_cons (db : DB) (r : Request) (rs : list Request) :
  serve db (r :: rs) = serve (fst (handle db r)) rs.
Proof. reflexivity. Qed.

Lemma sound_serve (rs : list Request) (db : DB) : sound db -> sound (serve db rs).
Proof.
  revert db. induction rs as [|r rs IH]; intros db Hs; [assumption|].
  rewrite serve_cons. apply IH, sound_handle. assumption.
Qed.

Lemma sound_opening : sound opening.
Proof.
  split.
  - intros pk l Hl. simpl in Hl. rewrite lookup_empty in Hl. discriminate.
  - intros pk d Hd. simpl in Hd. rewrite lookup_empty in Hd. discriminate.
  - intros pk1 pk2 d1 d2 H1. simpl in H1. rewrite lookup_empty in H1. discriminate.
  - intros pk l Hl. simpl in Hl. rewrite lookup_empty in Hl. discriminate.
Qed.

(** X20.  Nobody lists a domain that is not theirs: whatever requests the
    marketplace serves from its opening, every listing is stored under its
    own key with columns that passed their checks, the domain it refers to
    exists, and the lessor of the listing is the owner of that domain. *)
Theorem lessor_owns_listed_domain (requests : list Request) (pk : string) (l : Listing) :
  Listings (serve opening requests) !! pk = Some l ->
  id l = pk /\ Listing_valid l = true /\
  exists d, Domains (serve opening requests) !! domainId l = Some d /\
            Domain_id d = domainId l /\ ownerId d = lessorId l.
Proof.
  intros H. pose proof (sound_serve requests opening sound_opening) as Hs.
  destruct (sound_listings _ Hs pk l H) as [Hid Hv].
  destruct (sound_owner _ Hs pk l H) as (d & Hd & Ho).
  split; [assumption|]. split; [assumption|]. exists d.
  split; [assumption|]. split; [|assumption]. apply (sound_domains _ Hs _ _ Hd).
Qed.

(** The routes add rows to the Domains table and never touch one again. *)
Lemma Domains_kept (db : DB) (r : Request) (pk : string) (d : Domain) :
  Domains db !! pk = Some d -> Domains (fst (handle db r)) !! pk = Some d.
Proof.
  intros Hd. destruct r as [u nd nl b | u pk' b | u pk' | pk']; simpl;
    [|rewrite patch_Domains; assumption|rewrite delete_Domains; assumption
     |rewrite get_Domains; assumption].
  unfold post_listings.
  destruct (Domain_findOne db (post_domainName b)) as [d0|] eqn:Ef.
  + destruct (negb (ownerId d0 =? u)%string); simpl; [assumption|].
    unfold create_listing.
    match goal with |- context [Listing_create db ?l0] =>
      destruct (Listing_create db l0) as [db1|] eqn:Ec end; simpl; [|assumption].
    apply Listing_create_Done in Ec as (_ & _ & ->). assumption.
  + destruct (Domain_create db (new_domain u nd b)) as [db1|] eqn:Ec; simpl;
      [|assumption].
    apply Domain_create_Done in Ec as (Hfree & _ & _ & ->). simpl in Hfree.
    unfold create_listing.
    match goal with |- context [Listing_create ?db0 ?l0] =>
      destruct (Listing_create db0 l0) as [db2|] eqn:El end; simpl.
    * apply Listing_create_Done in El as (_ & _ & ->). simpl.
      rewrite lookup_insert_ne; [assumption|]. intros ->. congruence.
    * rewrite lookup_insert_ne; [assumption|]. intros ->. congruence.
Qed.

Lemma Domains_serve (rs : list Request) (db : DB) (pk : string) (d : Domain) :
  Domains db !! pk = Some d -> Domains (serve db rs) !! pk = Some d.
Proof.
  revert db. induction rs as [|r rs IH]; intros db H; [assumption|].
  rewrite serve_cons. apply IH, Domains_kept. assumption.
Qed.

(** With unique names, the search by name finds the row of that name. *)
Lemma Domain_findOne_row (db : DB) (pk : string) (d : Domain) :
  sound db -> Domains db !! pk = Some d -> Domain_findOne db (domainName d) = Some d.
Proof.
  intros Hs Hd. destruct (Domain_findOne db (domainName d)) as [d'|] eqn:Ef.
  - apply Domain_findOne_Some in Ef as [[pk' Hpk'] Hn].
    pose proof (sound_names db Hs pk' pk d' d Hpk' Hd Hn) as ->.
    congruence.
  - exfalso. apply (Domain_findOne_None db _ pk d Ef Hd). reflexivity.
Qed.

(** X21.  A domain name belongs to whoever listed it first: once a name is
    on record, whatever requests follow, a POST for that name by any other
    user is answered 403 "Domain not owned" and changes nothing. *)
Theorem domain_stays_with_first_owner (before after : list Request) (d : Domain)
    (userId newDomainId newListingId : string) (b : PostBody) :
  Domain_findOne (serve opening before) (post_domainName b) = Some d ->
  ownerId d <> userId ->
  let db := serve (serve opening before) after in
  post_listings db userId newDomainId newListingId b = (db, failure 403 "Domain not owned").
Proof.
  intros Hf Hu db.
  pose proof (sound_serve before opening sound_opening) as Hs0.
  pose proof (sound_serve after _ Hs0) as Hs. fold db in Hs.
  apply Domain_findOne_Some in Hf as [[pk Hpk] Hn].
  apply (Domains_serve after) in Hpk. fold db in Hpk.
  pose proof (Domain_findOne_row db pk d Hs Hpk) as Hrow. rewrite Hn in Hrow.
  unfold post_listings. rewrite Hrow.
  destruct (String.eqb_spec (ownerId d) userId) as [He|He]; [contradiction|].
  reflexivity.
Qed.

Lemma or_or (a b : value) : or a (or a b) = or a b.
Proof. unfold or. destruct (truthy a); reflexivity. Qed.

Lemma apply_patch_twice (b : PatchBody) (l : Listing) :
  apply_patch b (apply_patch b l) = apply_patch b l.
Proof. unfold apply_patch. simpl. rewrite !or_or. reflexivity. Qed.

Lemma find_after {Row : Type} (table : gmap string Row) (pk key : string)
    (row row' : Row) :
  findByPk table pk = Done (Some row) ->
  findByPk (<[key := row']> table) pk = Done (Some row') \/
  findByPk (<[key := row']> table) pk = Done (Some row).
Proof.
  unfold findByPk. destruct (decide (key = pk)) as [->|Hne].
  - intros _. left. rewrite lookup_insert_eq. reflexivity.
  - rewrite lookup_insert_ne by assumption.
    destruct (table !! pk) as [r0|]; [auto|].
    destruct (uuid_in pk) as [k|]; [|discriminate].
    destruct (decide (key = k)) as [->|Hk].
    + intros _. left. rewrite lookup_insert_eq. reflexivity.
    + rewrite lookup_insert_ne by assumption. auto.
Qed.

(** X22.  PATCH is idempotent: sending the same update of a listing a
    second time gives the same answer and leaves the tables as the first
    left them. *)
Theorem patch_is_idempotent (db : DB) (userId pk : string) (b : PatchBody) :
  patch_listings_id (fst (patch_listings_id db userId pk b)) userId pk b
  = patch_listings_id db userId pk b.
Proof.
  destruct (Listing_findByPk db pk) as [[l|]|] eqn:Ef.
  - destruct (negb (lessorId l =? userId)%string) eqn:Eu.
    + unfold patch_listings_id at 2 3. rewrite Ef, Eu. simpl.
      unfold patch_listings_id. rewrite Ef, Eu. reflexivity.
    + destruct (Listing_valid (apply_patch b l)) eqn:Ev.
      * unfold patch_listings_id at 2 3. rewrite Ef, Eu. unfold Listing_save.
        rewrite Ev. simpl.
        unfold patch_listings_id, Listing_findByPk. simpl.
        destruct (find_after (Listings db) pk (id l) l (apply_patch b l) Ef) as [-> | ->].
        -- simpl. rewrite Eu, apply_patch_twice. unfold Listing_save. rewrite Ev.
           simpl. rewrite insert_insert_eq. reflexivity.
        -- rewrite Eu. unfold Listing_save. rewrite Ev. simpl.
           rewrite insert_insert_eq. reflexivity.
      * unfold patch_listings_id at 2 3. rewrite Ef, Eu. unfold Listing_save.
        rewrite Ev. simpl.
        unfold patch_listings_id. rewrite Ef, Eu. unfold Listing_save. rewrite Ev.
        reflexivity.
  - unfold patch_listings_id at 2 3. rewrite Ef. simpl.
    unfold patch_listings_id. rewrite Ef. reflexivity.
  - unfold patch_listings_id at 2 3. rewrite Ef. simpl.
    unfold patch_listings_id. rewrite Ef. reflexivity.
Qed.

Lemma new_listing_valid (u nl : string) (b : PostBody) (d : Domain) :
  Listing_valid (new_listing u nl b d) = true ->
  Listing_valid (set_status (Str "cancelled") (new_listing u nl b d)) = true.
Proof. apply set_status_valid. Qed.

Lemma create_listing_201 (db : DB) (u nl : string) (b : PostBody) (d : Domain) :
  code (snd (create_listing db u nl b d)) = 201 ->
  Listing_valid (new_listing u nl b d) = true /\
  create_listing db u nl b d
  = (mkDB (Domains db) (<[nl := new_listing u nl b d]> (Listings db)),
     success 201 (new_listing u nl b d)).
Proof.
  unfold create_listing.
  destruct (Listing_create db (new_listing u nl b d)) as [db'|] eqn:E; simpl;
    [|discriminate].
  intros _. apply Listing_create_Done in E as (_ & Hv & ->). auto.
Qed.

(** What a POST answered 201 has stored and shown. *)
Lemma post_201 (db : DB) (u nd nl : string) (b : PostBody) :
  code (snd (post_listings db u nd nl b)) = 201 ->
  exists d, ownerId d = u /\ Listing_valid (new_listing u nl b d) = true /\
    snd (post_listings db u nd nl b) = success 201 (new_listing u nl b d) /\
    Listings (fst (post_listings db u nd nl b))
    = <[nl := new_listing u nl b d]> (Listings db).
Proof.
  unfold post_listings.
  destruct (Domain_findOne db (post_domainName b)) as [d|] eqn:Ef.
  - destruct (String.eqb_spec (ownerId d) u) as [Hu|Hu]; simpl; [|discriminate].
    intros Hc. apply create_listing_201 in Hc as [Hv ->]. exists d. auto.
  - destruct (Domain_create db (new_domain u nd b)) as [db1|] eqn:Ec; simpl;
      [|discriminate].
    apply Domain_create_Done in Ec as (_ & _ & _ & ->).
    intros Hc. apply create_listing_201 in Hc as [Hv ->].
    exists (new_domain u nd b). auto.
Qed.

(** X23.  Publish, then withdraw: the listing a POST answered with 201 can
    be cancelled right away by the user who published it (200, status
    "cancelled", the row kept), while the same DELETE by anyone else is
    answered 403 and changes nothing. *)
Theorem publisher_can_cancel (db : DB) (userId newDomainId newListingId : string)
    (b : PostBody) :
  let out := post_listings db userId newDomainId newListingId b in
  code (snd out) = 201 ->
  exists l, shown (snd out) = Some l /\ status l = Str "active" /\
    delete_listings_id (fst out) userId newListingId
    = (mkDB (Domains (fst out))
         (<[newListingId := set_status (Str "cancelled") l]> (Listings (fst out))),
       success 200 (set_status (Str "cancelled") l)) /\
    forall other, other <> userId ->
      delete_listings_id (fst out) other newListingId
      = (fst out, failure 403 "Unauthorized").
Proof.
  intros out Hc. subst out.
  destruct (post_201 db userId newDomainId newListingId b Hc) as (d & Hd & Hv & Hr & Hl).
  exists (new_listing userId newListingId b d).
  rewrite Hr. split; [reflexivity|]. split; [reflexivity|].
  unfold delete_listings_id, Listing_findByPk.
  rewrite (findByPk_hit _ newListingId (new_listing userId newListingId b d));
    [|rewrite Hl; apply lookup_insert_eq].
  cbn [lessorId new_listing status is_string].
  split.
  - rewrite String.eqb_refl. simpl. unfold Listing_save.
    rewrite (new_listing_valid _ _ _ _ Hv). reflexivity.
  - intros other Ho.
    destruct (String.eqb_spec userId other) as [He|He]; [congruence|]. reflexivity.
Qed.

Lemma Listings_kept (db : DB) (r : Request) (pk : string) (l : Listing) :
  consistent db -> Listings db !! pk = Some l ->
  exists l', Listings (fst (handle db r)) !! pk = Some l' /\
    domainId l' = domainId l /\ lessorId l' = lessorId l.
Proof.
  intros Hc Hl.
  destruct r as [u nd nl b | u pk' b | u pk' | pk'];
    [|pose proof (addressed_cases db (PATCH_listings_id u pk' b) Hc) as Ha
     |pose proof (addressed_cases db (DELETE_listings_id u pk') Hc) as Ha
     |pose proof (addressed_cases db (GET_listings_id pk') Hc) as Ha];
    try (destruct Ha as [-> | (l0 & l' & Hl0 & Hv & Hid & Hd & Hu & ->)];
         [eauto|]; simpl; rewrite Hid;
         destruct (decide (id l0 = pk)) as [Heq|Hne];
         [rewrite Heq in *; rewrite lookup_insert_eq; exists l';
          assert (l0 = l) as -> by congruence; auto
         |rewrite lookup_insert_ne by assumption; eauto]).
  exists l. split; [|auto]. apply post_keeps. assumption.
Qed.

Lemma Listings_serve (rs : list Request) (db : DB) (pk : string) (l : Listing) :
  sound db -> Listings db !! pk = Some l ->
  exists l', Listings (serve db rs) !! pk = Some l' /\
    domainId l' = domainId l /\ lessorId l' = lessorId l.
Proof.
  revert db l. induction rs as [|r rs IH]; intros db l Hs H; [eauto|].
  rewrite serve_cons.
  destruct (Listings_kept db r pk l (sound_listings db Hs) H) as (l1 & H1 & Hd1 & Hl1).
  destruct (IH _ l1 (sound_handle db r Hs) H1) as (l2 & H2 & Hd2 & Hl2).
  exists l2. split; [assumption|]. split; congruence.
Qed.

(** X24.  No route removes a listing: a row of the Listings table stays
    under its key through every later request, DELETE included, and keeps
    its domain and its lessor. *)
Theorem listings_are_never_removed (before after : list Request) (pk : string)
    (l : Listing) :
  Listings (serve opening before) !! pk = Some l ->
  exists l', Listings (serve (serve opening before) after) !! pk = Some l' /\
    domainId l' = domainId l /\ lessorId l' = lessorId l.
Proof.
  apply Listings_serve, sound_serve, sound_opening.
Qed.

Lemma set_viewsCount_same (l : Listing) : set_viewsCount (viewsCount l) l = l.
Proof. destruct l; reflexivity. Qed.

Lemma db_eta (db : DB) : mkDB (Domains db) (Listings db) = db.
Proof. destruct db; reflexivity. Qed.

Lemma views_counted (n : nat) :
  forall (db : DB) (pk : string) (l : Listing) (v : Z),
  Listings db !! pk = Some l -> id l = pk -> viewsCount l = Number (Num v) ->
  v + Z.of_nat n <= 2147483647 ->
  serve db (repeat (GET_listings_id pk) n)
  = mkDB (Domains db)
      (<[pk := set_viewsCount (Number (Num (v + Z.of_nat n))) l]> (Listings db)).
Proof.
  induction n as [|n IH]; intros db pk l v Hl Hid Hv Hmax.
  - simpl. rewrite Z.add_0_r, <- Hv, set_viewsCount_same.
    rewrite insert_id by assumption. symmetry. apply db_eta.
  - cbn [repeat]. rewrite serve_cons. cbn [handle].
    unfold get_listings_id, Listing_findByPk. rewrite (findByPk_hit _ _ _ Hl).
    unfold increment_viewsCount. rewrite Hv.
    destruct (Z.ltb_spec v 2147483647) as [Hlt|Hge]; [|lia]. cbn [fst].
    rewrite (IH _ pk (set_viewsCount (Number (Num (v + 1))) l) (v + 1)).
    + cbn [Domains Listings id set_viewsCount]. rewrite Hid, insert_insert_eq.
      replace (v + 1 + Z.of_nat n) with (v + Z.of_nat (S n)) by lia.
      reflexivity.
    + cbn [Listings id set_viewsCount]. rewrite Hid. apply lookup_insert_eq.
    + simpl. assumption.
    + reflexivity.
    + lia.
Qed.

(** X25.  Views are counted one by one, up to the limit of the column: [n]
    GETs of a listing whose counter is the number [v] leave it at [v + n] as
    long as that is at most 2147483647, and change no other column, no other
    listing and no domain; a GET of a listing whose counter has reached
    2147483647 is answered 500 and changes nothing. *)
Theorem views_are_counted (n : nat) (db : DB) (pk : string) (l : Listing) (v : Z) :
  Listings db !! pk = Some l -> id l = pk -> viewsCount l = Number (Num v) ->
  (v + Z.of_nat n <= 2147483647 ->
   serve db (repeat (GET_listings_id pk) n)
   = mkDB (Domains db)
       (<[pk := set_viewsCount (Number (Num (v + Z.of_nat n))) l]> (Listings db))) /\
  (2147483647 <= v ->
   get_listings_id db pk = (db, failure 500 "Failed to fetch listing")).
Proof.
  intros Hl Hid Hv. split.
  - apply views_counted; assumption.
  - intros Hmax. unfold get_listings_id, Listing_findByPk.
    rewrite (findByPk_hit _ _ _ Hl). unfold increment_viewsCount. rewrite Hv.
    destruct (Z.ltb_spec v 2147483647) as [Hlt|Hge]; [lia | reflexivity].
Qed.

Lemma last_label_other (c : ascii) (rest acc : string) :
  c <> "."%char ->
  last_label (String c rest) acc = last_label rest (acc ++ String c EmptyString).
Proof.
  intros Hc. destruct c as [[] [] [] [] [] [] [] []]; try reflexivity. contradiction.
Qed.

Lemma has_dot_other (c : ascii) (rest : string) :
  c <> "."%char -> has_dot (String c rest) = has_dot rest.
Proof.
  intros Hc. destruct c as [[] [] [] [] [] [] [] []]; try reflexivity. contradiction.
Qed.

Lemma has_dot_app (a b : string) : has_dot (a ++ b) = has_dot a || has_dot b.
Proof.
  induction a as [|c a IH]; [reflexivity|].
  rewrite MiddlewareFacts.append_cons.
  destruct (ascii_dec c "."%char) as [->|Hne]; [reflexivity|].
  rewrite !(has_dot_other c _ Hne). exact IH.
Qed.

Lemma last_label_no_dot (s acc : string) :
  has_dot acc = false -> has_dot (last_label s acc) = false.
Proof.
  revert acc. induction s as [|c s IH]; intros acc Ha; [assumption|].
  destruct (ascii_dec c "."%char) as [->|Hne].
  - apply (IH EmptyString). reflexivity.
  - rewrite (last_label_other c s acc Hne). apply IH.
    rewrite has_dot_app, Ha, (has_dot_other c _ Hne). reflexivity.
Qed.

Lemma append_empty (a : string) : (a ++ "")%string = a.
Proof.
  induction a as [|c a IH]; [reflexivity|].
  rewrite MiddlewareFacts.append_cons, IH. reflexivity.
Qed.

Lemma append_assoc (a b c : string) : ((a ++ b) ++ c)%string = (a ++ (b ++ c))%string.
Proof.
  induction a as [|x a IH]; [reflexivity|].
  rewrite !MiddlewareFacts.append_cons, IH. reflexivity.
Qed.

(** [last_label] returns the end of the name, and what stands before it is
    nothing or ends with a dot. *)
Lemma last_label_suffix (s acc : string) :
  exists front, (acc ++ s)%string = (front ++ last_label s acc)%string /\
    (front = EmptyString \/ exists f, front = (f ++ ".")%string).
Proof.
  revert acc. induction s as [|c s IH]; intros acc.
  - exists EmptyString. rewrite append_empty. auto.
  - destruct (ascii_dec c "."%char) as [->|Hne].
    + destruct (IH EmptyString) as (front & Hf & Hd).
      exists ((acc ++ ".") ++ front)%string. split.
      * change (last_label (String "." s) acc) with (last_label s EmptyString).
        rewrite append_assoc, <- Hf, append_assoc. reflexivity.
      * right. destruct Hd as [->|[f ->]].
        -- exists acc. rewrite append_empty. reflexivity.
        -- exists ((acc ++ ".") ++ f)%string.
           rewrite (append_assoc (acc ++ ".") f "."). reflexivity.
    + rewrite (last_label_other c s acc Hne).
      destruct (IH (acc ++ String c EmptyString)%string) as (front & Hf & Hd).
      exists front. split; [|assumption].
      rewrite <- Hf, append_assoc. reflexivity.
Qed.

(** A Domains row as the POST route writes it. *)
Lemma Domains_origin (db : DB) (r : Request) (pk : string) (d : Domain) :
  Domains (fst (handle db r)) !! pk = Some d ->
  Domains db !! pk = Some d \/
  (in_enum Domain_type_enum (domainType d) = true /\
   verificationStatus d = Str "pending" /\
   tld d = last_label (domainName d) EmptyString).
Proof.
  destruct r as [u nd nl b | u pk' b | u pk' | pk']; simpl;
    [|rewrite patch_Domains; auto|rewrite delete_Domains; auto
     |rewrite get_Domains; auto].
  unfold post_listings.
  destruct (Domain_findOne db (post_domainName b)) as [d0|] eqn:Ef.
  + destruct (negb (ownerId d0 =? u)%string); simpl; [auto|].
    unfold create_listing.
    match goal with |- context [Listing_create db ?l0] =>
      destruct (Listing_create db l0) as [db1|] eqn:Ec end; simpl; [|auto].
    apply Listing_create_Done in Ec as (_ & _ & ->). auto.
  + destruct (Domain_create db (new_domain u nd b)) as [db1|] eqn:Ec; simpl; [|auto].
    apply Domain_create_Done in Ec as (_ & _ & Hvalid & ->).
    apply Domain_valid_type in Hvalid. simpl in Hvalid.
    assert (Hnew : forall tbl : gmap string Domain,
      (tbl = <[nd := new_domain u nd b]> (Domains db)) ->
      tbl !! pk = Some d ->
      Domains db !! pk = Some d \/
      (in_enum Domain_type_enum (domainType d) = true /\
       verificationStatus d = Str "pending" /\
       tld d = last_label (domainName d) EmptyString)).
    { intros tbl -> Hd. destruct (decide (nd = pk)) as [<-|Hne].
      - rewrite lookup_insert_eq in Hd. injection Hd as <-. right. auto.
      - rewrite lookup_insert_ne in Hd by assumption. auto. }
    unfold create_listing.
    match goal with |- context [Listing_create ?db0 ?l0] =>
      destruct (Listing_create db0 l0) as [db2|] eqn:El end; simpl.
    * apply Listing_create_Done in El as (_ & _ & ->). simpl.
      apply Hnew. reflexivity.
    * apply Hnew. reflexivity.
Qed.

Lemma Domains_serve_origin (rs : list Request) (db : DB) (P : Domain -> Prop) :
  (forall d, in_enum Domain_type_enum (domainType d) = true ->
             verificationStatus d = Str "pending" ->
             tld d = last_label (domainName d) EmptyString -> P d) ->
  (forall pk d, Domains db !! pk = Some d -> P d) ->
  forall pk d, Domains (serve db rs) !! pk = Some d -> P d.
Proof.
  intros HP. revert db. induction rs as [|r rs IH]; intros db Hdb; [assumption|].
  rewrite serve_cons. apply IH. intros pk d H.
  apply Domains_origin in H as [H|(Ht & Hv & Hl)]; [eapply Hdb; eassumption|].
  apply HP; assumption.
Qed.

(** X26.  Domains entered through the listing routes: every row of the
    Domains table is of type web2 or web3, has the verification status
    "pending" (no route ever verifies a domain), and its [tld] is the part of
    its name after the last dot: it has no dot itself, and what precedes it
    in the name is nothing or ends with a dot. *)
Theorem listed_domains_stay_pending (requests : list Request) (pk : string) (d : Domain) :
  Domains (serve opening requests) !! pk = Some d ->
  in_enum Domain_type_enum (domainType d) = true /\
  verificationStatus d = Str "pending" /\
  has_dot (tld d) = false /\
  exists front, domainName d = (front ++ tld d)%string /\
    (front = EmptyString \/ exists f, front = (f ++ ".")%string).
Proof.
  revert pk d.
  apply (Domains_serve_origin requests opening
           (fun d => in_enum Domain_type_enum (domainType d) = true /\
              verificationStatus d = Str "pending" /\
              has_dot (tld d) = false /\
              exists front, domainName d = (front ++ tld d)%string /\
                (front = EmptyString \/ exists f, front = (f ++ ".")%string))).
  - intros d0 Ht Hv Hl. split; [assumption|]. split; [assumption|]. rewrite Hl.
    split; [apply last_label_no_dot; reflexivity|].
    apply (last_label_suffix (domainName d0) EmptyString).
  - intros pk0 d0 H. simpl in H. rewrite lookup_empty in H. discriminate.
Qed.

(** X27.  The guard [requireDomainOwner] agrees with the listings: asked
    about the domain of any listing in the table, it finds the domain, hands
    the request of the listing's lessor on with that domain attached, and
    answers everyone else 403. *)
Theorem only_lessor_passes_domain_guard (requests : list Request) (pk : string)
    (l : Listing) (userId : string) :
  Listings (serve opening requests) !! pk = Some l ->
  exists d, Domains (serve opening requests) !! domainId l = Some d /\
    Middleware.requireDomainOwner (serve opening requests) userId (domainId l)
    = if (lessorId l =? userId)%string
      then Middleware.Next d else Middleware.Answer 403 "Unauthorized".
Proof.
  intros Hl. pose proof (sound_serve requests opening sound_opening) as Hs.
  destruct (sound_owner _ Hs pk l Hl) as (d & Hd & Ho).
  exists d. split; [assumption|].
  unfold Middleware.requireDomainOwner, Domain_findByPk.
  rewrite (findByPk_hit _ _ _ Hd), Ho.
  destruct (lessorId l =? userId)%string; reflexivity.
Qed.

End Serving.

(** *** On the sample data *)

#[local] Existing Instance strict.

Lemma lessor_owns_listed_domain_witness :
  exists d, Domains (serve opening [POST_listings "alice" "D1" "L1" new_name])
              !! "D1" = Some d /\ ownerId d = "alice".
Proof.
  destruct (lessor_owns_listed_domain [POST_listings "alice" "D1" "L1" new_name] "L1"
              (new_listing "alice" "L1" new_name
                 (mkDomain "D1" "shop.dreamforge.io" "io" (Str "web2") "alice"
                    (Str "pending") Undefined)))
    as (_ & _ & d & Hd & _ & Ho).
  - vm_compute. reflexivity.
  - exists d. split; [exact Hd | exact Ho].
Defined.

Lemma domain_stays_with_first_owner_witness :
  "alice" <> "bob" /\
  post_listings
    (serve (serve opening [POST_listings "alice" "D1" "L1" same_name])
       [DELETE_listings_id "alice" "L1"]) "bob" "D2" "L2" same_name
  = (serve (serve opening [POST_listings "alice" "D1" "L1" same_name])
       [DELETE_listings_id "alice" "L1"], failure 403 "Domain not owned").
Proof.
  split; [discriminate|].
  apply (domain_stays_with_first_owner [POST_listings "alice" "D1" "L1" same_name]
           [DELETE_listings_id "alice" "L1"]
           (mkDomain "D1" "dreamforge.com" "com" (Str "web3") "alice" (Str "pending")
              Undefined) "bob" "D2" "L2" same_name).
  - vm_compute. reflexivity.
  - discriminate.
Defined.

Lemma publisher_can_cancel_witness :
  exists l, status l = Str "active" /\
    code (snd (delete_listings_id
                 (fst (post_listings opening "alice" "D1" "L1" new_name)) "alice" "L1"))
    = 200 /\
    status <$> shown (snd (delete_listings_id
                 (fst (post_listings opening "alice" "D1" "L1" new_name)) "alice" "L1"))
    = Some (Str "cancelled") /\
    code (snd (delete_listings_id
                 (fst (post_listings opening "alice" "D1" "L1" new_name)) "bob" "L1"))
    = 403.
Proof.
  destruct (publisher_can_cancel opening "alice" "D1" "L1" new_name)
    as (l & _ & Hs & Hd & Ho).
  - vm_compute. reflexivity.
  - exists l. split; [exact Hs|]. rewrite Hd. rewrite (Ho "bob") by discriminate.
    repeat split.
Defined.

Lemma listings_are_never_removed_witness :
  exists l', Listings (serve (serve opening [POST_listings "alice" "D1" "L1" new_name])
                         [DELETE_listings_id "alice" "L1"]) !! "L1" = Some l' /\
    lessorId l' = "alice".
Proof.
  destruct (listings_are_never_removed [POST_listings "alice" "D1" "L1" new_name]
              [DELETE_listings_id "alice" "L1"] "L1"
              (new_listing "alice" "L1" new_name
                 (mkDomain "D1" "shop.dreamforge.io" "io" (Str "web2") "alice"
                    (Str "pending") Undefined)))
    as (l' & Hl & _ & Ho).
  - vm_compute. reflexivity.
  - exists l'. split; [exact Hl | exact Ho].
Defined.

Lemma views_are_counted_witness :
  viewsCount <$> Listings (serve (serve opening [POST_listings "alice" "D1" "L1" new_name])
                             (repeat (GET_listings_id "L1") 3)) !! "L1"
  = Some (Number (Num 3)).
Proof.
  rewrite (proj1 (views_are_counted 3
                    (serve opening [POST_listings "alice" "D1" "L1" new_name]) "L1"
                    (new_listing "alice" "L1" new_name
                       (mkDomain "D1" "shop.dreamforge.io" "io" (Str "web2") "alice"
                          (Str "pending") Undefined)) 0 eq_refl eq_refl eq_refl));
    [reflexivity | simpl; lia].
Defined.

Lemma listed_domains_stay_pending_witness :
  has_dot "io" = false /\
  verificationStatus
    (mkDomain "D1" "shop.dreamforge.io" "io" (Str "web2") "alice" (Str "pending")
       Undefined) = Str "pending".
Proof.
  destruct (listed_domains_stay_pending
              [POST_listings "alice" "D1" "L1" new_name; GET_listings_id "L1"] "D1"
              (mkDomain "D1" "shop.dreamforge.io" "io" (Str "web2") "alice"
                 (Str "pending") Undefined)) as (_ & Hv & Hd & _).
  - vm_compute. reflexivity.
  - split; [exact Hd | exact Hv].
Defined.

Lemma only_lessor_passes_domain_guard_witness :
  exists d,
    Middleware.requireDomainOwner
      (serve opening [POST_listings "alice" "D1" "L1" new_name]) "bob" "D1"
    = Middleware.Answer 403 "Unauthorized" /\
    Middleware.requireDomainOwner
      (serve opening [POST_listings "alice" "D1" "L1" new_name]) "alice" "D1"
    = Middleware.Next d.
Proof.
  pose (l := new_listing "alice" "L1" new_name
               (mkDomain "D1" "shop.dreamforge.io" "io" (Str "web2") "alice"
                  (Str "pending") Undefined)).
  destruct (only_lessor_passes_domain_guard
              [POST_listings "alice" "D1" "L1" new_name] "L1" l "alice")
    as (d & _ & Ha); [vm_compute; reflexivity|].
  exists d. split; [vm_compute; reflexivity | exact Ha].
Defined.

End DomainsMore.
